(** * bdaysync: the reconciler and the scheduler, embedded and verified

    A shallow embedding of the decision logic of [bdaysync]
    ([caldav_client.py], [scheduler.py], [main.py], with the pieces of
    [cardav_client.py] and [config.py] they rely on).

    - Python [str] values are [string]s holding the UTF-8 encoding of the
      text; [in], [startswith] and [replace] on code points agree with the
      byte-level functions below on well-formed UTF-8; [len], [strip] and
      [isdigit] work on the characters ([Str.chars]).
    - Python exceptions are the [Raise] branch of the result type [Res];
      a [try]/[except] is a [match] on it.
    - The CalDAV calendar is an explicit store (a list of stored objects)
      threaded through every call; each call also receives the way the
      server answers it ([SinkIO]). The collection holds each object as
      [vobject] reads it: a text the client writes comes back with its
      line breaks (CR LF, CR) turned into LF ([read_text]). [save_event]
      adds a resource at the end of the collection, [save] replaces the
      resource it was read from, and a request that fails leaves the
      collection as it was.
    - What Python and its libraries provide and the repository does not
      define ([str.lower], [str.format], [int], the server's time-range
      filter, [croniter], the digits of the Unicode database) are the
      methods of the classes [PyStr], [CalDAVServer], [Croniter] and
      [UnicodeData], and for the addressbook client ([requests], [re],
      [urlparse], [vobject.readOne]) of the class [CardDAVLibs]; general
      theorems hold for every instance, concrete scenarios use the
      reference instances of the module [Ref] and the small server of the
      module [FurtherScenario].
    - A [KeyboardInterrupt] is not an [Exception] and is no [exn]: where
      it matters, in [main], a call that it interrupts is told apart from
      one that returns ([Call], [DaemonEnd]). *)

From stdpp Require Import base option list strings gmap sorting.
From Stdlib Require Import ZArith Lia Ascii.

Open Scope string_scope.
Open Scope Z_scope.

(** ** Exceptions and results *)

Inductive exn : Type :=
  | KeyError
  | ValueError
  | AttributeError
  | IndexError
  | TypeError
  | OverflowError
  | DAVError          (* raised by the caldav / requests libraries *)
  | Unmodelled.       (* the reference instances, outside their fragment *)

Inductive Res (A : Type) : Type :=
  | Return (a : A)
  | Raise (e : exn).
Arguments Return {A} a.
Arguments Raise {A} e.

#[global] Instance Res_ret : MRet Res := fun A a => Return a.
#[global] Instance Res_bind : MBind Res := fun A B k m =>
  match m with
  | Return a => k a
  | Raise e => Raise e
  end.
#[global] Instance Res_fmap : FMap Res := fun A B f m =>
  match m with
  | Return a => Return (f a)
  | Raise e => Raise e
  end.

#[global] Instance exn_eq_dec : EqDecision exn.
Proof. solve_decision. Defined.

(** [except (KeyError, ValueError, AttributeError)] *)
Definition caught_by_format_handler (e : exn) : bool :=
  match e with
  | KeyError | ValueError | AttributeError => true
  | _ => false
  end.

(** ** Strings *)

Module Str.

(** [s.startswith(p)] *)
Fixpoint startswith (p s : string) : bool :=
  match p, s with
  | EmptyString, _ => true
  | String _ _, EmptyString => false
  | String a p', String b s' => Ascii.eqb a b && startswith p' s'
  end.

(** [p in s] *)
Fixpoint contains (p s : string) : bool :=
  startswith p s ||
  match s with
  | EmptyString => false
  | String _ s' => contains p s'
  end.

(** The scan of [s.replace(old, new)] for a non-empty [old]: [skip] counts
    the characters of a matched occurrence still to be dropped. *)
Fixpoint replace_from (old new : string) (skip : nat) (s : string) : string :=
  match s with
  | EmptyString => EmptyString
  | String c s' =>
      match skip with
      | S k => replace_from old new k s'
      | O =>
          if startswith old s
          then new +:+ replace_from old new (Nat.pred (String.length old)) s'
          else String c (replace_from old new O s')
      end
  end.

(** With an empty [old], Python inserts [new] before every character and
    at the end. *)
Fixpoint intersperse (new s : string) : string :=
  match s with
  | EmptyString => new
  | String c s' => new +:+ String c (intersperse new s')
  end.

(** [s.replace(old, new)] *)
Definition replace (old new s : string) : string :=
  match old with
  | EmptyString => intersperse new s
  | String _ _ => replace_from old new O s
  end.

(** [s.count(c)] for a one-character [c] *)
Fixpoint count_char (c : ascii) (s : string) : nat :=
  match s with
  | EmptyString => O
  | String b s' => (if Ascii.eqb b c then 1 else 0)%nat + count_char c s'
  end.

(** The bytes [10xxxxxx], which continue a character of several bytes. *)
Definition is_continuation (c : ascii) : bool :=
  let n := nat_of_ascii c in (128 <=? n)%nat && (n <=? 191)%nat.

(** The characters of a text, each with its bytes: a byte that continues
    a character goes with what precedes it. *)
Fixpoint chars (s : string) : list string :=
  match s with
  | EmptyString => []
  | String c s' =>
      match chars s' with
      | String b r :: rest =>
          if is_continuation b then String c (String b r) :: rest
          else String c EmptyString :: String b r :: rest
      | rest => String c EmptyString :: rest
      end
  end.

(** [len(s)]: the number of characters *)
Definition len (s : string) : nat := length (chars s).

(** [''.join(l)] *)
Fixpoint join (l : list string) : string :=
  match l with
  | [] => EmptyString
  | w :: ws => w +:+ join ws
  end.

Fixpoint continuation_bits (acc : Z) (r : string) : Z :=
  match r with
  | EmptyString => acc
  | String b r' => continuation_bits (acc * 64 + (Z.of_nat (nat_of_ascii b) - 128)) r'
  end.

(** The code point of a character, from its UTF-8 bytes. *)
Definition code_point (ch : string) : Z :=
  match ch with
  | EmptyString => 0
  | String c r =>
      let n := Z.of_nat (nat_of_ascii c) in
      continuation_bits
        (if n <? 128 then n else if n <? 224 then n - 192
         else if n <? 240 then n - 224 else n - 240) r
  end.

(** The white space of [str.strip] and [str.isspace]: U+0009 to U+000D,
    U+001C to U+0020, U+0085, U+00A0, U+1680, U+2000 to U+200A, U+2028,
    U+2029, U+202F, U+205F, U+3000. *)
Definition is_space_code (cp : Z) : bool :=
  ((9 <=? cp) && (cp <=? 13)) || ((28 <=? cp) && (cp <=? 32)) ||
  (cp =? 133) || (cp =? 160) || (cp =? 5760) ||
  ((8192 <=? cp) && (cp <=? 8202)) ||
  (cp =? 8232) || (cp =? 8233) || (cp =? 8239) || (cp =? 8287) || (cp =? 12288).

Definition is_space (ch : string) : bool := is_space_code (code_point ch).

Fixpoint skip_spaces (l : list string) : list string :=
  match l with
  | ch :: rest => if is_space ch then skip_spaces rest else l
  | [] => []
  end.

(** [s.lstrip()] *)
Definition lstrip (s : string) : string := join (skip_spaces (chars s)).

(** [s.rstrip()] *)
Definition rstrip (s : string) : string := join (rev (skip_spaces (rev (chars s)))).

(** [s.strip()] *)
Definition strip (s : string) : string :=
  join (rev (skip_spaces (rev (skip_spaces (chars s))))).

(** [s.split(sep)] for a one-character separator: never the empty list. *)
Fixpoint split (sep : ascii) (s : string) : list string :=
  match s with
  | EmptyString => [EmptyString]
  | String c s' =>
      if Ascii.eqb c sep then EmptyString :: split sep s'
      else match split sep s' with
           | w :: ws => String c w :: ws
           | [] => [String c EmptyString]
           end
  end.

Definition is_digit (c : ascii) : bool :=
  let n := nat_of_ascii c in (48 <=? n)%nat && (n <=? 57)%nat.

Definition digit_val (c : ascii) : Z := Z.of_nat (nat_of_ascii c) - 48.

(** [s.isdigit()] on ASCII text: non-empty and all digits *)
Fixpoint all_digits (s : string) : bool :=
  match s with
  | EmptyString => true
  | String c s' => is_digit c && all_digits s'
  end.

Definition isdigit (s : string) : bool :=
  match s with EmptyString => false | _ => all_digits s end.

(** value of a digit string, most significant digit first *)
Fixpoint digits_val (acc : Z) (s : string) : Z :=
  match s with
  | EmptyString => acc
  | String c s' => digits_val (10 * acc + digit_val c) s'
  end.

Definition digit_char (d : Z) : ascii := ascii_of_nat (Z.to_nat (48 + d)).

(** decimal digits of a natural number, [fuel] bounding their count *)
Fixpoint dec_digits (fuel : nat) (n : Z) (acc : string) : string :=
  match fuel with
  | O => acc
  | S f =>
      let acc' := String (digit_char (n mod 10)) acc in
      if n / 10 =? 0 then acc' else dec_digits f (n / 10) acc'
  end.

(** [str(n)] for an [int] *)
Definition of_Z (n : Z) : string :=
  if n <? 0 then String "-" (dec_digits (S (Z.to_nat (Z.log2 (- n)))) (- n) EmptyString)
  else dec_digits (S (Z.to_nat (Z.log2 n))) n EmptyString.

Fixpoint zeros (n : nat) : string :=
  match n with
  | O => EmptyString
  | S n' => String "0" (zeros n')
  end.

(** zero-padded decimal of width at least [w], as [%02d] and [%04d] *)
Definition pad_left (w : nat) (s : string) : string :=
  zeros (w - String.length s) +:+ s.

End Str.

(** ** What Python and the libraries provide *)

(** A value passed to [str.format] by keyword. *)
Inductive PyVal : Type :=
  | VStr (s : string)
  | VInt (n : Z).

(** [str.lower], [str.format] (called with keyword arguments only) and [int]
    on a [str]; [None] is [int]'s [ValueError]. *)
Class PyStr : Type := {
  lower : string -> string;
  str_format : string -> list (string * PyVal) -> Res string;
  int_of_str : string -> option Z
}.

(** ** Dates ([datetime.date]) and durations ([datetime.timedelta]) *)

Record Date : Type := mkDate { year : Z; month : Z; day : Z }.

#[global] Instance Date_eq_dec : EqDecision Date.
Proof. solve_decision. Defined.

Definition is_leap (y : Z) : bool :=
  (y mod 4 =? 0) && (negb (y mod 100 =? 0) || (y mod 400 =? 0)).

Definition days_in_month (y m : Z) : Z :=
  if m =? 2 then (if is_leap y then 29 else 28)
  else if (m =? 4) || (m =? 6) || (m =? 9) || (m =? 11) then 30
  else 31.

(** The checks of the [date] constructor: [MINYEAR = 1], [MAXYEAR = 9999]. *)
Definition valid_date (y m d : Z) : bool :=
  (1 <=? y) && (y <=? 9999) && (1 <=? m) && (m <=? 12) &&
  (1 <=? d) && (d <=? days_in_month y m).

(** [date(y, m, d)] *)
Definition make_date (y m d : Z) : Res Date :=
  if valid_date y m d then Return (mkDate y m d) else Raise ValueError.

(** [d.replace(year=y)] *)
Definition replace_year (d : Date) (y : Z) : Res Date :=
  make_date y (month d) (day d).

(** [d + timedelta(days=1)] *)
Definition add_one_day (d : Date) : Res Date :=
  if day d <? days_in_month (year d) (month d)
  then Return (mkDate (year d) (month d) (day d + 1))
  else if month d <? 12 then Return (mkDate (year d) (month d + 1) 1)
  else if year d <? 9999 then Return (mkDate (year d + 1) 1 1)
  else Raise OverflowError.

(** [d.strftime('%Y%m%d')] with the C library the program runs on
    (glibc): [%Y] writes the year without padding, so a year below 1000
    gives fewer than four digits ([9990615] for 15 June 999); the month and
    the day are written on two digits. *)
Definition strftime_Ymd (d : Date) : string :=
  Str.of_Z (year d) +:+
  Str.pad_left 2 (Str.of_Z (month d)) +:+
  Str.pad_left 2 (Str.of_Z (day d)).

(** A normalised [timedelta]: [days] carries the sign. *)
Record Timedelta : Type := mkTimedelta { td_days : Z; td_seconds : Z; td_microseconds : Z }.

#[global] Instance Timedelta_eq_dec : EqDecision Timedelta.
Proof. solve_decision. Defined.

(** [timedelta(days=n)]: [OverflowError] beyond 999999999 days *)
Definition timedelta_days (n : Z) : Res Timedelta :=
  if (-999999999 <=? n) && (n <=? 999999999)
  then Return (mkTimedelta n 0 0)
  else Raise OverflowError.

(** ** The calendar objects (what [vobject] reads and writes) *)

(** The value of a [TRIGGER]: a duration, or an absolute date-time. *)
Inductive Trigger : Type :=
  | TriggerDelta (td : Timedelta)
  | TriggerDateTime (stamp : string).

Record VAlarm : Type := mkVAlarm {
  al_action : option string;
  al_trigger : option Trigger;
  al_description : option string
}.

(** A [VEVENT]; an absent property is [None], which is what [hasattr]
    tests. [valarm_list] exists exactly when [ev_alarms] is not empty. *)
Record VEvent : Type := mkVEvent {
  ev_uid : option string;
  ev_dtstart : Date;
  ev_dtend : Date;
  ev_summary : option string;
  ev_description : option string;
  ev_categories : option (list string);
  ev_rrule : option string;
  ev_alarms : list VAlarm
}.

(** A stored calendar resource: [vobject.readOne(event.data).vevent] either
    raises ([Garbled]) or yields the event. *)
Inductive CalObject : Type :=
  | Garbled
  | ICal (ev : VEvent).

#[global] Instance Trigger_eq_dec : EqDecision Trigger.
Proof. solve_decision. Defined.
#[global] Instance VAlarm_eq_dec : EqDecision VAlarm.
Proof. solve_decision. Defined.
#[global] Instance VEvent_eq_dec : EqDecision VEvent.
Proof. solve_decision. Defined.
#[global] Instance CalObject_eq_dec : EqDecision CalObject.
Proof. solve_decision. Defined.

(** What [vobject] reads back for a text it has written: the
    serialisation writes a line break as the escape [\n], be it CR LF, LF
    or CR, and the escape reads as LF. *)
Definition read_text (s : string) : string :=
  Str.replace (String (ascii_of_nat 13) EmptyString) (String (ascii_of_nat 10) EmptyString)
    (Str.replace (String (ascii_of_nat 13) (String (ascii_of_nat 10) EmptyString))
       (String (ascii_of_nat 10) EmptyString) s).

Definition read_alarm (alarm : VAlarm) : VAlarm :=
  {| al_action := read_text <$> al_action alarm;
     al_trigger := al_trigger alarm;
     al_description := read_text <$> al_description alarm |}.

(** An event the client has written, as [vobject] reads it from the
    store: the summary, the description, the categories and the alarms,
    which the client sets at every write, come back through [read_text]. *)
Definition read_back (ev : VEvent) : VEvent :=
  {| ev_uid := ev_uid ev;
     ev_dtstart := ev_dtstart ev;
     ev_dtend := ev_dtend ev;
     ev_summary := read_text <$> ev_summary ev;
     ev_description := read_text <$> ev_description ev;
     ev_categories := fmap (M := list) read_text <$> ev_categories ev;
     ev_rrule := ev_rrule ev;
     ev_alarms := read_alarm <$> ev_alarms ev |}.

(** A new event: its UID too is a text the client has set. *)
Definition read_back_new (ev : VEvent) : VEvent :=
  read_back {| ev_uid := read_text <$> ev_uid ev;
               ev_dtstart := ev_dtstart ev;
               ev_dtend := ev_dtend ev;
               ev_summary := ev_summary ev;
               ev_description := ev_description ev;
               ev_categories := ev_categories ev;
               ev_rrule := ev_rrule ev;
               ev_alarms := ev_alarms ev |}.

(** The calendar collection on the server, in the order the server lists it. *)
Abbreviation Calendar := (list CalObject).

(** The server's evaluation of the [<c:time-range start end>] filter of a
    calendar query (and of [date_search]) on one stored object. *)
Class CalDAVServer : Type := {
  time_range_match : CalObject -> Date -> Date -> bool
}.

(** How the server answers the requests of one call: which of them fail. *)
Record SinkIO : Type := mkSinkIO {
  search_raises : bool;
  date_search_raises : bool;
  save_raises : bool
}.

Definition sink_ok : SinkIO := mkSinkIO false false false.

(** ** Configuration ([config.py]) *)

(** [os.getenv(key, default)] *)
Definition getenv (env : gmap string string) (key default : string) : string :=
  match env !! key with
  | Some v => v
  | None => default
  end.

Record BirthdayConfig : Type := mkBirthdayConfig {
  cfg_event_title_template : string;
  cfg_event_description_template : string;
  cfg_reminder_days_str : string;
  cfg_reminder_template : string;
  cfg_event_category : string;
  cfg_update_existing : bool
}.

(** [get_birthday_config]. The default title is the text of [config.py],
    byte for byte: the four characters U+00F0, U+0178, U+017D, U+201A (the
    bytes of the birthday cake, once read as Windows-1252), a space and
    [{name}'s Birthday]. *)
Definition get_birthday_config `{PyStr} (env : gmap string string) : BirthdayConfig :=
  {| cfg_event_title_template := getenv env "BIRTHDAY_EVENT_TITLE" "ðŸŽ‚ {name}'s Birthday";
     cfg_event_description_template := getenv env "BIRTHDAY_EVENT_DESCRIPTION" "Birthday of {name}";
     cfg_reminder_days_str := getenv env "BIRTHDAY_REMINDER_DAYS" "1";
     cfg_reminder_template :=
       getenv env "BIRTHDAY_REMINDER_MESSAGE" "Reminder: {name}'s birthday is in {days} days!";
     cfg_event_category := getenv env "BIRTHDAY_EVENT_CATEGORY" "Birthday";
     cfg_update_existing :=
       bool_decide (lower (getenv env "BIRTHDAY_UPDATE_EXISTING" "true") = "true") |}.

Record SchedulerConfig : Type := mkSchedulerConfig {
  cfg_sync_schedule : string;
  cfg_diagnostic_schedule : string;
  cfg_sync_interval_hours : Z;
  cfg_startup_delay : Z
}.

(** [int()] of a malformed variable raises out of [get_scheduler_config]. *)
Definition get_scheduler_config `{PyStr} (env : gmap string string) : Res SchedulerConfig :=
  match int_of_str (getenv env "SYNC_INTERVAL_HOURS" "0"),
        int_of_str (getenv env "STARTUP_DELAY" "30") with
  | Some h, Some d =>
      Return {| cfg_sync_schedule := getenv env "SYNC_SCHEDULE" "0 6 * * *";
                cfg_diagnostic_schedule := getenv env "DIAGNOSTIC_SCHEDULE" "0 7 * * 0";
                cfg_sync_interval_hours := h;
                cfg_startup_delay := d |}
  | _, _ => Raise ValueError
  end.

(** ** The calendar client ([caldav_client.py]) *)

(** The attributes [_load_config] sets on the client. *)
Record Client : Type := mkClient {
  event_title_template : string;
  event_description_template : string;
  reminder_days : list Z;
  reminder_template : string;
  event_category : string;
  update_existing : bool
}.

(** What one reconciliation did. [create_birthday_event] returns [True] for
    [Created] and [Updated], [False] for [Skipped] and [Failed]. *)
Inductive Outcome : Type :=
  | Created
  | Updated
  | Skipped
  | Failed (e : exn).

#[global] Instance Outcome_eq_dec : EqDecision Outcome.
Proof. solve_decision. Defined.

Definition returned (o : Outcome) : bool :=
  match o with
  | Created | Updated => true
  | Skipped | Failed _ => false
  end.

(** A contact as [_parse_vcard] builds it. *)
Record Contact : Type := mkContact { name : string; birthday : Date }.

Section Reconciler.
Context `{PyStr} `{CalDAVServer}.

(** [[int(d.strip()) for d in s.split(',') if d.strip()]]; [None] when
    one [int] raises. *)
Fixpoint parse_reminder_days (parts : list string) : option (list Z) :=
  match parts with
  | [] => Some []
  | d :: rest =>
      match Str.strip d with
      | EmptyString => parse_reminder_days rest
      | w => n ← int_of_str w; ns ← parse_reminder_days rest; Some (n :: ns)
      end
  end.

(** [_load_config]: the reminder days fall back to [[1]] when one of them
    is not an integer. *)
Definition _load_config (config : BirthdayConfig) : Client :=
  {| event_title_template := cfg_event_title_template config;
     event_description_template := cfg_event_description_template config;
     reminder_days :=
       match parse_reminder_days (Str.split "," (cfg_reminder_days_str config)) with
       | Some ds => ds
       | None => [1]
       end;
     reminder_template := cfg_reminder_template config;
     event_category := cfg_event_category config;
     update_existing := cfg_update_existing config |}.

Variable self : Client.

(** The three fixed phrases of the handler. *)
Definition fallback_message (name : string) (days_before : Z) : string :=
  if days_before =? 0 then "Today is " +:+ name +:+ "'s birthday!"
  else if days_before =? 1 then "Tomorrow is " +:+ name +:+ "'s birthday!"
  else name +:+ "'s birthday is in " +:+ Str.of_Z days_before +:+ " days!".

Definition reminder_kwargs (name : string) (days_before : Z) : list (string * PyVal) :=
  [("name", VStr name); ("days", VInt days_before)].

(** The three replacements of the [days_before == 0] branch, in order. *)
Definition normalize_today (message : string) : string :=
  Str.replace "is in today" "is today"
    (Str.replace "in 0 day" "today"
       (Str.replace "in 0 days" "today" message)).

(** The body of the [try] of [_format_reminder_message]. *)
Definition format_reminder_try (name : string) (days_before : Z) : Res string :=
  if days_before =? 0 then
    if Str.contains "{days}" (reminder_template self) then
      message ← str_format (reminder_template self) (reminder_kwargs name days_before);
      mret (normalize_today message)
    else
      mret ("Today is " +:+ name +:+ "'s birthday!")
  else if days_before =? 1 then
    message ← str_format (reminder_template self) (reminder_kwargs name days_before);
    mret (Str.replace "1 days" "1 day" message)
  else
    str_format (reminder_template self) (reminder_kwargs name days_before).

(** [_format_reminder_message]: the [try] and its handler. An exception
    the handler does not list leaves the function. *)
Definition _format_reminder_message (name : string) (days_before : Z) : Res string :=
  match format_reminder_try name days_before with
  | Return message => Return message
  | Raise e =>
      if caught_by_format_handler e
      then Return (fallback_message name days_before)
      else Raise e
  end.

(** [f"birthday-{name.replace(' ', '-').lower()}"] *)
Definition expected_uid (name : string) : string :=
  "birthday-" +:+ lower (Str.replace " " "-" name).

(** [f"birthday-{name.replace(' ', '-').lower()}-{event_date.strftime('%Y%m%d')}"] *)
Definition event_uid (name : string) (event_date : Date) : string :=
  "birthday-" +:+ lower (Str.replace " " "-" name) +:+ "-" +:+ strftime_Ymd event_date.

(** The test on the summary: the name, and the category or the keyword. *)
Definition summary_matches (name summary : string) : bool :=
  Str.contains name summary &&
  (Str.contains (lower (event_category self)) (lower summary) ||
   Str.contains "birthday" (lower summary)).

(** The test on the UID, made only under [hasattr(cal.vevent, 'uid')]. *)
Definition uid_matches (name : string) (uid : option string) : bool :=
  match uid with
  | Some u => Str.startswith (expected_uid name) u
  | None => false
  end.

(** One iteration of the loop of [_find_existing_event]: [true] when the
    loop returns this event. Both tests sit under
    [hasattr(cal.vevent, 'summary')]; a resource that does not parse is
    skipped by the inner handler. *)
Definition event_matches (name : string) (obj : CalObject) : bool :=
  match obj with
  | Garbled => false
  | ICal ev =>
      match ev_summary ev with
      | Some summary => summary_matches name summary || uid_matches name (ev_uid ev)
      | None => false
      end
  end.

(** The resources a query returns, each with its position in the
    collection (the handle [save] writes back to). *)
Definition in_range (cal : Calendar) (start stop : Date) : list (nat * CalObject) :=
  filter (fun p => time_range_match p.2 start stop = true) (imap (fun i o => (i, o)) cal).

(** [self.calendar.search(search_xml)] *)
Definition calendar_search (io : SinkIO) (cal : Calendar) (start stop : Date)
  : Res (list (nat * CalObject)) :=
  if search_raises io then Raise DAVError else Return (in_range cal start stop).

(** [self.calendar.date_search(start, end)] *)
Definition calendar_date_search (io : SinkIO) (cal : Calendar) (start stop : Date)
  : Res (list (nat * CalObject)) :=
  if date_search_raises io then Raise DAVError else Return (in_range cal start stop).

(** The [for event in events] loop: the first event that matches. *)
Definition first_match (name : string) (events : list (nat * CalObject))
  : option (nat * CalObject) :=
  list_find (fun p => event_matches name p.2 = true) events ≫= (fun r => Some r.2).

(** [_find_existing_event]: the calendar query, and when it raises the
    same loop over [date_search]; [None] when both raise. The end of the
    range, [date + timedelta(days=1)], is computed inside each [try]. *)
Definition _find_existing_event (io : SinkIO) (cal : Calendar) (name : string) (date : Date)
  : option (nat * CalObject) :=
  match (stop ← add_one_day date;
         events ← calendar_search io cal date stop;
         mret (first_match name events)) with
  | Return found => found
  | Raise _ =>
      match (stop ← add_one_day date;
             events ← calendar_date_search io cal date stop;
             mret (first_match name events)) with
      | Return found => found
      | Raise _ => None
      end
  end.

(** One pass of the [for days_before in self.reminder_days] loop. *)
Definition make_alarm (name : string) (days_before : Z) : Res VAlarm :=
  trigger ← timedelta_days (- days_before);
  reminder_message ← _format_reminder_message name days_before;
  mret {| al_action := Some "DISPLAY";
          al_trigger := Some (TriggerDelta trigger);
          al_description := Some reminder_message |}.

Fixpoint make_alarms (name : string) (days : list Z) : Res (list VAlarm) :=
  match days with
  | [] => mret []
  | d :: rest =>
      alarm ← make_alarm name d;
      alarms ← make_alarms name rest;
      mret (alarm :: alarms)
  end.

(** [self.calendar.save_event(cal.serialize())]: a new resource, listed
    last; the collection holds it as it reads back. *)
Definition save_event (io : SinkIO) (cal : Calendar) (ev : VEvent) : Res Calendar :=
  if save_raises io then Raise DAVError else Return (cal ++ [ICal (read_back_new ev)])%list.

(** [existing_event.save()]: the resource at [i] is replaced. The UID, the
    dates and the rule are those that were read from it; what was read
    holds no carriage return and is written back as it is. *)
Definition save (io : SinkIO) (cal : Calendar) (i : nat) (ev : VEvent) : Res Calendar :=
  if save_raises io then Raise DAVError else Return (<[i := ICal (read_back ev)]> cal).

(** The days read back from the alarms of an existing event. *)
Definition alarm_days (alarm : VAlarm) : list Z :=
  match al_trigger alarm with
  | Some (TriggerDelta td) => [Z.abs (td_days td)]
  | _ => []
  end.

Definition current_reminders (event : VEvent) : list Z :=
  match ev_alarms event with
  | [] => []
  | alarms => List.concat (map alarm_days alarms)
  end.

(** [sorted(l)] and [l.sort()] on integers *)
Definition sorted (l : list Z) : list Z := merge_sort Z.le l.

(** The test "no update needed" of [_update_existing_event]. *)
Definition up_to_date (event : VEvent) (new_title new_description : string) : bool :=
  let current_title := default EmptyString (ev_summary event) in
  let current_description := default EmptyString (ev_description event) in
  if bool_decide (current_title = new_title) && bool_decide (current_description = new_description)
  then bool_decide (sorted (current_reminders event) = sorted (reminder_days self))
  else false.

(** [_update_existing_event]: [Skipped] is its [return False] of "no
    update needed", [Updated] its [return True], [Failed] the [return
    False] of its handler. *)
Definition _update_existing_event (io : SinkIO) (cal : Calendar)
    (existing_event : nat * CalObject) (contact : Contact) (year : Z)
    (new_title new_description : string) : Outcome * Calendar :=
  match (event_date ← replace_year (birthday contact) year;
         match existing_event.2 with
         | Garbled => Raise ValueError
         | ICal event =>
             if up_to_date event new_title new_description then mret (Skipped, cal)
             else
               alarms ← make_alarms (name contact) (reminder_days self);
               let event' :=
                 {| ev_uid := ev_uid event;
                    ev_dtstart := ev_dtstart event;
                    ev_dtend := ev_dtend event;
                    ev_summary := Some new_title;
                    ev_description := Some new_description;
                    ev_categories := Some [event_category self];
                    ev_rrule := ev_rrule event;
                    ev_alarms := alarms |} in
               cal' ← save io cal existing_event.1 event';
               mret (Updated, cal')
         end) with
  | Return r => r
  | Raise e => (Failed e, cal)
  end.

Definition name_kwargs (name : string) : list (string * PyVal) := [("name", VStr name)].

(** [create_birthday_event], for the year the caller passes ([main_sync]
    always passes one): the outcome and the collection after the call. *)
Definition create_birthday_event (io : SinkIO) (cal : Calendar)
    (contact : Contact) (year : Z) : Outcome * Calendar :=
  match (event_date ← replace_year (birthday contact) year;
         event_title ← str_format (event_title_template self) (name_kwargs (name contact));
         event_description ←
           str_format (event_description_template self) (name_kwargs (name contact));
         match _find_existing_event io cal (name contact) event_date with
         | Some existing_event =>
             if update_existing self
             then mret (_update_existing_event io cal existing_event contact year
                          event_title event_description)
             else mret (Skipped, cal)
         | None =>
             dtend ← add_one_day event_date;
             alarms ← make_alarms (name contact) (reminder_days self);
             let event :=
               {| ev_uid := Some (event_uid (name contact) event_date);
                  ev_dtstart := event_date;
                  ev_dtend := dtend;
                  ev_summary := Some event_title;
                  ev_description := Some event_description;
                  ev_categories := Some [event_category self];
                  ev_rrule := Some "FREQ=YEARLY";
                  ev_alarms := alarms |} in
             cal' ← save_event io cal event;
             mret (Created, cal')
         end) with
  | Return r => r
  | Raise e => (Failed e, cal)
  end.

End Reconciler.

(** ** Reading a contact ([cardav_client.py], [_parse_vcard]) *)

(** What the Unicode database of the interpreter says of a character
    outside ASCII, given by its bytes: its value when it is a decimal
    digit (the class [\d] of [re], which [int] converts), and whether
    [str.isdigit] accepts it. *)
Class UnicodeData : Type := {
  decimal_digit : string -> option Z;
  unicode_isdigit : string -> bool
}.

Module VCard.

(** What [vobject] hands to [_parse_vcard]: [FN], the given and family
    parts of [N], and the text of [BDAY]. *)
Record t : Type := mk {
  fn : option string;
  n : option (string * string);
  bday : option string
}.

Section Parse.
Context `{UnicodeData}.

(** [\d] on one character: its value *)
Definition decimal (ch : string) : option Z :=
  match ch with
  | String c _ =>
      if (nat_of_ascii c <? 128)%nat
      then (if Str.is_digit c then Some (Str.digit_val c) else None)
      else decimal_digit ch
  | EmptyString => None
  end.

Definition isdigit_char (ch : string) : bool :=
  match ch with
  | String c _ => if (nat_of_ascii c <? 128)%nat then Str.is_digit c else unicode_isdigit ch
  | EmptyString => false
  end.

(** [s.isdigit()] *)
Definition isdigit (s : string) : bool :=
  match Str.chars s with
  | [] => false
  | l => forallb isdigit_char l
  end.

(** [%Y]: [\d\d\d\d], converted by [int] *)
Definition year_token (s : string) : option Z :=
  match Str.chars s with
  | [a; b; c; d] =>
      match decimal a, decimal b, decimal c, decimal d with
      | Some a, Some b, Some c, Some d => Some (1000 * a + 100 * b + 10 * c + d)
      | _, _, _, _ => None
      end
  | _ => None
  end.

(** [%m]: [1[0-2]|0[1-9]|[1-9]] *)
Definition month_token (s : string) : option Z :=
  let v := Str.digits_val 0 s in
  if Str.isdigit s && (String.length s <=? 2)%nat && (1 <=? v) && (v <=? 12)
  then Some v else None.

(** [%d]: [3[01]|[12]\d|0[1-9]|[1-9]| [1-9]]; the digit after [1] or [2]
    is any decimal digit. *)
Definition day_token (s : string) : option Z :=
  let digits := match s with String " " r => if (String.length r =? 1)%nat then r else EmptyString | _ => s end in
  let v := Str.digits_val 0 digits in
  if Str.isdigit digits && (String.length digits <=? 2)%nat && (1 <=? v) && (v <=? 31)
  then Some v
  else match s with
       | String c ch =>
           if (Ascii.eqb c "1" || Ascii.eqb c "2") && (Str.len ch =? 1)%nat
           then v ← decimal ch; Some (10 * Str.digit_val c + v)
           else None
       | EmptyString => None
       end.

Definition date_of_tokens (y m d : option Z) : Res Date :=
  match y, m, d with
  | Some y, Some m, Some d => make_date y m d
  | _, _, _ => Raise ValueError
  end.

(** [datetime.strptime(s, '%Y-%m-%d').date()] *)
Definition strptime_Y_m_d (s : string) : Res Date :=
  match Str.split "-" s with
  | [y; m; d] => date_of_tokens (year_token y) (month_token m) (day_token d)
  | _ => Raise ValueError
  end.

(** [datetime.strptime(s, '%m/%d/%Y').date()] *)
Definition strptime_m_d_Y (s : string) : Res Date :=
  match Str.split "/" s with
  | [m; d; y] => date_of_tokens (year_token y) (month_token m) (day_token d)
  | _ => Raise ValueError
  end.

(** [datetime.strptime(s, '%d/%m/%Y').date()] *)
Definition strptime_d_m_Y (s : string) : Res Date :=
  match Str.split "/" s with
  | [d; m; y] => date_of_tokens (year_token y) (month_token m) (day_token d)
  | _ => Raise ValueError
  end.

(** [datetime.strptime(s, '%Y%m%d').date()] on eight characters: the
    year takes four of them, the month and the day two each. *)
Definition strptime_Ymd (s : string) : Res Date :=
  match Str.chars s with
  | [y1; y2; y3; y4; m1; m2; d1; d2] =>
      date_of_tokens (year_token (y1 +:+ y2 +:+ y3 +:+ y4)) (month_token (m1 +:+ m2))
        (day_token (d1 +:+ d2))
  | _ => Raise ValueError
  end.

(** The [isinstance(bday, str)] branch: [None] is [return None], taken on
    an unknown format and on [ValueError]. *)
Definition parse_bday (bday : string) : option Date :=
  let bday_clean := default EmptyString (head (Str.split "T" (Str.strip bday))) in
  let parsed :=
    if (Str.len bday_clean =? 8)%nat && isdigit bday_clean then
      Some (strptime_Ymd bday_clean)
    else if (Str.len bday_clean =? 10)%nat && (Str.count_char "-" bday_clean =? 2)%nat then
      Some (strptime_Y_m_d bday_clean)
    else if (Str.len bday_clean =? 10)%nat && (Str.count_char "/" bday_clean =? 2)%nat then
      Some (match strptime_m_d_Y bday_clean with
            | Raise ValueError => strptime_d_m_Y bday_clean
            | r => r
            end)
    else if Str.startswith "--" bday_clean then
      let month_day := String.substring 2 (String.length bday_clean - 2) bday_clean in
      Some (strptime_Y_m_d ("2000-" +:+ month_day))
    else None in
  match parsed with
  | Some (Return d) => Some d
  | _ => None
  end.

(** The display name: [FN] stripped, else the parts of [N], else
    ['Unknown']. *)
Definition contact_name (v : t) : string :=
  match fn v with
  | Some f => Str.strip f
  | None =>
      match n v with
      | Some (given, family) =>
          match given, family with
          | EmptyString, EmptyString => "Unknown"
          | EmptyString, _ => family
          | _, EmptyString => given
          | _, _ => given +:+ " " +:+ family
          end
      | None => "Unknown"
      end
  end.

(** [_parse_vcard] after [vobject.readOne]: only contacts with a birthday. *)
Definition _parse_vcard (v : t) : option Contact :=
  match bday v with
  | Some b =>
      match parse_bday b with
      | Some d => Some {| name := contact_name v; birthday := d |}
      | None => None
      end
  | None => None
  end.

End Parse.

End VCard.

(** ** A sync pass ([main.py], [main_sync]) *)

Section Pass.
Context `{PyStr} `{CalDAVServer}.

(** What the pass meets outside the process: the two constructors (the
    calendar client loads its configuration), the contacts
    [get_contacts] returns, and how the server answers the [k]-th
    reconciliation. *)
Record World : Type := mkWorld {
  cardav_client : Res unit;
  caldav_client : Res Client;
  get_contacts : Res (list Contact);
  answers : nat -> SinkIO
}.

(** The state of the [for contact in contacts] loop. *)
Record PassState : Type := mkPassState {
  created_count : Z;
  calls : nat;
  calendar : Calendar;
  outcomes : list Outcome
}.

Definition reconcile_step (self : Client) (w : World) (year : Z)
    (st : PassState) (contact : Contact) : PassState :=
  let r := create_birthday_event self (answers w (calls st)) (calendar st) contact year in
  {| created_count := if returned r.1 then created_count st + 1 else created_count st;
     calls := S (calls st);
     calendar := r.2;
     outcomes := (outcomes st ++ [r.1])%list |}.

(** The body of the loop: this year, then the next one. *)
Definition process_contact (self : Client) (w : World) (current_year : Z)
    (st : PassState) (contact : Contact) : PassState :=
  reconcile_step self w (current_year + 1)
    (reconcile_step self w current_year st contact) contact.

(** [main_sync]: the value it returns and the state of the loop when it
    ends. *)
Definition main_sync (w : World) (current_year : Z) (cal : Calendar)
  : bool * PassState :=
  let st0 := mkPassState 0 0 cal [] in
  match (_ ← cardav_client w;
         self ← caldav_client w;
         contacts ← get_contacts w;
         match contacts with
         | [] => mret (false, st0)
         | _ => mret (true, foldl (process_contact self w current_year) st0 contacts)
         end) with
  | Return r => r
  | Raise _ => (false, st0)
  end.

End Pass.

(** ** The scheduler ([scheduler.py]) *)

(** [datetime.now()]: microseconds on the local clock. *)
Definition Time : Type := Z.

Definition minutes (m : Z) : Z := m * 60000000.
Definition hours (h : Z) : Z := h * 3600000000.

(** [croniter(schedule, base).get_next(datetime)] *)
Class Croniter : Type := {
  croniter_get_next : string -> Time -> Res Time
}.

Record SchedulerService : Type := mkSchedulerService {
  sync_schedule : string;
  diagnostic_schedule : string;
  sync_interval_hours : Z;
  startup_delay : Z;
  last_sync : option Time;
  running : bool
}.

Definition set_last_sync (self : SchedulerService) (t : option Time) : SchedulerService :=
  {| sync_schedule := sync_schedule self;
     diagnostic_schedule := diagnostic_schedule self;
     sync_interval_hours := sync_interval_hours self;
     startup_delay := startup_delay self;
     last_sync := t;
     running := running self |}.

Section Scheduler.
Context `{Croniter}.

(** [_next_sync_time]; [now] is the first reading of the clock, [now']
    the one of the handler. *)
Definition _next_sync_time (schedule : string) (now now' : Time) : Time :=
  match croniter_get_next schedule now with
  | Return t => t
  | Raise _ => now' + hours 1
  end.

(** [timedelta(hours=h)]: [OverflowError] beyond 999999999 days *)
Definition timedelta_hours (h : Z) : Res Z :=
  if (-999999999 <=? h / 24) && (h / 24 <=? 999999999)
  then Return (hours h) else Raise OverflowError.

Definition _should_sync_interval (self : SchedulerService) (now : Time) : Res bool :=
  if sync_interval_hours self <=? 0 then mret false
  else match last_sync self with
       | None => mret true
       | Some t =>
           interval ← timedelta_hours (sync_interval_hours self);
           mret (interval <=? now - t)
       end.

(** [_should_sync_cron]; [now] is read for the base, [now'] for the
    comparison. *)
Definition _should_sync_cron (schedule : string) (now now' : Time) : bool :=
  match croniter_get_next schedule (now - minutes 1) with
  | Return next_time => next_time <=? now'
  | Raise _ => false
  end.

(** [_perform_sync]: [sync_func] and [diagnostic_func] stand for what the
    call of the function does, return a truth value or raise; [now] is
    the clock when [last_sync] is written. *)
Definition _perform_sync (self : SchedulerService) (sync_func diagnostic_func : Res bool)
    (diagnostic : bool) (now : Time) : bool * SchedulerService :=
  if diagnostic then
    match diagnostic_func with
    | Return success => (success, self)
    | Raise _ => (false, self)
    end
  else
    match sync_func with
    | Return success =>
        (success, if success then set_last_sync self (Some now) else self)
    | Raise _ => (false, self)
    end.

(** [run_once]: the exit code *)
Definition run_once (self : SchedulerService) (sync_func diagnostic_func : Res bool)
    (now : Time) : Z * SchedulerService :=
  let r := _perform_sync self sync_func diagnostic_func false now in
  (if r.1 then 0 else 1, r.2).

(** One turn of the loop of [run_daemon] up to its sleep: the due checks,
    then at most one operation, the diagnostic first. An exception of the
    checks is caught by the handler of the loop. The clock is read once
    for the turn. *)
Definition tick (self : SchedulerService) (sync_func diagnostic_func : Res bool)
    (now : Time) : SchedulerService :=
  match (if 0 <? sync_interval_hours self then _should_sync_interval self now
         else mret (_should_sync_cron (sync_schedule self) now now)) with
  | Return sync_needed =>
      let diagnostic_needed := _should_sync_cron (diagnostic_schedule self) now now in
      if diagnostic_needed then (_perform_sync self sync_func diagnostic_func true now).2
      else if sync_needed then (_perform_sync self sync_func diagnostic_func false now).2
      else self
  | Raise _ => self
  end.

End Scheduler.

(** ** Reference instances

    Executable models of the library functions on the fragment the
    scenarios below use: ASCII text, templates whose fields are plain
    names, a server that tests the component's own dates, cron expressions
    for a time of the day on every day or on one day of the week. Outside
    its fragment an instance raises [Unmodelled]. *)

Module Ref.

Definition lower_char (c : ascii) : ascii :=
  let n := nat_of_ascii c in
  if (65 <=? n)%nat && (n <=? 90)%nat then ascii_of_nat (n + 32) else c.

(** [str.lower] on ASCII letters *)
Fixpoint ascii_lower (s : string) : string :=
  match s with
  | EmptyString => EmptyString
  | String c s' => String (lower_char c) (ascii_lower s')
  end.

Definition is_conversion_or_spec (c : ascii) : bool :=
  Ascii.eqb c "!" || Ascii.eqb c ":" || Ascii.eqb c "." || Ascii.eqb c "[".

(** The value of the field [field_name]: a positional field (empty or a
    number) indexes the empty tuple of positional arguments; a number
    beyond [sys.maxsize] is refused as having too many digits. *)
Definition get_field (kwargs : list (string * PyVal)) (field_name : string) : Res string :=
  if Str.all_digits field_name then
    if 9223372036854775807 <? Str.digits_val 0 field_name then Raise ValueError
    else Raise IndexError
  else match list_find (fun kv => kv.1 = field_name) kwargs with
       | Some (_, (_, VStr s)) => Return s
       | Some (_, (_, VInt n)) => Return (Str.of_Z n)
       | None => Raise KeyError
       end.

(** [template.format] with keyword arguments, left to right. [field] is [None] in
    literal text and the name read so far inside a replacement field. *)
Fixpoint format_from (kwargs : list (string * PyVal)) (field : option string)
    (s : string) : Res string :=
  match s with
  | EmptyString =>
      match field with
      | None => Return EmptyString
      | Some _ => Raise ValueError
      end
  | String c r =>
      match field with
      | None =>
          if Ascii.eqb c "{" then
            match r with
            | String c' r' =>
                if Ascii.eqb c' "{" then String "{" <$> format_from kwargs None r'
                else format_from kwargs (Some EmptyString) r
            | EmptyString => Raise ValueError
            end
          else if Ascii.eqb c "}" then
            match r with
            | String c' r' =>
                if Ascii.eqb c' "}" then String "}" <$> format_from kwargs None r'
                else Raise ValueError
            | EmptyString => Raise ValueError
            end
          else String c <$> format_from kwargs None r
      | Some field_name =>
          if Ascii.eqb c "}" then
            v ← get_field kwargs field_name;
            rest ← format_from kwargs None r;
            mret (v +:+ rest)
          else if Ascii.eqb c "{" then Raise ValueError
          else if is_conversion_or_spec c then Raise Unmodelled
          else format_from kwargs (Some (field_name +:+ String c EmptyString)) r
      end
  end.

Definition format_plain (template : string) (kwargs : list (string * PyVal)) : Res string :=
  format_from kwargs None template.

(** The digits of an [int] literal: single underscores between digits. *)
Fixpoint int_digits (acc : Z) (after_digit : bool) (s : string) : option Z :=
  match s with
  | EmptyString => if after_digit then Some acc else None
  | String c r =>
      if Str.is_digit c then int_digits (10 * acc + Str.digit_val c) true r
      else if Ascii.eqb c "_" && after_digit then
        match r with
        | String c' _ => if Str.is_digit c' then int_digits acc false r else None
        | EmptyString => None
        end
      else None
  end.

(** [int(s)] in base ten *)
Definition int_decimal (s : string) : option Z :=
  match Str.strip s with
  | String "-" r => Z.opp <$> int_digits 0 false r
  | String "+" r => int_digits 0 false r
  | r => int_digits 0 false r
  end.

#[export] Instance py_str : PyStr :=
  {| lower := ascii_lower; str_format := format_plain; int_of_str := int_decimal |}.

(** No digit outside ASCII: the texts of the scenarios are ASCII. *)
#[export] Instance unicode : UnicodeData :=
  {| decimal_digit := fun _ => None; unicode_isdigit := fun _ => false |}.

Definition date_ltb (a b : Date) : bool :=
  (year a <? year b) ||
  ((year a =? year b) &&
   ((month a <? month b) || ((month a =? month b) && (day a <? day b)))).

(** The overlap test on the component's own [DTSTART] and [DTEND];
    recurrences are not expanded. A resource that does not parse is
    returned by every query. *)
#[export] Instance server : CalDAVServer :=
  {| time_range_match := fun obj start stop =>
       match obj with
       | Garbled => true
       | ICal ev => date_ltb (ev_dtstart ev) stop && date_ltb start (ev_dtend ev)
       end |}.

(** A field that is a plain number up to [bound]. *)
Definition cron_number (s : string) (bound : Z) : option Z :=
  if Str.isdigit s && (Str.digits_val 0 s <=? bound) then Some (Str.digits_val 0 s) else None.

(** The day-of-week field: [*], or a number, 0 and 7 both for Sunday.
    [None] is any day. *)
Definition cron_weekday (s : string) : option (option Z) :=
  if bool_decide (s = "*") then Some None
  else match cron_number s 7 with
       | Some d => Some (Some (d mod 7))
       | None => None
       end.

Definition day_us : Z := hours 24.

(** The day of the week of a day of the epoch, Sunday being 0: the first
    of January 1970 was a Thursday. *)
Definition weekday (epoch_day : Z) : Z := (epoch_day + 4) mod 7.

(** The first time after [base], among the [fuel] days from [epoch_day]
    on, at which the clock shows [at_] past midnight on an allowed day. *)
Fixpoint next_fire (fuel : nat) (dow : option Z) (at_ : Z) (base : Time) (epoch_day : Z)
  : Res Time :=
  match fuel with
  | O => Raise Unmodelled
  | S f =>
      let t := epoch_day * day_us + at_ in
      let allowed := match dow with
                     | None => true
                     | Some d => weekday epoch_day =? d
                     end in
      if (base <? t) && allowed then Return t
      else next_fire f dow at_ base (epoch_day + 1)
  end.

(** [croniter] on the expressions ["M H * * D"] with numbers for the minute
    and the hour and a number or [*] for the day of the week: the next time
    after [base] at which the clock shows [H:M:00] on such a day. An
    expression that has not five, six or seven fields is rejected, as
    [croniter] does. *)
Definition daily_get_next (schedule : string) (base : Time) : Res Time :=
  match filter (fun w => w <> EmptyString) (Str.split " " (Str.strip schedule)) with
  | [m; h; "*"; "*"; d] =>
      match cron_number m 59, cron_number h 23, cron_weekday d with
      | Some m, Some h, Some dow =>
          next_fire 9 dow (hours h + minutes m) base (base / day_us)
      | _, _, _ => Raise Unmodelled
      end
  | [_; _; _; _; _] | [_; _; _; _; _; _] | [_; _; _; _; _; _; _] => Raise Unmodelled
  | _ => Raise ValueError
  end.

#[export] Instance cron : Croniter := {| croniter_get_next := daily_get_next |}.

End Ref.

(** * Vocabulary of the properties *)

Section Vocabulary.
Context `{PyStr} `{CalDAVServer}.
Variable self : Client.

(** The event [create_birthday_event] builds. *)
Definition new_event (name : string) (event_date dtend : Date)
    (title description : string) (alarms : list VAlarm) : VEvent :=
  {| ev_uid := Some (event_uid name event_date);
     ev_dtstart := event_date;
     ev_dtend := dtend;
     ev_summary := Some title;
     ev_description := Some description;
     ev_categories := Some [event_category self];
     ev_rrule := Some "FREQ=YEARLY";
     ev_alarms := alarms |}.

(** The event [_update_existing_event] writes back. *)
Definition updated_event (event : VEvent) (title description : string)
    (alarms : list VAlarm) : VEvent :=
  {| ev_uid := ev_uid event;
     ev_dtstart := ev_dtstart event;
     ev_dtend := ev_dtend event;
     ev_summary := Some title;
     ev_description := Some description;
     ev_categories := Some [event_category self];
     ev_rrule := ev_rrule event;
     ev_alarms := alarms |}.

(** An object the query returns and the loop accepts. *)
Definition hit (name : string) (start stop : Date) (obj : CalObject) : bool :=
  time_range_match obj start stop && event_matches self name obj.

(** The query and the loop in one pass over the collection, from
    position [i] on. *)
Fixpoint scan (name : string) (start stop : Date) (i : nat) (cal : Calendar)
  : option (nat * CalObject) :=
  match cal with
  | [] => None
  | obj :: rest =>
      if hit name start stop obj then Some (i, obj)
      else scan name start stop (S i) rest
  end.

(** The server returns an all-day event for the query of its own day. *)
Definition covers_own_day : Prop :=
  forall ev stop,
    add_one_day (ev_dtstart ev) = Return stop ->
    ev_dtend ev = stop ->
    time_range_match (ICal ev) (ev_dtstart ev) stop = true.

(** The server evaluates the time range on the dates and the recurrence
    rule of an event, not on its texts and alarms. *)
Definition judges_by_dates : Prop :=
  forall ev ev' start stop,
    ev_dtstart ev = ev_dtstart ev' ->
    ev_dtend ev = ev_dtend ev' ->
    ev_rrule ev = ev_rrule ev' ->
    time_range_match (ICal ev) start stop = time_range_match (ICal ev') start stop.

(** The server answers the lookup of a call. *)
Definition answers_lookup (io : SinkIO) : Prop :=
  search_raises io = false \/ date_search_raises io = false.

(** An event the lookup found is still a match once it carries the new
    title: the title passes the test on the summary, or the UID of the
    event has the prefix. *)
Definition still_recognised (name title : string) (event : VEvent) : Prop :=
  summary_matches self name title = true \/ uid_matches name (ev_uid event) = true.

End Vocabulary.

(** The text comes back from the store as it was written. *)
Definition reads_back (s : string) : Prop := read_text s = s.

(** The decimal digit of the units of [n]. *)
Definition units_digit (n : Z) : ascii := ascii_of_nat (48 + Z.to_nat (n mod 10)).

(** A date as the specification writes it, YYYYMMDD: the four digits of
    the year, the two of the month, the two of the day. *)
Definition YYYYMMDD (d : Date) : string :=
  String (units_digit (year d / 1000)) (String (units_digit (year d / 100))
  (String (units_digit (year d / 10)) (String (units_digit (year d))
  (String (units_digit (month d / 10)) (String (units_digit (month d))
  (String (units_digit (day d / 10)) (String (units_digit (day d)) EmptyString))))))).

Definition count_returned (os : list Outcome) : Z :=
  Z.of_nat (length (filter (fun o => returned o = true) os)).

(** What the loop keeps true: every reconciliation leaves one outcome,
    and [created_count] counts those that returned [True]. *)
Definition pass_invariant (st0 st : PassState) (done : nat) : Prop :=
  length (outcomes st) = (length (outcomes st0) + 2 * done)%nat /\
  created_count st - count_returned (outcomes st)
    = created_count st0 - count_returned (outcomes st0).

Section PassVocabulary.
Context `{PyStr} `{CalDAVServer}.

(** The reconciliations a pass owes to its contacts, as calls of
    [create_birthday_event]: each contact for this year and then for the
    next one, the [k]-th call on the calendar the calls before it have
    left and with the [k]-th answers of the server. Each call is listed
    with the outcome and the calendar it gives. *)
Fixpoint reconciliations (self : Client) (w : World) (current_year : Z) (k : nat)
    (cal : Calendar) (contacts : list Contact) : list (Outcome * Calendar) :=
  match contacts with
  | [] => []
  | contact :: rest =>
      let this_year := create_birthday_event self (answers w k) cal contact current_year in
      let next_year :=
        create_birthday_event self (answers w (S k)) this_year.2 contact (current_year + 1) in
      this_year :: next_year :: reconciliations self w current_year (S (S k)) next_year.2 rest
  end.

(** The calendar after a list of calls. *)
Definition calendar_after (cal : Calendar) (done : list (Outcome * Calendar)) : Calendar :=
  default cal (last done.*2).

End PassVocabulary.

Section SchedulerVocabulary.
Context `{Croniter}.

(** An expression [croniter] rejects, whatever the base time. *)
Definition invalid_cron (schedule : string) : Prop :=
  forall base, exists e, croniter_get_next schedule base = Raise e.

End SchedulerVocabulary.

(** A sync function that returned a true value. *)
Definition succeeded (r : Res bool) : bool :=
  match r with
  | Return true => true
  | _ => false
  end.

(** No occurrence of [pat] begins before an inserted [new] and ends in it
    or after it. *)
Definition no_straddle (new pat : string) : Prop :=
  forall c a b, Str.startswith pat (String c a +:+ new +:+ b) = true ->
                Str.startswith pat (String c a) = true.

(** An occurrence of [pat] that begins inside an inserted [new] is
    announced by [completes], a test on what follows the insertion. *)
Definition starts_inside (new pat : string) (completes : string -> bool) : Prop :=
  forall b, Str.contains pat (new +:+ b) = true ->
            Str.contains pat b = true \/ completes b = true.

(** ** Scenario data *)

Module Scenario.
Import Ref.

(** The configuration with no variable set. *)
Definition default_client : Client := _load_config (get_birthday_config ∅).

Definition ada : Contact := mkContact "Ada Lovelace" (mkDate 1815 12 10).

(** What the first reconciliation of Ada does on an empty calendar. *)
Definition ada_created : Outcome * Calendar :=
  Eval vm_compute in create_birthday_event default_client sink_ok [] ada 2025.

Definition bob_card : VCard.t :=
  {| VCard.fn := Some "Bob"; VCard.n := None; VCard.bday := Some "--06-15" |}.

Definition bob : Contact := mkContact "Bob" (mkDate 2000 6 15).

(** A pass in which both constructors succeed and the address book has
    no contact with a birthday. *)
Definition empty_world : World :=
  {| cardav_client := Return tt;
     caldav_client := Return default_client;
     get_contacts := Return [];
     answers := fun _ => sink_ok |}.

(** Bob, and Eve whose birthday of 29 February has no date in 2025 and
    in 2026. *)
Definition eve : Contact := mkContact "Eve" (mkDate 2000 2 29).

Definition two_contacts_world : World :=
  {| cardav_client := Return tt;
     caldav_client := Return default_client;
     get_contacts := Return [eve; bob];
     answers := fun _ => sink_ok |}.

(** The event the default configuration builds for Bob in 2025. *)
Definition bob_event : VEvent :=
  {| ev_uid := Some "birthday-bob-20250615";
     ev_dtstart := mkDate 2025 6 15;
     ev_dtend := mkDate 2025 6 16;
     ev_summary := Some "ðŸŽ‚ Bob's Birthday";
     ev_description := Some "Birthday of Bob";
     ev_categories := Some ["Birthday"];
     ev_rrule := Some "FREQ=YEARLY";
     ev_alarms :=
       [ {| al_action := Some "DISPLAY";
            al_trigger := Some (TriggerDelta (mkTimedelta (-1) 0 0));
            al_description := Some "Reminder: Bob's birthday is in 1 day!" |} ] |}.

End Scenario.

Module LookupScenario.
Import Ref.

(** An event written under an older title template: the summary names Bob
    without the category or the keyword, the UID has the prefix. *)
Definition uid_only_match : VEvent :=
  {| ev_uid := Some "birthday-bob-20250615";
     ev_dtstart := mkDate 2025 6 15;
     ev_dtend := mkDate 2025 6 16;
     ev_summary := Some "Anniversaire de Bob";
     ev_description := None;
     ev_categories := None;
     ev_rrule := Some "FREQ=YEARLY";
     ev_alarms := [] |}.

(** The same event without its summary. *)
Definition uid_without_summary : VEvent :=
  {| ev_uid := Some "birthday-bob-20250615";
     ev_dtstart := mkDate 2025 6 15;
     ev_dtend := mkDate 2025 6 16;
     ev_summary := None;
     ev_description := None;
     ev_categories := None;
     ev_rrule := Some "FREQ=YEARLY";
     ev_alarms := [] |}.

End LookupScenario.

Module HandlerScenario.
Import Ref.

(** The default configuration with a positional field in the reminder
    template: BIRTHDAY_REMINDER_MESSAGE set to the text below. *)
Definition positional_client : Client :=
  _load_config (get_birthday_config
    {[ "BIRTHDAY_REMINDER_MESSAGE" := "{} days until {name}'s birthday" ]}).

End HandlerScenario.

Module ReminderScenario.
Import Ref.

(** Reminders configured as "1,7"; the stored event lists the alarm of
    seven days first. *)
Definition week_and_day_client : Client :=
  _load_config (get_birthday_config {[ "BIRTHDAY_REMINDER_DAYS" := "1,7" ]}).

(** Reminders configured as "7,1,7": the day 7 is listed twice. *)
Definition repeated_day_client : Client :=
  _load_config (get_birthday_config {[ "BIRTHDAY_REMINDER_DAYS" := "7,1,7" ]}).

Definition stored_event : VEvent :=
  {| ev_uid := Some "birthday-bob-20250615";
     ev_dtstart := mkDate 2025 6 15;
     ev_dtend := mkDate 2025 6 16;
     ev_summary := Some "ðŸŽ‚ Bob's Birthday";
     ev_description := Some "Birthday of Bob";
     ev_categories := Some ["Birthday"];
     ev_rrule := Some "FREQ=YEARLY";
     ev_alarms :=
       [ mkVAlarm (Some "DISPLAY") (Some (TriggerDelta (mkTimedelta (-7) 0 0))) (Some "a week");
         mkVAlarm (Some "DISPLAY") (Some (TriggerDelta (mkTimedelta (-1) 0 0))) (Some "a day") ] |}.

End ReminderScenario.

Module IdempotenceScenario.
Import Ref.

(** The title template reduced to the name: BIRTHDAY_EVENT_TITLE set to
    the text below. *)
Definition name_only_client : Client :=
  _load_config (get_birthday_config {[ "BIRTHDAY_EVENT_TITLE" := "{name}" ]}).

(** An event someone entered by hand on Bob's birthday. *)
Definition party : VEvent :=
  {| ev_uid := Some "party-2025";
     ev_dtstart := mkDate 2025 6 15;
     ev_dtend := mkDate 2025 6 16;
     ev_summary := Some "Bob's birthday party";
     ev_description := None;
     ev_categories := None;
     ev_rrule := None;
     ev_alarms := [] |}.

(** The calendar after the default configuration has reconciled Bob
    against the party event: the event carries the default title. *)
Definition party_updated : Outcome * Calendar :=
  Eval vm_compute in
    create_birthday_event Scenario.default_client sink_ok [ICal party] Scenario.bob 2025.

(** A title template that ends with a carriage return. *)
Definition carriage_return_client : Client :=
  _load_config
    (get_birthday_config
       {[ "BIRTHDAY_EVENT_TITLE" := "{name}'s birthday" +:+ String (ascii_of_nat 13) EmptyString ]}).

(** A reminder one day after the birthday: BIRTHDAY_REMINDER_DAYS set to
    "-1". *)
Definition day_after_client : Client :=
  _load_config (get_birthday_config {[ "BIRTHDAY_REMINDER_DAYS" := "-1" ]}).

End IdempotenceScenario.

Module MessageScenario.
Import Ref.

(** BIRTHDAY_REMINDER_MESSAGE set to a countdown. *)
Definition countdown_client : Client :=
  _load_config (get_birthday_config
    {[ "BIRTHDAY_REMINDER_MESSAGE" := "{days} days until {name}'s birthday!" ]}).

(** BIRTHDAY_REMINDER_MESSAGE set to a text with a doubled letter. *)
Definition doubled_client : Client :=
  _load_config (get_birthday_config
    {[ "BIRTHDAY_REMINDER_MESSAGE" := "{name}'s birthday: {days} dayss to go" ]}).

End MessageScenario.

(** * Further parts of the program *)

(** ** The loop of the daemon ([scheduler.py], [run_daemon]) *)

(** A turn of the loop as it meets the world: the readings of the clock
    in the order the turn takes them (the due check of the sync reads it
    once in interval mode and twice in cron mode, the due check of the
    diagnostic twice, [_perform_sync] once for [last_sync]), and what each
    of the two operations does if it is called. *)
Record Turn : Type := mkTurn {
  sync_read : Time;
  sync_read' : Time;
  diagnostic_read : Time;
  diagnostic_read' : Time;
  done_read : Time;
  turn_sync : Res bool;
  turn_diagnostic : Res bool
}.

Inductive Operation : Type :=
  | Diagnostic
  | Sync.

#[global] Instance Operation_eq_dec : EqDecision Operation.
Proof. solve_decision. Defined.

Section Daemon.
Context `{Croniter}.

(** The decision of a turn: the operation that is called, if any. An
    exception of a due check is caught by the handler of the loop. *)
Definition turn_operation (self : SchedulerService) (t : Turn) : option Operation :=
  match (if 0 <? sync_interval_hours self then _should_sync_interval self (sync_read t)
         else mret (_should_sync_cron (sync_schedule self) (sync_read t) (sync_read' t))) with
  | Return sync_needed =>
      if _should_sync_cron (diagnostic_schedule self) (diagnostic_read t) (diagnostic_read' t)
      then Some Diagnostic
      else if sync_needed then Some Sync
      else None
  | Raise _ => None
  end.

(** The body of the loop up to its sleep; [tick] is the turn in which all
    readings of the clock are the same. *)
Definition turn (self : SchedulerService) (t : Turn) : SchedulerService :=
  match turn_operation self t with
  | Some Diagnostic =>
      (_perform_sync self (turn_sync t) (turn_diagnostic t) true (done_read t)).2
  | Some Sync =>
      (_perform_sync self (turn_sync t) (turn_diagnostic t) false (done_read t)).2
  | None => self
  end.

(** The states of the service along the loop: before the first turn and
    after each turn. *)
Fixpoint loop_states (self : SchedulerService) (turns : list Turn) : list SchedulerService :=
  self :: match turns with
          | [] => []
          | t :: rest => loop_states (turn self t) rest
          end.

(** [run_daemon]: [stopped] tells whether a signal arrived before the end
    of the startup delay; [initial] is what the sync that is run first
    does and [initial_done] the clock when it ends (the call is not a
    diagnostic, [_perform_sync] does not look at its third argument);
    [turns] are the turns of the loop before a signal ends it. The result
    lists the states of the service after the initial sync and after each
    turn. A wait that raises ends the run where it stands (see
    [DaemonEnd]): the states up to there are those listed. *)
Definition run_daemon (self : SchedulerService) (stopped : bool) (initial : Res bool)
    (initial_done : Time) (turns : list Turn) : list SchedulerService :=
  if stopped then []
  else loop_states (_perform_sync self initial initial false initial_done).2 turns.

End Daemon.

(** ** The environment and the command line ([config.py], [main.py]) *)

Definition required_vars : list string :=
  ["CARDAV_SERVER_URL"; "CARDAV_USERNAME"; "CARDAV_PASSWORD";
   "CALDAV_SERVER_URL"; "CALDAV_USERNAME"; "CALDAV_PASSWORD"].

(** [not os.getenv(var)]: the variable is not set, or set to the empty
    text. *)
Definition unset (env : gmap string string) (var : string) : bool :=
  match env !! var with
  | Some (String _ _) => false
  | Some EmptyString | None => true
  end.

Definition missing_vars (env : gmap string string) : list string :=
  List.filter (unset env) required_vars.

(** [validate_environment] *)
Definition validate_environment (env : gmap string string) : bool :=
  match missing_vars env with
  | [] => true
  | _ :: _ => false
  end.

(** The flags of the command line. *)
Record Args : Type := mkArgs {
  args_diagnose : bool;
  args_health_check : bool;
  args_once : bool;
  args_no_banner : bool
}.

(** What [main] starts after the validation of the environment. *)
Inductive Command : Type :=
  | RunHealthCheck
  | RunDiagnose
  | RunSync
  | RunDaemon.

(** What [main] gets from a call of [diagnose_cardav()] or of
    [main_sync()]: both catch [Exception] and return a truth value; a
    [KeyboardInterrupt], which is not an [Exception], passes their
    handlers. *)
Inductive Call : Type :=
  | Returned (success : bool)
  | Interrupted.

(** How [scheduler.run_daemon()] ends: it returns when a signal has
    cleared [self.running]; an exception raised outside the [try] blocks
    leaves it (the startup wait and the wait of the handler of the loop
    are outside them, and [time.sleep] raises [ValueError] for a negative
    length); a [KeyboardInterrupt] leaves it too; or the loop goes on. *)
Inductive DaemonEnd : Type :=
  | DaemonReturned
  | DaemonInterrupted
  | DaemonRaised (e : exn)
  | DaemonRunning.

(** How the process ends: through [sys.exit], on an exception nothing
    catches, on an interrupt nothing catches, or not at all. *)
Inductive Ending : Type :=
  | SysExit (status : Z)
  | Uncaught (e : exn)
  | UncaughtInterrupt
  | Running.

(** The exit status of the process: that of [sys.exit]; 1 after the
    traceback of an uncaught exception. An interrupt nothing catches ends
    the interpreter on the signal, and a process that runs has no status. *)
Definition process_status (e : Ending) : option Z :=
  match e with
  | SysExit status => Some status
  | Uncaught _ => Some 1
  | UncaughtInterrupt | Running => None
  end.

(** The command that was started, if any, and the end of the process. *)
Record Run : Type := mkRun {
  started : option Command;
  ending : Ending
}.

(** [0 if success else 1] *)
Definition exit_code (success : bool) : Z := if success then 0 else 1.

(** [success = f(); sys.exit(0 if success else 1)] *)
Definition exit_of (call : Call) : Ending :=
  match call with
  | Returned success => SysExit (exit_code success)
  | Interrupted => UncaughtInterrupt
  end.

Section CommandLine.
Context `{PyStr}.

(** [health_check]; [diagnose] is the call of [diagnose_cardav()]. The
    three imports are those of the modules [main.py] has loaded. *)
Definition health_check (env : gmap string string) (diagnose : Call) : Call :=
  if negb (validate_environment env) then Returned false
  else if bool_decide (lower (getenv env "HEALTH_CHECK_CONNECTIVITY" "false") = "true")
       then diagnose
       else Returned true.

(** [main] from the validation of the environment on (line 180; the
    parsing of the command line, the set-up of the logging and the banner
    come before). [diagnose] and [sync] are the calls of
    [diagnose_cardav()] and [main_sync()], [daemon] is the end of
    [scheduler.run_daemon()]. [SchedulerService(...)] reads the
    configuration of the scheduler outside any [try]. *)
Definition main (args : Args) (env : gmap string string) (diagnose sync : Call)
    (daemon : DaemonEnd) : Run :=
  if negb (validate_environment env) then mkRun None (SysExit 1)
  else if args_health_check args then
    mkRun (Some RunHealthCheck) (exit_of (health_check env diagnose))
  else if args_diagnose args then
    mkRun (Some RunDiagnose) (exit_of diagnose)
  else
    let run_mode := lower (getenv env "RUN_MODE" "daemon") in
    if args_once args || bool_decide (run_mode = "once") then
      mkRun (Some RunSync) (exit_of sync)
    else if bool_decide (run_mode = "daemon") then
      match get_scheduler_config env with
      | Return _ =>
          mkRun (Some RunDaemon)
            match daemon with
            | DaemonReturned | DaemonInterrupted => SysExit 0
            | DaemonRaised e => Uncaught e
            | DaemonRunning => Running
            end
      | Raise e => mkRun None (Uncaught e)
      end
    else mkRun (Some RunSync) (exit_of sync).

End CommandLine.

(** ** Discovery and contacts ([cardav_client.py]) *)

Record Response : Type := mkResponse {
  status_code : Z;
  text : string
}.

Inductive Auth : Type :=
  | HTTPBasicAuth
  | HTTPDigestAuth.

#[global] Instance Auth_eq_dec : EqDecision Auth.
Proof. solve_decision. Defined.

(** What the client takes from outside the repository, for one user name
    and password: the three requests it sends (the [PROPFIND] of the
    discovery, the [PROPFIND] with a body on an addressbook, the [GET] of
    a card), answered by their URL and credentials; [re.findall] and
    [re.search] with [IGNORECASE] (the flag argument is [DOTALL]), giving
    the text of the one group; the scheme and the network location of
    [urlparse]; [vobject.readOne]. *)
Class CardDAVLibs : Type := {
  propfind_discover : string -> Auth -> Res Response;
  propfind_resources : string -> Auth -> Res Response;
  requests_get : string -> Auth -> Res Response;
  re_findall : string -> bool -> string -> list string;
  re_search : string -> string -> option string;
  urlparse : string -> Res (string * string);
  readOne : string -> Res VCard.t
}.

Module CardDAV.

(** [s.lstrip(c)] and [s.rstrip(c)] for one character *)
Fixpoint lstrip_char (c : ascii) (s : string) : string :=
  match s with
  | String b s' => if Ascii.eqb b c then lstrip_char c s' else s
  | EmptyString => EmptyString
  end.

Fixpoint rstrip_char (c : ascii) (s : string) : string :=
  match s with
  | EmptyString => EmptyString
  | String b s' =>
      match rstrip_char c s' with
      | EmptyString => if Ascii.eqb b c then EmptyString else String b EmptyString
      | r => String b r
      end
  end.

(** [s.endswith(p)] *)
Fixpoint endswith (p s : string) : bool :=
  String.eqb p s ||
  match s with
  | EmptyString => false
  | String _ s' => endswith p s'
  end.

(** [s.find(sub)] where it finds: the index of the first occurrence, in
    bytes (zero exactly when the index in characters is), and the text
    from there on. *)
Fixpoint find (sub s : string) : option (nat * string) :=
  if Str.startswith sub s then Some (O, s)
  else match s with
       | EmptyString => None
       | String _ s' => (fun r => (S r.1, r.2)) <$> find sub s'
       end.

(** The bytes [10xxxxxx] that continue a character. *)
Definition is_continuation (c : ascii) : bool :=
  let n := nat_of_ascii c in (128 <=? n)%nat && (n <=? 191)%nat.

(** [s[:n]]: the first [n] characters of the text. *)
Fixpoint utf8_take (n : nat) (s : string) : string :=
  match s with
  | EmptyString => EmptyString
  | String c s' =>
      if is_continuation c then String c (utf8_take n s')
      else match n with
           | O => EmptyString
           | S k => String c (utf8_take k s')
           end
  end.

(** The attributes of a client that [__init__] has built. *)
Record Client : Type := mkClient {
  server_url : string;
  auth : Auth;
  addressbook_urls : list string
}.

(** How [__init__] ends: with a client, or with one of the exceptions
    [_test_auth_and_discover] raises or lets through. *)
Inductive Discovery : Type :=
  | Discovered (client : Client)
  | AuthenticationFailed (status : Z)
  | NoAddressbooks
  | LibraryError (e : exn).

(** A contact with the addressbook it was read from. *)
Record Fetched : Type := mkFetched {
  contact : Contact;
  addressbook : string
}.

Section Client.
Context `{PyStr} `{CardDAVLibs} `{UnicodeData}.

(** [_resolve_url] *)
Definition _resolve_url (server_url url : string) : Res string :=
  if Str.startswith "http" url then Return url
  else if Str.startswith "/" url then
    parsed ← urlparse server_url;
    Return (parsed.1 +:+ "://" +:+ parsed.2 +:+ url)
  else Return (rstrip_char "/" server_url +:+ "/" +:+ lstrip_char "/" url).

(** [_is_addressbook], also the test on a response block in
    [_extract_addressbooks] *)
Definition _is_addressbook (xml_response : string) : bool :=
  Str.contains "card:addressbook" xml_response ||
  (Str.contains "addressbook" (lower xml_response) &&
   Str.contains "<d:collection" xml_response).

(** The test that skips the collection itself. *)
Definition is_parent (server_url href : string) : bool :=
  String.eqb href server_url || String.eqb href (server_url +:+ "/").

(** The loop of [_extract_addressbooks] over the response blocks. *)
Fixpoint addressbooks_of (server_url : string) (responses : list string)
  : Res (list string) :=
  match responses with
  | [] => Return []
  | response_block :: rest =>
      match re_search "<d:href[^>]*>([^<]+)</d:href>" response_block with
      | None => addressbooks_of server_url rest
      | Some group =>
          let href := Str.strip group in
          if _is_addressbook response_block && negb (is_parent server_url href) then
            full_url ← _resolve_url server_url href;
            addressbooks ← addressbooks_of server_url rest;
            Return (full_url :: addressbooks)
          else addressbooks_of server_url rest
      end
  end.

(** [_extract_addressbooks] *)
Definition _extract_addressbooks (server_url xml_response : string) : Res (list string) :=
  addressbooks_of server_url
    (re_findall "<d:response[^>]*>(.*?)</d:response>" true xml_response).

(** [response.status_code in [200, 207]] *)
Definition ok_status (response : Response) : bool :=
  (status_code response =? 200) || (status_code response =? 207).

(** The addressbooks of an accepted response, in [_test_auth_and_discover]. *)
Definition discover (server_url : string) (auth : Auth) (response : Response) : Discovery :=
  match _extract_addressbooks server_url (text response) with
  | Raise e => LibraryError e
  | Return [] =>
      if _is_addressbook (text response)
      then Discovered (mkClient server_url auth [server_url])
      else NoAddressbooks
  | Return urls => Discovered (mkClient server_url auth urls)
  end.

(** [_test_auth_and_discover] *)
Definition _test_auth_and_discover (server_url : string) : Discovery :=
  match propfind_discover server_url HTTPBasicAuth with
  | Raise e => LibraryError e
  | Return response =>
      if ok_status response then discover server_url HTTPBasicAuth response
      else if status_code response =? 401 then
        match propfind_discover server_url HTTPDigestAuth with
        | Raise e => LibraryError e
        | Return response =>
            if ok_status response then discover server_url HTTPDigestAuth response
            else AuthenticationFailed (status_code response)
        end
      else AuthenticationFailed (status_code response)
  end.

(** [CardDAVClient(server_url, username, password)] *)
Definition __init__ (url : string) : Discovery :=
  _test_auth_and_discover (rstrip_char "/" url).

(** The URLs of a list of matches: stripped, the empty ones left out. *)
Definition stripped_urls (matches : list string) : list string :=
  List.filter (fun url => negb (String.eqb url EmptyString)) (Str.strip <$> matches).

(** The test of the second pass of [_extract_vcard_urls] on an href. *)
Definition near_vcard (xml_response href : string) : bool :=
  negb (endswith "/" href) && negb (endswith ".vcf" href) &&
  match find ("<d:href>" +:+ href +:+ "</d:href>") xml_response with
  | Some (S _, from_href) => Str.contains "vcard" (lower (utf8_take 500 from_href))
  | Some (O, _) | None => false
  end.

(** [_extract_vcard_urls] *)
Definition _extract_vcard_urls (xml_response : string) : list string :=
  let urls := stripped_urls (re_findall "<d:href[^>]*>([^<]*\.vcf)</d:href>" false xml_response) in
  let href_matches := re_findall "<d:href[^>]*>([^<]+)</d:href>" false xml_response in
  let content_matches :=
    re_findall "<d:getcontenttype[^>]*>([^<]*vcard[^<]*)</d:getcontenttype>" false
      xml_response in
  match content_matches, urls with
  | _ :: _, [] => List.filter (near_vcard xml_response) (Str.strip <$> href_matches)
  | _, _ => urls
  end.

(** [_parse_vcard] on the text of a card; [VCard._parse_vcard] is its
    part after [vobject.readOne]. *)
Definition _parse_vcard (vcard_text : string) : option Contact :=
  let vcard_text := Str.strip vcard_text in
  if negb (Str.startswith "BEGIN:VCARD" vcard_text) then None
  else match readOne vcard_text with
       | Return vcard => VCard._parse_vcard vcard
       | Raise _ => None
       end.

(** The body of the loop over the cards of an addressbook. *)
Definition fetch_vcard (self : Client) (addressbook_url vcard_url : string) : list Fetched :=
  match _resolve_url (server_url self) vcard_url with
  | Return full_url =>
      match requests_get full_url (auth self) with
      | Return vcard_response =>
          if status_code vcard_response =? 200 then
            match _parse_vcard (text vcard_response) with
            | Some contact => [mkFetched contact addressbook_url]
            | None => []
            end
          else []
      | Raise _ => []
      end
  | Raise _ => []
  end.

(** [_get_contacts_from_addressbook] *)
Definition _get_contacts_from_addressbook (self : Client) (addressbook_url : string)
  : list Fetched :=
  match propfind_resources addressbook_url (auth self) with
  | Return response =>
      if ok_status response
      then flat_map (fetch_vcard self addressbook_url) (_extract_vcard_urls (text response))
      else []
  | Raise _ => []
  end.

(** [get_contacts] *)
Definition get_contacts (self : Client) : list Fetched :=
  flat_map (_get_contacts_from_addressbook self) (addressbook_urls self).

(** [diagnose_cardav] ([main.py]): the name of the addressbook that is
    printed for each contact is the last piece of its URL, or the piece
    before; there is none for the empty URL. *)
Definition diagnose_cardav (env : gmap string string) : bool :=
  match env !! "CARDAV_SERVER_URL", env !! "CARDAV_USERNAME", env !! "CARDAV_PASSWORD" with
  | Some (String _ _ as cardav_url), Some (String _ _), Some (String _ _) =>
      match __init__ cardav_url with
      | Discovered client =>
          forallb (fun c => negb (String.eqb (addressbook c) EmptyString)) (get_contacts client)
      | _ => false
      end
  | _, _, _ => false
  end.

End Client.

End CardDAV.

(** * Vocabulary of the further properties *)

Section ReconcilerVocabulary.
Context `{PyStr}.
Variable self : Client.

(** The alarm the client writes for one configured day, as it reads back
    from the store. *)
Definition alarm_for (name : string) (days_before : Z) (alarm : VAlarm) : Prop :=
  al_action alarm = Some "DISPLAY" /\
  al_trigger alarm = Some (TriggerDelta (mkTimedelta (- days_before) 0 0)) /\
  exists message,
    _format_reminder_message self name days_before = Return message /\
    al_description alarm = Some (read_text message).

End ReconcilerVocabulary.

(** Two events with the same UID, dates and recurrence rule. *)
Definition same_identity (ev ev' : VEvent) : Prop :=
  ev_uid ev' = ev_uid ev /\ ev_dtstart ev' = ev_dtstart ev /\
  ev_dtend ev' = ev_dtend ev /\ ev_rrule ev' = ev_rrule ev.

(** [bday.strip().split('T')[0]] *)
Definition bday_clean (bday : string) : string :=
  default EmptyString (head (Str.split "T" (Str.strip bday))).

Module FurtherScenario.
Import Ref.

(** BIRTHDAY_UPDATE_EXISTING set to "false". *)
Definition switched_off_client : Client :=
  _load_config (get_birthday_config {[ "BIRTHDAY_UPDATE_EXISTING" := "false" ]}).

(** A server that fails both queries and accepts the write. *)
Definition blind : SinkIO := mkSinkIO true true false.

(** The birthday event of a contact named Bobby Tables. *)
Definition bobby_event : VEvent :=
  {| ev_uid := Some "birthday-bobby-tables-20250615";
     ev_dtstart := mkDate 2025 6 15;
     ev_dtend := mkDate 2025 6 16;
     ev_summary := Some "ðŸŽ‚ Bobby Tables's Birthday";
     ev_description := Some "Birthday of Bobby Tables";
     ev_categories := Some ["Birthday"];
     ev_rrule := Some "FREQ=YEARLY";
     ev_alarms := [] |}.

(** Six hours between two syncs, none recorded yet. *)
Definition six_hourly : SchedulerService :=
  mkSchedulerService "0 6 * * *" "0 7 * * 0" 6 0 None true.

(** The same expression for the sync and for the diagnostic. *)
Definition twins : SchedulerService :=
  mkSchedulerService "0 6 * * *" "0 6 * * *" 0 0 None true.

(** A turn that begins at [now] and reads the clock every microsecond,
    in which both operations succeed. *)
Definition turn_at (now : Time) : Turn :=
  mkTurn now (now + 1) (now + 2) (now + 3) (now + 5) (Return true) (Return true).

(** A turn whose first check comes a microsecond before one minute past
    six. *)
Definition late_turn : Turn := turn_at (hours 6 + minutes 1 - 1).

(** The fire times of ["0 6 * * *"]: six o'clock of each day. *)
Definition six_o_clock (t : Time) : Prop :=
  exists epoch_day, t = epoch_day * Ref.day_us + hours 6.

(** All six variables set. *)
Definition full_env : gmap string string :=
  list_to_map [("CARDAV_SERVER_URL", "https://dav.example/addressbooks/bob/");
               ("CARDAV_USERNAME", "bob"); ("CARDAV_PASSWORD", "secret");
               ("CALDAV_SERVER_URL", "https://dav.example/calendars/bob/");
               ("CALDAV_USERNAME", "bob"); ("CALDAV_PASSWORD", "secret")].

(** A CardDAV server that refuses Basic and accepts Digest. The
    collection of the user holds one addressbook, [contacts], with two
    cards; the card of Eve cannot be fetched. The server writes hrefs as
    paths. *)
Definition dav_url : string := "https://dav.example/addressbooks/bob".

Definition home_block : string :=
  "<d:href>/addressbooks/bob/</d:href><d:propstat><d:prop><d:resourcetype><d:collection/></d:resourcetype></d:prop></d:propstat>".

Definition contacts_block : string :=
  "<d:href>/addressbooks/bob/contacts/</d:href><d:propstat><d:prop><d:resourcetype><d:collection/><card:addressbook/></d:resourcetype></d:prop></d:propstat>".

Definition discovery_xml : string :=
  "<d:multistatus xmlns:d='DAV:' xmlns:card='urn:ietf:params:xml:ns:carddav'><d:response>"
  +:+ home_block +:+ "</d:response><d:response>" +:+ contacts_block
  +:+ "</d:response></d:multistatus>".

Definition home_listing : string :=
  "<d:multistatus xmlns:d='DAV:'><d:response><d:href>/addressbooks/bob/</d:href></d:response><d:response><d:href>/addressbooks/bob/contacts/</d:href></d:response></d:multistatus>".

Definition contacts_listing : string :=
  "<d:multistatus xmlns:d='DAV:'><d:response><d:href>/addressbooks/bob/contacts/</d:href></d:response><d:response><d:href>/addressbooks/bob/contacts/bob.vcf</d:href></d:response><d:response><d:href>/addressbooks/bob/contacts/eve.vcf</d:href></d:response></d:multistatus>".

Definition newline : string := String (ascii_of_nat 10) EmptyString.

Definition bob_vcf : string :=
  "BEGIN:VCARD" +:+ newline +:+ "VERSION:3.0" +:+ newline +:+ "FN:Bob" +:+ newline
  +:+ "BDAY:--06-15" +:+ newline +:+ "END:VCARD" +:+ newline.

(** The row of a table for a key. *)
Definition row {A : Type} (rows : list (string * A)) (key : string) : option A :=
  snd <$> List.find (fun r => String.eqb r.1 key) rows.

Definition libs : CardDAVLibs :=
  {| propfind_discover := fun url auth =>
       if String.eqb url dav_url then
         match auth with
         | HTTPBasicAuth => Return (mkResponse 401 "Unauthorized")
         | HTTPDigestAuth => Return (mkResponse 207 discovery_xml)
         end
       else Raise DAVError;
     propfind_resources := fun url _ =>
       match row [("https://dav.example/addressbooks/bob/", mkResponse 207 home_listing);
                  ("https://dav.example/addressbooks/bob/contacts/",
                   mkResponse 207 contacts_listing)] url with
       | Some response => Return response
       | None => Raise DAVError
       end;
     requests_get := fun url _ =>
       if String.eqb url "https://dav.example/addressbooks/bob/contacts/bob.vcf"
       then Return (mkResponse 200 bob_vcf)
       else Raise DAVError;
     re_findall := fun pattern _ s =>
       default []
         (row [("<d:response[^>]*>(.*?)</d:response>" +:+ discovery_xml,
                [home_block; contacts_block]);
               ("<d:href[^>]*>([^<]*\.vcf)</d:href>" +:+ contacts_listing,
                ["/addressbooks/bob/contacts/bob.vcf"; "/addressbooks/bob/contacts/eve.vcf"]);
               ("<d:href[^>]*>([^<]+)</d:href>" +:+ contacts_listing,
                ["/addressbooks/bob/contacts/"; "/addressbooks/bob/contacts/bob.vcf";
                 "/addressbooks/bob/contacts/eve.vcf"]);
               ("<d:href[^>]*>([^<]+)</d:href>" +:+ home_listing,
                ["/addressbooks/bob/"; "/addressbooks/bob/contacts/"])]
            (pattern +:+ s));
     re_search := fun pattern s =>
       row [("<d:href[^>]*>([^<]+)</d:href>" +:+ home_block, "/addressbooks/bob/");
            ("<d:href[^>]*>([^<]+)</d:href>" +:+ contacts_block, "/addressbooks/bob/contacts/")]
         (pattern +:+ s);
     urlparse := fun url =>
       if String.eqb url dav_url then Return ("https", "dav.example") else Raise Unmodelled;
     readOne := fun vcard_text =>
       if String.eqb vcard_text (Str.strip bob_vcf) then Return Scenario.bob_card
       else Raise Unmodelled |}.

(** The client the constructor builds on this server. *)
Definition dav_client : CardDAV.Client :=
  CardDAV.mkClient dav_url HTTPDigestAuth
    ["https://dav.example/addressbooks/bob/";
     "https://dav.example/addressbooks/bob/contacts/"].

(** A client whose one addressbook is gone from the server. *)
Definition stale_client : CardDAV.Client :=
  CardDAV.mkClient dav_url HTTPDigestAuth ["https://dav.example/addressbooks/bob/old/"].

Definition stale_world : World :=
  {| cardav_client := Return tt;
     caldav_client := Return Scenario.default_client;
     get_contacts :=
       Return (CardDAV.contact <$> CardDAV.get_contacts (H0 := libs) stale_client);
     answers := fun _ => sink_ok |}.

End FurtherScenario.

(** The entries of [BIRTHDAY_REMINDER_DAYS]: the pieces between commas,
    stripped, the empty ones left out. *)
Definition reminder_entries (s : string) : list string :=
  List.filter (fun w => negb (String.eqb w EmptyString)) (Str.strip <$> Str.split "," s).

(** A stored object is kept: it is as it was, or it is an event that was
    rewritten with its UID, dates and recurrence rule. *)
Definition kept (obj obj' : CalObject) : Prop :=
  obj' = obj \/
  exists ev ev', obj = ICal ev /\ obj' = ICal ev' /\ same_identity ev ev'.

(** Every object of [cal] is kept in [cal'], at its position. *)
Definition preserved (cal cal' : Calendar) : Prop :=
  forall i obj, cal !! i = Some obj -> exists obj', cal' !! i = Some obj' /\ kept obj obj'.

(** Two states of the service in the order of the run: a recorded sync
    is not forgotten, and a later record is at least [h] hours after it. *)
Definition spaced (h : Z) (s s' : SchedulerService) : Prop :=
  match last_sync s, last_sync s' with
  | Some t, Some t' => t' = t \/ hours h <= t' - t
  | Some _, None => False
  | None, _ => True
  end.

Definition set_sync_schedule (self : SchedulerService) (schedule : string)
  : SchedulerService :=
  {| sync_schedule := schedule;
     diagnostic_schedule := diagnostic_schedule self;
     sync_interval_hours := sync_interval_hours self;
     startup_delay := startup_delay self;
     last_sync := last_sync self;
     running := running self |}.

Section CronVocabulary.
Context `{Croniter}.

(** What is expected of [croniter] on a valid expression whose fire
    times are [fires]: from every base, [get_next] is the first fire time
    after the base. *)
Definition first_fire_after (fires : Time -> Prop) (schedule : string) : Prop :=
  forall base, exists t,
    croniter_get_next schedule base = Return t /\
    base < t /\ fires t /\ forall u, base < u < t -> ~ fires u.

End CronVocabulary.

(** The variable is set to a text that is not empty. *)
Definition provided (env : gmap string string) (var : string) : Prop :=
  exists v, env !! var = Some v /\ v <> EmptyString.

Section CardDAVVocabulary.
Context `{PyStr} `{CardDAVLibs} `{UnicodeData}.

(** The contact was read from a card of a listed addressbook: the
    addressbook answered the listing with 200 or 207, the listing names
    the card, and the card was fetched with 200 and parsed. *)
Definition fetched_from (self : CardDAV.Client) (f : CardDAV.Fetched) : Prop :=
  CardDAV.addressbook f ∈ CardDAV.addressbook_urls self /\
  exists listing vcard_url full_url card,
    propfind_resources (CardDAV.addressbook f) (CardDAV.auth self) = Return listing /\
    CardDAV.ok_status listing = true /\
    vcard_url ∈ CardDAV._extract_vcard_urls (text listing) /\
    CardDAV._resolve_url (CardDAV.server_url self) vcard_url = Return full_url /\
    requests_get full_url (CardDAV.auth self) = Return card /\
    status_code card = 200 /\
    CardDAV._parse_vcard (text card) = Some (CardDAV.contact f).

(** No addressbook of the client answers the listing with 200 or 207. *)
Definition unreachable (self : CardDAV.Client) : Prop :=
  forall url listing,
    url ∈ CardDAV.addressbook_urls self ->
    propfind_resources url (CardDAV.auth self) = Return listing ->
    CardDAV.ok_status listing = false.

End CardDAVVocabulary.

(** * Properties *)

(** ** Tactics *)

(** Expose the [match] behind the monadic notation. *)
Ltac unfold_res := unfold mbind, Res_bind, mret, Res_ret, fmap, Res_fmap in *.

(** ** Inversion of the reconciler *)

Section ReconcilerFacts.
Context `{PyStr} `{CalDAVServer}.
Variable self : Client.

Lemma update_outcome io cal existing contact year title description o cal' :
  _update_existing_event self io cal existing contact year title description = (o, cal') ->
  (o = Skipped /\ cal' = cal) \/
  (exists e, o = Failed e /\ cal' = cal) \/
  (exists event alarms,
      o = Updated /\ existing.2 = ICal event /\
      up_to_date self event title description = false /\
      make_alarms self (name contact) (reminder_days self) = Return alarms /\
      save_raises io = false /\
      cal' = <[existing.1 := ICal (read_back (updated_event self event title description alarms))]> cal).
Proof.
  unfold _update_existing_event, save. unfold_res. intros Hc.
  destruct (replace_year _ _); [| inversion Hc; eauto].
  destruct (existing.2) as [| event] eqn:Eobj; [inversion Hc; eauto |].
  destruct (up_to_date _ _ _ _) eqn:Eup; [inversion Hc; eauto |].
  destruct (make_alarms _ _ _) as [alarms |] eqn:Eal; [| inversion Hc; eauto].
  destruct (save_raises io) eqn:Esave; inversion Hc; subst; [eauto |].
  right; right. exists event, alarms. auto 10.
Qed.

Lemma create_Created_inv io cal contact year cal' :
  create_birthday_event self io cal contact year = (Created, cal') ->
  exists event_date title description dtend alarms,
    replace_year (birthday contact) year = Return event_date /\
    str_format (event_title_template self) (name_kwargs (name contact)) = Return title /\
    str_format (event_description_template self) (name_kwargs (name contact))
      = Return description /\
    _find_existing_event self io cal (name contact) event_date = None /\
    add_one_day event_date = Return dtend /\
    make_alarms self (name contact) (reminder_days self) = Return alarms /\
    save_raises io = false /\
    cal' = (cal ++ [ICal (read_back_new
                            (new_event self (name contact) event_date dtend title description
                               alarms))])%list.
Proof.
  unfold create_birthday_event, save_event. unfold_res. intros Hc.
  destruct (replace_year _ _) as [event_date |] eqn:Ed; [| discriminate].
  destruct (str_format (event_title_template self) _) as [title |] eqn:Et; [| discriminate].
  destruct (str_format (event_description_template self) _) as [description |] eqn:Edesc;
    [| discriminate].
  destruct (_find_existing_event _ _ _ _ _) as [existing |] eqn:Efind.
  - destruct (update_existing self); [| discriminate].
    apply update_outcome in Hc as [[? _] | [[e [? _]] | (? & ? & ? & _)]]; discriminate.
  - destruct (add_one_day event_date) as [dtend |] eqn:Eend; [| discriminate].
    destruct (make_alarms _ _ _) as [alarms |] eqn:Eal; [| discriminate].
    destruct (save_raises io) eqn:Esave; [discriminate |].
    inversion Hc; subst.
    exists event_date, title, description, dtend, alarms. auto 10.
Qed.

Lemma create_Updated_inv io cal contact year cal' :
  create_birthday_event self io cal contact year = (Updated, cal') ->
  exists event_date title description i event alarms,
    replace_year (birthday contact) year = Return event_date /\
    str_format (event_title_template self) (name_kwargs (name contact)) = Return title /\
    str_format (event_description_template self) (name_kwargs (name contact))
      = Return description /\
    _find_existing_event self io cal (name contact) event_date = Some (i, ICal event) /\
    update_existing self = true /\
    up_to_date self event title description = false /\
    make_alarms self (name contact) (reminder_days self) = Return alarms /\
    save_raises io = false /\
    cal' = <[i := ICal (read_back (updated_event self event title description alarms))]> cal.
Proof.
  unfold create_birthday_event, save_event. unfold_res. intros Hc.
  destruct (replace_year _ _) as [event_date |] eqn:Ed; [| discriminate].
  destruct (str_format (event_title_template self) _) as [title |] eqn:Et; [| discriminate].
  destruct (str_format (event_description_template self) _) as [description |] eqn:Edesc;
    [| discriminate].
  destruct (_find_existing_event _ _ _ _ _) as [[i obj] |] eqn:Efind.
  - destruct (update_existing self) eqn:Eupd; [| discriminate].
    apply update_outcome in Hc as [[? _] | [[e [? _]] | (event & alarms & _ & Hobj & ? & ? & ? & ?)]];
      try discriminate.
    simpl in Hobj. subst obj.
    exists event_date, title, description, i, event, alarms. auto 10.
  - destruct (add_one_day event_date); [| discriminate].
    destruct (make_alarms _ _ _); [| discriminate].
    destruct (save_raises io); discriminate.
Qed.

End ReconcilerFacts.

(** ** The defaults of the configuration *)

(** With no variable set, the configuration is the documented one, and
    [run_once] turns the result of the sync into the exit code. *)
Example default_configuration :
  Scenario.default_client
  = {| event_title_template := "ðŸŽ‚ {name}'s Birthday";
       event_description_template := "Birthday of {name}";
       reminder_days := [1];
       reminder_template := "Reminder: {name}'s birthday is in {days} days!";
       event_category := "Birthday";
       update_existing := true |} /\
  get_scheduler_config (H := Ref.py_str) ∅
  = Return {| cfg_sync_schedule := "0 6 * * *";
              cfg_diagnostic_schedule := "0 7 * * 0";
              cfg_sync_interval_hours := 0;
              cfg_startup_delay := 30 |} /\
  (run_once (mkSchedulerService "0 6 * * *" "0 7 * * 0" 0 30 None true)
     (Return true) (Return true) 0).1 = 0 /\
  (run_once (mkSchedulerService "0 6 * * *" "0 7 * * 0" 0 30 None true)
     (Return false) (Return true) 0).1 = 1.
Proof. repeat split. Qed.

(** ** The UID of a created event *)

(** A test that holds on every number of a range holds on each of them. *)
Lemma range_check (P : Z -> bool) (lo n : Z) :
  forallb (fun k => P (lo + Z.of_nat k)) (seq 0 (Z.to_nat n)) = true ->
  forall z, lo <= z < lo + n -> P z = true.
Proof.
  intros Hall z Hz. rewrite forallb_forall in Hall.
  replace z with (lo + Z.of_nat (Z.to_nat (z - lo))) by lia.
  apply Hall. apply in_seq. lia.
Qed.

(** [str] of a number of four digits, and a number below 100 on two
    digits. *)
Lemma of_Z_four_digits y :
  1000 <= y <= 9999 ->
  Str.of_Z y = String (units_digit (y / 1000)) (String (units_digit (y / 100))
               (String (units_digit (y / 10)) (String (units_digit y) EmptyString))).
Proof.
  intros Hy. apply String.eqb_eq.
  apply (range_check
           (fun y => String.eqb (Str.of_Z y)
                       (String (units_digit (y / 1000)) (String (units_digit (y / 100))
                       (String (units_digit (y / 10)) (String (units_digit y) EmptyString)))))
           1000 9000); [vm_compute; reflexivity | lia].
Qed.

Lemma pad_two_digits n :
  0 <= n <= 99 ->
  Str.pad_left 2 (Str.of_Z n) = String (units_digit (n / 10)) (String (units_digit n) EmptyString).
Proof.
  intros Hn. apply String.eqb_eq.
  apply (range_check
           (fun n => String.eqb (Str.pad_left 2 (Str.of_Z n))
                       (String (units_digit (n / 10)) (String (units_digit n) EmptyString)))
           0 100); [vm_compute; reflexivity | lia].
Qed.

Lemma valid_date_bounds y m d :
  valid_date y m d = true -> 1 <= y <= 9999 /\ 1 <= m <= 12 /\ 1 <= d <= 31.
Proof.
  unfold valid_date, days_in_month. intros Hv.
  repeat (apply andb_true_iff in Hv as [Hv ?]).
  repeat match goal with H : (_ <=? _) = true |- _ => apply Z.leb_le in H end.
  repeat split; try lia.
  destruct (m =? 2); [destruct (is_leap y); lia |].
  destruct ((m =? 4) || (m =? 6) || (m =? 9) || (m =? 11)); lia.
Qed.

(** From the year 1000 on, [strftime('%Y%m%d')] writes YYYYMMDD. *)
Lemma strftime_YYYYMMDD d :
  valid_date (year d) (month d) (day d) = true -> 1000 <= year d ->
  strftime_Ymd d = YYYYMMDD d.
Proof.
  intros Hv Hy. destruct (valid_date_bounds _ _ _ Hv) as (Hyear & Hm & Hd).
  unfold strftime_Ymd, YYYYMMDD.
  rewrite (of_Z_four_digits (year d)) by lia.
  rewrite (pad_two_digits (month d)), (pad_two_digits (day d)) by lia.
  reflexivity.
Qed.

Lemma strftime_unpadded y m d :
  0 <= m <= 99 -> 0 <= d <= 99 ->
  strftime_Ymd (mkDate y m d)
  = Str.of_Z y +:+ String (units_digit (m / 10)) (String (units_digit m)
                   (String (units_digit (d / 10)) (String (units_digit d) EmptyString))).
Proof.
  intros Hm Hd. unfold strftime_Ymd. cbn [year month day].
  rewrite (pad_two_digits m), (pad_two_digits d) by lia. reflexivity.
Qed.

Lemma replace_year_inv d y event_date :
  replace_year d y = Return event_date ->
  event_date = mkDate y (month d) (day d) /\ valid_date y (month d) (day d) = true.
Proof.
  unfold replace_year, make_date. destruct (valid_date y (month d) (day d)); [| discriminate].
  intros [= <-]. auto.
Qed.

Section Uid.
Context `{PyStr} `{CalDAVServer}.

(** C2, amended. Whenever [create_birthday_event] creates an event, the
    UID it generates is ["birthday-"], the name with spaces replaced by
    hyphens and lowercased, ["-"], and the date of the event, which is the
    birthday moved to the year: a function of the contact and the year
    alone, whatever the configuration, the calendar and the server; the
    event is stored under this UID as it reads back. When the year has
    four digits the date is written YYYYMMDD; an earlier year is written
    without leading zeros. For Ada Lovelace, born on a 10 December, and the
    year 2025 the UID is ["birthday-ada-lovelace-20251210"] (given what
    [lower] does on that name). *)
Theorem uid_deterministic (self : Client) (io : SinkIO) (cal cal' : Calendar)
    (contact : Contact) (year : Z) :
  lower "Ada-Lovelace" = "ada-lovelace" ->
  create_birthday_event self io cal contact year = (Created, cal') ->
  (exists ev,
      cal' = (cal ++ [ICal ev])%list /\
      ev_dtstart ev = mkDate year (month (birthday contact)) (day (birthday contact)) /\
      ev_uid ev = Some (read_text (event_uid (name contact) (ev_dtstart ev))) /\
      event_uid (name contact) (ev_dtstart ev)
      = "birthday-" +:+ lower (Str.replace " " "-" (name contact)) +:+ "-" +:+
        (if 1000 <=? year then YYYYMMDD (ev_dtstart ev)
         else Str.of_Z year +:+
              String (units_digit (month (birthday contact) / 10))
                (String (units_digit (month (birthday contact)))
                (String (units_digit (day (birthday contact) / 10))
                (String (units_digit (day (birthday contact))) EmptyString))))) /\
  (forall y, replace_year (mkDate y 12 10) 2025 = Return (mkDate 2025 12 10)) /\
  event_uid "Ada Lovelace" (mkDate 2025 12 10) = "birthday-ada-lovelace-20251210".
Proof.
  intros Hlower Hc.
  apply create_Created_inv in Hc
    as (event_date & title & description & dtend & alarms & Hd & _ & _ & _ & _ & _ & _ & ->).
  apply replace_year_inv in Hd as [-> Hvalid].
  split; [| split].
  - eexists. split; [reflexivity |]. split; [reflexivity |]. split; [reflexivity |].
    cbn [read_back_new read_back new_event ev_dtstart].
    unfold event_uid. do 3 f_equal.
    destruct (1000 <=? year) eqn:Hy.
    + apply Z.leb_le in Hy. apply strftime_YYYYMMDD; [exact Hvalid | exact Hy].
    + destruct (valid_date_bounds _ _ _ Hvalid) as (_ & Hm & Hday).
      apply strftime_unpadded; lia.
  - intros y. reflexivity.
  - unfold event_uid.
    change (Str.replace " " "-" "Ada Lovelace") with "Ada-Lovelace".
    rewrite Hlower. reflexivity.
Qed.

End Uid.

Lemma uid_deterministic_witness :
  (exists ev,
      (create_birthday_event (H := Ref.py_str) (H0 := Ref.server) Scenario.default_client
         sink_ok [] Scenario.bob 2025).2 = ([] ++ [ICal ev])%list /\
      ev_dtstart ev = mkDate 2025 (month (birthday Scenario.bob)) (day (birthday Scenario.bob)) /\
      ev_uid ev = Some (read_text (event_uid (H := Ref.py_str) "Bob" (ev_dtstart ev))) /\
      event_uid (H := Ref.py_str) "Bob" (ev_dtstart ev)
      = "birthday-" +:+ Ref.ascii_lower (Str.replace " " "-" "Bob") +:+ "-" +:+
        (if 1000 <=? 2025 then YYYYMMDD (ev_dtstart ev)
         else Str.of_Z 2025 +:+
              String (units_digit (month (birthday Scenario.bob) / 10))
                (String (units_digit (month (birthday Scenario.bob)))
                (String (units_digit (day (birthday Scenario.bob) / 10))
                (String (units_digit (day (birthday Scenario.bob))) EmptyString))))) /\
  (forall y, replace_year (mkDate y 12 10) 2025 = Return (mkDate 2025 12 10)) /\
  event_uid (H := Ref.py_str) "Ada Lovelace" (mkDate 2025 12 10)
    = "birthday-ada-lovelace-20251210".
Proof.
  apply (uid_deterministic (H := Ref.py_str) (H0 := Ref.server)
           Scenario.default_client sink_ok []
           (create_birthday_event (H := Ref.py_str) (H0 := Ref.server) Scenario.default_client
              sink_ok [] Scenario.bob 2025).2 Scenario.bob 2025).
  - vm_compute. reflexivity.
  - vm_compute. reflexivity.
Defined.

(** The UIDs of Bob and of Ada for 2025, as the scenario stores them. *)
Example uids_of_the_scenario :
  map (fun obj => match obj with ICal ev => ev_uid ev | Garbled => None end)
    (create_birthday_event (H := Ref.py_str) (H0 := Ref.server) Scenario.default_client
       sink_ok [] Scenario.bob 2025).2
  = [Some "birthday-bob-20250615"] /\
  map (fun obj => match obj with ICal ev => ev_uid ev | Garbled => None end)
    Scenario.ada_created.2
  = [Some "birthday-ada-lovelace-20251210"] /\
  YYYYMMDD (mkDate 2025 6 15) = "20250615".
Proof. repeat split. Qed.

(** C2 as stated fails for a year of fewer than four digits: for the year
    999 the date in the UID is [9990615], which is not YYYYMMDD. *)
Lemma early_year_is_not_padded :
  (exists ev,
      create_birthday_event (H := Ref.py_str) (H0 := Ref.server) Scenario.default_client
        sink_ok [] Scenario.bob 999 = (Created, [ICal ev]) /\
      ev_dtstart ev = mkDate 999 6 15 /\
      ev_uid ev = Some "birthday-bob-9990615") /\
  YYYYMMDD (mkDate 999 6 15) = "09990615" /\
  event_uid (H := Ref.py_str) "Bob" (mkDate 999 6 15)
  <> "birthday-" +:+ Ref.ascii_lower (Str.replace " " "-" "Bob") +:+ "-"
     +:+ YYYYMMDD (mkDate 999 6 15).
Proof.
  split; [| split; [reflexivity | vm_compute; discriminate]].
  eexists. split; [vm_compute; reflexivity |]. split; reflexivity.
Qed.

(** ** The result of a pass *)

Section PassFacts.
Context `{PyStr} `{CalDAVServer}.

Lemma count_returned_snoc os o :
  count_returned (os ++ [o]) = count_returned os + (if returned o then 1 else 0).
Proof.
  unfold count_returned. rewrite filter_app, length_app.
  rewrite filter_cons, filter_nil.
  destruct (decide (returned o = true)) as [E | E].
  - rewrite E. simpl. lia.
  - apply not_true_is_false in E. rewrite E. simpl. lia.
Qed.

Lemma reconcile_step_outcomes self w year st contact :
  let st' := reconcile_step self w year st contact in
  length (outcomes st') = S (length (outcomes st)) /\
  created_count st' - count_returned (outcomes st')
    = created_count st - count_returned (outcomes st).
Proof.
  unfold reconcile_step. simpl.
  destruct (create_birthday_event _ _ _ _ _) as [o cal']. simpl.
  rewrite length_app, count_returned_snoc. simpl.
  split; [lia |]. destruct (returned o); lia.
Qed.

Lemma loop_invariant self w year contacts st0 :
  pass_invariant st0 (foldl (process_contact self w year) st0 contacts) (length contacts).
Proof.
  unfold pass_invariant.
  induction contacts as [| c cs IH] using rev_ind.
  - simpl. split; lia.
  - rewrite foldl_app, length_app. cbn [foldl length].
    set (st := foldl _ st0 cs) in *. unfold process_contact.
    destruct (reconcile_step_outcomes self w year st c) as [L1 C1].
    destruct (reconcile_step_outcomes self w (year + 1)
                (reconcile_step self w year st c) c) as [L2 C2].
    destruct IH as [IHl IHc]. split; [lia | lia].
Qed.

Lemma calendar_after_cons cal r done :
  calendar_after cal (r :: done) = calendar_after r.2 done.
Proof.
  unfold calendar_after. rewrite fmap_cons, last_cons.
  destruct (last done.*2); reflexivity.
Qed.

(** The loop calls [create_birthday_event] as [reconciliations] lists it. *)
Lemma loop_reconciliations self w year contacts st :
  let st' := foldl (process_contact self w year) st contacts in
  let done := reconciliations self w year (calls st) (calendar st) contacts in
  outcomes st' = (outcomes st ++ done.*1)%list /\
  calendar st' = calendar_after (calendar st) done /\
  calls st' = (calls st + 2 * length contacts)%nat.
Proof.
  revert st. induction contacts as [| c cs IH]; intros st.
  - simpl. rewrite app_nil_r. repeat split. lia.
  - cbn [foldl reconciliations length].
    destruct (IH (process_contact self w year st c)) as (Ho & Hc & Hk).
    cbn zeta in Ho, Hc, Hk. cbn zeta.
    rewrite Ho, Hc, Hk. unfold process_contact, reconcile_step.
    cbn [outcomes calendar calls].
    rewrite !calendar_after_cons, !fmap_cons, <- !app_assoc.
    repeat split. lia.
Qed.

(** Where a contact stands in the list of the reconciliations. *)
Lemma reconciliations_lookup self w year contacts k cal i contact :
  contacts !! i = Some contact ->
  exists before,
    reconciliations self w year k cal contacts !! (2 * i)%nat
    = Some (create_birthday_event self (answers w (k + 2 * i)) before contact year) /\
    reconciliations self w year k cal contacts !! (2 * i + 1)%nat
    = Some (create_birthday_event self (answers w (k + 2 * i + 1))
              (create_birthday_event self (answers w (k + 2 * i)) before contact year).2
              contact (year + 1)).
Proof.
  revert k cal i. induction contacts as [| c cs IH]; intros k cal i Hi; [discriminate |].
  destruct i as [| i].
  - injection Hi as ->. exists cal. cbn [reconciliations].
    replace (k + 2 * 0)%nat with k by lia. replace (k + 1)%nat with (S k) by lia.
    split; reflexivity.
  - cbn [reconciliations].
    set (this_year := create_birthday_event self (answers w k) cal c year).
    set (next_year := create_birthday_event self (answers w (S k)) this_year.2 c (year + 1)).
    destruct (IH (S (S k)) next_year.2 i Hi) as (before & H1 & H2). exists before.
    replace (2 * S i)%nat with (S (S (2 * i))) by lia.
    replace (k + S (S (2 * i)))%nat with (S (S k) + 2 * i)%nat by lia.
    split; [exact H1 |].
    replace (S (S (2 * i)) + 1)%nat with (S (S (2 * i + 1))) by lia. exact H2.
Qed.

(** C3, amended. When both clients connect and the record source returns
    its contacts, the pass reports success exactly when the sequence is
    not empty. Every contact is then reconciled for both years, whatever
    the outcomes of the others: the outcomes of the pass are those of the
    calls of [create_birthday_event] for each contact in turn, for this
    year and for the next one, each on the calendar the calls before have
    left; the calendar of the pass is the one the last call leaves; and
    the count is the number of events created or updated. On the empty
    sequence the pass reports failure and calls nothing. *)
Theorem pass_success_policy (w : World) (current_year : Z) (cal : Calendar)
    (self : Client) (contacts : list Contact) :
  cardav_client w = Return tt ->
  caldav_client w = Return self ->
  get_contacts w = Return contacts ->
  let r := main_sync w current_year cal in
  let done := reconciliations self w current_year 0 cal contacts in
  r.1 = negb (bool_decide (contacts = [])) /\
  outcomes r.2 = done.*1 /\
  calendar r.2 = calendar_after cal done /\
  (forall i contact,
      contacts !! i = Some contact ->
      exists before,
        done !! (2 * i)%nat
        = Some (create_birthday_event self (answers w (2 * i)) before contact current_year) /\
        done !! (2 * i + 1)%nat
        = Some (create_birthday_event self (answers w (2 * i + 1))
                  (create_birthday_event self (answers w (2 * i)) before contact
                     current_year).2
                  contact (current_year + 1))) /\
  length (outcomes r.2) = (2 * length contacts)%nat /\
  created_count r.2 = count_returned (outcomes r.2).
Proof.
  intros Hcard Hcal Hget. unfold main_sync. rewrite Hcard, Hcal, Hget. cbn zeta.
  assert (Hlookup : forall i contact,
             contacts !! i = Some contact ->
             exists before,
               reconciliations self w current_year 0 cal contacts !! (2 * i)%nat
               = Some (create_birthday_event self (answers w (2 * i)) before contact
                         current_year) /\
               reconciliations self w current_year 0 cal contacts !! (2 * i + 1)%nat
               = Some (create_birthday_event self (answers w (2 * i + 1))
                         (create_birthday_event self (answers w (2 * i)) before contact
                            current_year).2
                         contact (current_year + 1))).
  { intros i contact Hi.
    exact (reconciliations_lookup self w current_year contacts 0 cal i contact Hi). }
  destruct contacts as [| c cs].
  - simpl. repeat split; try reflexivity. exact Hlookup.
  - unfold_res. cbn [fst snd].
    destruct (loop_reconciliations self w current_year (c :: cs) (mkPassState 0 0 cal []))
      as (Ho & Hc & _).
    pose proof (loop_invariant self w current_year (c :: cs) (mkPassState 0 0 cal []))
      as [Hl Hn].
    cbn zeta in Ho, Hc. cbn [outcomes calendar calls app] in Ho, Hc.
    cbn [outcomes created_count] in Hl, Hn. change (count_returned []) with 0 in Hn.
    split; [reflexivity |]. split; [exact Ho |]. split; [exact Hc |].
    split; [exact Hlookup |]. split; [exact Hl |]. lia.
Qed.

End PassFacts.

Lemma pass_success_policy_witness :
  let r := main_sync (H := Ref.py_str) (H0 := Ref.server) Scenario.two_contacts_world 2025 [] in
  r.1 = true /\
  outcomes r.2 = [Failed ValueError; Failed ValueError; Created; Created] /\
  r.2.(calendar)
  = (create_birthday_event (H := Ref.py_str) (H0 := Ref.server) Scenario.default_client
       sink_ok
       (create_birthday_event (H := Ref.py_str) (H0 := Ref.server) Scenario.default_client
          sink_ok [] Scenario.bob 2025).2
       Scenario.bob 2026).2 /\
  created_count r.2 = 2.
Proof.
  destruct (pass_success_policy (H := Ref.py_str) (H0 := Ref.server)
              Scenario.two_contacts_world 2025 [] Scenario.default_client
              [Scenario.eve; Scenario.bob] eq_refl eq_refl eq_refl)
    as (Hr & Ho & Hc & _ & _ & Hn).
  split; [exact Hr |]. split; [exact Ho |]. split; [exact Hc |].
  rewrite Hn, Ho. reflexivity.
Defined.

(** The pass over Eve and Bob: Eve fails for 2025 and for 2026, Bob gets
    his two events, and the pass succeeds. *)
Example pass_with_a_failing_contact :
  let r := main_sync (H := Ref.py_str) (H0 := Ref.server) Scenario.two_contacts_world 2025 [] in
  r.1 = true /\
  outcomes r.2 = [Failed ValueError; Failed ValueError; Created; Created] /\
  created_count r.2 = 2.
Proof. vm_compute. auto. Qed.

(** C3 as stated fails: a pass that meets no error at all and receives the
    empty sequence reports failure. *)
Lemma empty_pass_reports_failure :
  cardav_client Scenario.empty_world = Return tt /\
  caldav_client Scenario.empty_world = Return Scenario.default_client /\
  get_contacts Scenario.empty_world = Return [] /\
  (main_sync (H := Ref.py_str) (H0 := Ref.server) Scenario.empty_world 2025 []).1 = false.
Proof. repeat split. Qed.

(** ** The scheduler *)

Section SchedulerFacts.
Context `{Croniter}.

(** C7. With an expression [croniter] rejects, neither function raises:
    [_next_sync_time] answers one hour after the clock, and the due check
    answers [False], which is the comparison of that fallback time with
    the clock. Evaluated at every tick, the schedule is therefore never
    due: a tick whose cron expressions are both rejected, in cron mode,
    runs nothing. *)
Theorem invalid_cron_fallback (schedule : string) (now now' : Time)
    (self : SchedulerService) (sync_func diagnostic_func : Res bool) :
  invalid_cron schedule ->
  _next_sync_time schedule now now' = now' + hours 1 /\
  _should_sync_cron schedule now now' = false /\
  _should_sync_cron schedule now now' = (_next_sync_time schedule now now' <=? now') /\
  (sync_schedule self = schedule -> diagnostic_schedule self = schedule ->
   sync_interval_hours self <= 0 ->
   tick self sync_func diagnostic_func now = self).
Proof.
  intros Hbad.
  assert (Hnext : _next_sync_time schedule now now' = now' + hours 1).
  { unfold _next_sync_time. destruct (Hbad now) as [e ->]. reflexivity. }
  assert (Hdue : forall t t', _should_sync_cron schedule t t' = false).
  { intros t t'. unfold _should_sync_cron.
    destruct (Hbad (t - minutes 1)) as [e ->]. reflexivity. }
  split; [exact Hnext |]. split; [apply Hdue |]. split.
  - rewrite Hdue, Hnext. symmetry. apply Z.leb_gt. unfold hours. lia.
  - intros Hs Hd Hi. unfold tick.
    destruct (0 <? sync_interval_hours self) eqn:E; [apply Z.ltb_lt in E; lia |].
    simpl. rewrite Hs, Hd, Hdue. reflexivity.
Qed.

(** C10. [_perform_sync] writes [last_sync] exactly when a sync (not a
    diagnostic) returns success, and touches nothing else: after a
    diagnostic, a sync that returns failure or a sync that raises, the
    service is unchanged. Hence in interval mode a sync that was due and
    did not succeed is still due at every later time, and a diagnostic
    changes no later due check. *)
Theorem last_sync_frame (self : SchedulerService) (sync_func diagnostic_func : Res bool)
    (diagnostic : bool) (now later : Time) :
  let r := _perform_sync self sync_func diagnostic_func diagnostic now in
  r.2 = (if negb diagnostic && succeeded sync_func
         then set_last_sync self (Some now) else self) /\
  (diagnostic = false -> succeeded sync_func = false -> now <= later ->
   _should_sync_interval self now = Return true ->
   r.1 = false /\ _should_sync_interval r.2 later = Return true) /\
  (diagnostic = true ->
   _should_sync_interval r.2 later = _should_sync_interval self later).
Proof.
  simpl. split; [| split].
  - unfold _perform_sync. destruct diagnostic; simpl.
    + destruct diagnostic_func; reflexivity.
    + destruct sync_func as [[|] |]; reflexivity.
  - intros -> Hfail Hle Hdue.
    assert (Hsame : _perform_sync self sync_func diagnostic_func false now = (false, self)).
    { unfold _perform_sync. destruct sync_func as [[|] |]; simpl in *; congruence. }
    rewrite Hsame. simpl. split; [reflexivity |].
    revert Hdue. unfold _should_sync_interval.
    destruct (sync_interval_hours self <=? 0); [discriminate |].
    destruct (last_sync self) as [t |]; [| reflexivity].
    destruct (timedelta_hours _) as [interval |]; simpl; [| discriminate].
    intros Hdue. injection Hdue as Hleb. apply Z.leb_le in Hleb.
    unfold mret, Res_ret. f_equal. apply Z.leb_le. lia.
  - intros ->. unfold _perform_sync. destruct diagnostic_func; reflexivity.
Qed.

End SchedulerFacts.

Lemma invalid_cron_fallback_witness :
  _next_sync_time (H := Ref.cron) "every day at six" 0 7 = 7 + hours 1 /\
  _should_sync_cron (H := Ref.cron) "every day at six" 0 7 = false /\
  _should_sync_cron (H := Ref.cron) "every day at six" 0 7
    = (_next_sync_time (H := Ref.cron) "every day at six" 0 7 <=? 7) /\
  (sync_schedule (mkSchedulerService "every day at six" "every day at six" 0 30 None true)
     = "every day at six" ->
   diagnostic_schedule (mkSchedulerService "every day at six" "every day at six" 0 30 None true)
     = "every day at six" ->
   sync_interval_hours (mkSchedulerService "every day at six" "every day at six" 0 30 None true)
     <= 0 ->
   tick (H := Ref.cron) (mkSchedulerService "every day at six" "every day at six" 0 30 None true)
     (Return true) (Return true) 0
   = mkSchedulerService "every day at six" "every day at six" 0 30 None true).
Proof.
  apply (invalid_cron_fallback (H := Ref.cron) "every day at six" 0 7).
  intros base. exists ValueError. reflexivity.
Defined.

Lemma last_sync_frame_witness :
  let self := mkSchedulerService "0 6 * * *" "0 7 * * 0" 4 30 (Some 0) true in
  let r := _perform_sync self (Return false) (Return true) false (hours 5) in
  r.2 = self /\
  (r.1 = false /\ _should_sync_interval r.2 (hours 6) = Return true) /\
  _should_sync_interval
    (_perform_sync self (Return true) (Return true) true (hours 5)).2 (hours 6)
  = _should_sync_interval self (hours 6).
Proof.
  pose (self := mkSchedulerService "0 6 * * *" "0 7 * * 0" 4 30 (Some 0) true).
  destruct (last_sync_frame self (Return false) (Return true) false (hours 5) (hours 6))
    as (Hframe & Hdue & _).
  destruct (last_sync_frame self (Return true) (Return true) true (hours 5) (hours 6))
    as (_ & _ & Hdiag).
  split; [exact Hframe |]. split.
  - apply Hdue; [reflexivity | reflexivity | unfold hours; lia | reflexivity].
  - apply Hdiag. reflexivity.
Defined.

(** The due checks of the specification on the reference [croniter]:
    ["0 6 * * *"] is due at 06:00:01 and not at 05:58:00 (times of Monday
    2024-01-01, day 19723 of the epoch); the default diagnostic expression
    ["0 7 * * 0"] is due on the next Sunday at 07:00:30 and not on that
    Monday; with an interval of four hours a sync is not due three hours
    after the last one, due after four, and due when there was none. *)
Example due_checks :
  let day := 19723 * hours 24 in
  let at_ t := (t, t) in
  let due s (tt : Time * Time) := _should_sync_cron (H := Ref.cron) s tt.1 tt.2 in
  let svc last := mkSchedulerService "0 6 * * *" "0 7 * * 0" 4 30 last true in
  due "0 6 * * *" (at_ (day + hours 6 + 1000000)) = true /\
  due "0 6 * * *" (at_ (day + hours 5 + minutes 58)) = false /\
  due "0 7 * * 0" (at_ (day + hours (6 * 24 + 7) + 30000000)) = true /\
  due "0 7 * * 0" (at_ (day + hours 7 + 30000000)) = false /\
  _should_sync_interval (svc (Some day)) (day + hours 3) = Return false /\
  _should_sync_interval (svc (Some day)) (day + hours 4) = Return true /\
  _should_sync_interval (svc None) day = Return true.
Proof. vm_compute. auto 10. Qed.

(** ** The lookup of an existing event *)

Section Lookup.
Context `{PyStr} `{CalDAVServer}.
Variable self : Client.

Lemma first_match_cons_skip name (p : nat * CalObject) events :
  event_matches self name p.2 = false ->
  first_match self name (p :: events) = first_match self name events.
Proof.
  intros Hno. unfold first_match. simpl.
  destruct (decide _) as [Hyes | _]; [congruence |].
  destruct (list_find _ events) as [[j q] |]; reflexivity.
Qed.

Lemma first_match_cons_hit name (p : nat * CalObject) events :
  event_matches self name p.2 = true ->
  first_match self name (p :: events) = Some p.
Proof.
  intros Hyes. unfold first_match. simpl.
  destruct (decide _) as [_ | Hno]; [reflexivity | contradiction].
Qed.

Lemma first_match_scan_from name start stop k cal :
  first_match self name
    (filter (fun p => time_range_match p.2 start stop = true)
       (imap (fun i o => ((k + i)%nat, o)) cal))
  = scan self name start stop k cal.
Proof.
  revert k. induction cal as [| obj rest IH]; intros k; [reflexivity |].
  cbn [imap scan]. unfold hit.
  assert (Hrest : imap ((fun i o => ((k + i)%nat, o)) ∘ S) rest
                  = imap (fun i o => ((S k + i)%nat, o)) rest).
  { apply imap_ext. intros i o _. simpl. f_equal. lia. }
  rewrite Hrest, filter_cons. simpl.
  destruct (decide (time_range_match obj start stop = true)) as [Hin | Hout].
  - rewrite Hin. simpl. destruct (event_matches self name obj) eqn:Hm.
    + rewrite first_match_cons_hit by exact Hm. rewrite Nat.add_0_r. reflexivity.
    + rewrite first_match_cons_skip by exact Hm. exact (IH (S k)).
  - apply not_true_is_false in Hout. rewrite Hout. simpl. exact (IH (S k)).
Qed.

Lemma first_match_scan name start stop cal :
  first_match self name (in_range cal start stop) = scan self name start stop 0 cal.
Proof. apply (first_match_scan_from name start stop 0 cal). Qed.

Lemma scan_Some name start stop k cal i obj :
  scan self name start stop k cal = Some (i, obj) ->
  exists j, i = (k + j)%nat /\ cal !! j = Some obj /\
            hit self name start stop obj = true /\
            forall j' o, (j' < j)%nat -> cal !! j' = Some o -> hit self name start stop o = false.
Proof.
  revert k. induction cal as [| x rest IH]; intros k; simpl; [discriminate |].
  destruct (hit self name start stop x) eqn:Hx.
  - intros [= <- <-]. exists 0%nat. repeat split; auto with lia.
  - intros Hs. destruct (IH _ Hs) as (j & -> & Hj & Hhit & Hbefore).
    exists (S j). repeat split; auto with lia.
    intros [| j'] o Hlt Ho; simpl in Ho.
    + congruence.
    + apply (Hbefore j'); [lia | exact Ho].
Qed.

Lemma scan_None name start stop k cal :
  scan self name start stop k cal = None <->
  forall j o, cal !! j = Some o -> hit self name start stop o = false.
Proof.
  revert k. induction cal as [| x rest IH]; intros k; simpl.
  - split; [intros _ j o Hj; destruct j; discriminate | reflexivity].
  - destruct (hit self name start stop x) eqn:Hx.
    + split; [discriminate |]. intros Hall. specialize (Hall 0%nat x eq_refl). congruence.
    + rewrite IH. split.
      * intros Hall [| j] o Ho; simpl in Ho; [congruence | eauto].
      * intros Hall j o Ho. apply (Hall (S j)). exact Ho.
Qed.

Lemma scan_first name start stop k cal j obj :
  cal !! j = Some obj ->
  hit self name start stop obj = true ->
  (forall j' o, (j' < j)%nat -> cal !! j' = Some o -> hit self name start stop o = false) ->
  scan self name start stop k cal = Some ((k + j)%nat, obj).
Proof.
  revert k j. induction cal as [| x rest IH]; intros k j Hj Hhit Hbefore; [destruct j; discriminate |].
  simpl. destruct j as [| j]; simpl in Hj.
  - injection Hj as ->. rewrite Hhit, Nat.add_0_r. reflexivity.
  - rewrite (Hbefore 0%nat x) by (simpl; auto with lia).
    rewrite (IH (S k) j Hj Hhit).
    + do 2 f_equal. lia.
    + intros j' o Hlt Ho. apply (Hbefore (S j')); [lia | exact Ho].
Qed.

(** When the date has a next day and the server answers one of the two
    queries, the lookup is the scan of the collection. *)
Lemma find_answered io cal name date stop :
  add_one_day date = Return stop ->
  search_raises io = false \/ date_search_raises io = false ->
  _find_existing_event self io cal name date = scan self name date stop 0 cal.
Proof.
  intros Hstop Hio. unfold _find_existing_event, calendar_search, calendar_date_search.
  rewrite Hstop. unfold_res.
  destruct (search_raises io); [| apply first_match_scan].
  destruct Hio as [Hio | ->]; [discriminate | apply first_match_scan].
Qed.

(** Whatever the lookup returns was found by the scan. *)
Lemma find_Some io cal name date r :
  _find_existing_event self io cal name date = Some r ->
  exists stop, add_one_day date = Return stop /\ scan self name date stop 0 cal = Some r.
Proof.
  unfold _find_existing_event, calendar_search, calendar_date_search. unfold_res.
  destruct (add_one_day date) as [stop |]; [| discriminate].
  intros Hf. exists stop. split; [reflexivity |]. rewrite <- first_match_scan.
  destruct (search_raises io); [| exact Hf].
  destruct (date_search_raises io); [discriminate | exact Hf].
Qed.

(** C4, amended. An event that has a summary is a match exactly when the
    summary holds the name together with the category or the keyword
    "birthday", or its UID starts with "birthday-" and the normalised name:
    either test alone qualifies. An event without a summary is never a
    match, whatever its UID. When the server answers, the lookup returns
    the first such event of the queried day: if some event of the day
    qualifies, an event that qualifies is found. *)
Theorem dual_match_strategy (name : string) (ev : VEvent) :
  (event_matches self name (ICal ev) = true <->
   exists summary, ev_summary ev = Some summary /\
     (summary_matches self name summary = true \/
      exists uid, ev_uid ev = Some uid /\ Str.startswith (expected_uid name) uid = true)) /\
  (ev_summary ev = None -> event_matches self name (ICal ev) = false) /\
  (forall io cal date stop i,
      add_one_day date = Return stop ->
      search_raises io = false \/ date_search_raises io = false ->
      cal !! i = Some (ICal ev) ->
      time_range_match (ICal ev) date stop = true ->
      event_matches self name (ICal ev) = true ->
      exists j obj, (j <= i)%nat /\ cal !! j = Some obj /\
        _find_existing_event self io cal name date = Some (j, obj) /\
        event_matches self name obj = true).
Proof.
  split; [| split].
  - simpl. destruct (ev_summary ev) as [summary |].
    + rewrite orb_true_iff. split.
      * intros [Hs | Hu]; exists summary; split; auto.
        right. unfold uid_matches in Hu. destruct (ev_uid ev) as [uid |]; [eauto | discriminate].
      * intros (s & [= <-] & [Hs | (uid & Hu & Hp)]); [auto |].
        right. unfold uid_matches. rewrite Hu. exact Hp.
    + split; [discriminate |]. intros (s & Hs & _). discriminate.
  - intros Hnone. simpl. rewrite Hnone. reflexivity.
  - intros io cal date stop i Hstop Hio Hi Hin Hm.
    rewrite (find_answered io cal name date stop Hstop Hio).
    destruct (scan self name date stop 0 cal) as [[j obj] |] eqn:Hscan.
    + destruct (scan_Some _ _ _ _ _ _ _ Hscan) as (j' & -> & Hj & Hhit & Hbefore).
      rewrite Nat.add_0_l. exists j', obj. unfold hit in Hhit. apply andb_true_iff in Hhit as [_ Hhit].
      repeat split; auto.
      destruct (le_lt_dec j' i) as [Hle | Hlt]; [exact Hle |].
      specialize (Hbefore i (ICal ev) Hlt Hi). unfold hit in Hbefore.
      rewrite Hin, Hm in Hbefore. discriminate.
    + rewrite scan_None in Hscan. specialize (Hscan i (ICal ev) Hi).
      unfold hit in Hscan. rewrite Hin, Hm in Hscan. discriminate.
Qed.

End Lookup.

Lemma dual_match_strategy_witness :
  exists j obj, (j <= 0)%nat /\
    [ICal LookupScenario.uid_only_match] !! j = Some obj /\
    _find_existing_event (H := Ref.py_str) (H0 := Ref.server) Scenario.default_client sink_ok
      [ICal LookupScenario.uid_only_match] "Bob" (mkDate 2025 6 15) = Some (j, obj) /\
    event_matches (H := Ref.py_str) Scenario.default_client "Bob" obj = true.
Proof.
  destruct (dual_match_strategy (H := Ref.py_str) (H0 := Ref.server) Scenario.default_client
              "Bob" LookupScenario.uid_only_match) as (_ & _ & Hfind).
  apply (Hfind sink_ok [ICal LookupScenario.uid_only_match]
           (mkDate 2025 6 15) (mkDate 2025 6 16) 0%nat);
    [reflexivity | left; reflexivity | reflexivity | reflexivity | reflexivity].
Defined.

(** C4 as stated fails: an event of the queried day whose UID has the
    deterministic prefix and which has no summary is not a match, and the
    lookup finds nothing. *)
Lemma uid_match_without_summary_is_missed :
  ev_summary LookupScenario.uid_without_summary = None /\
  uid_matches (H := Ref.py_str) "Bob" (ev_uid LookupScenario.uid_without_summary) = true /\
  event_matches (H := Ref.py_str) Scenario.default_client "Bob"
    (ICal LookupScenario.uid_without_summary) = false /\
  _find_existing_event (H := Ref.py_str) (H0 := Ref.server) Scenario.default_client sink_ok
    [ICal LookupScenario.uid_without_summary] "Bob" (mkDate 2025 6 15) = None.
Proof. repeat split. Qed.

(** ** Reminder messages: the handler *)

Section Handler.
Context `{PyStr}.
Variable self : Client.

(** What the [except] clause does with an exception of the [try]: the
    three listed classes give the fixed phrase, every other one leaves the
    function. *)
Lemma format_reminder_handler name days_before e :
  format_reminder_try self name days_before = Raise e ->
  _format_reminder_message self name days_before
  = if caught_by_format_handler e then Return (fallback_message name days_before) else Raise e.
Proof. intros Htry. unfold _format_reminder_message. rewrite Htry. reflexivity. Qed.

(** A [KeyError], [ValueError] or [AttributeError] of [str.format] gives
    one of the three phrases, chosen by [days_before]. *)
Lemma format_reminder_recovers name days_before e :
  str_format (reminder_template self) (reminder_kwargs name days_before) = Raise e ->
  caught_by_format_handler e = true ->
  (days_before = 0 -> Str.contains "{days}" (reminder_template self) = true) ->
  _format_reminder_message self name days_before
  = Return (if days_before =? 0 then "Today is " +:+ name +:+ "'s birthday!"
            else if days_before =? 1 then "Tomorrow is " +:+ name +:+ "'s birthday!"
            else name +:+ "'s birthday is in " +:+ Str.of_Z days_before +:+ " days!").
Proof.
  intros Hfmt Hcaught Hdays.
  assert (Htry : format_reminder_try self name days_before = Raise e).
  { unfold format_reminder_try. unfold_res.
    destruct (days_before =? 0) eqn:E0.
    - apply Z.eqb_eq in E0. rewrite (Hdays E0), Hfmt. reflexivity.
    - destruct (days_before =? 1); rewrite Hfmt; reflexivity. }
  rewrite (format_reminder_handler _ _ _ Htry), Hcaught. reflexivity.
Qed.

End Handler.

(** C6 fails on the code: with the reminder template
    "{} days until {name}'s birthday", [str.format] raises [IndexError],
    which the handler does not list. The exception leaves
    [_format_reminder_message] instead of giving "Tomorrow is Bob's
    birthday!", and the reconciliation of the contact fails without
    writing an event. *)
Theorem format_index_error_escapes :
  str_format (PyStr := Ref.py_str) (reminder_template HandlerScenario.positional_client)
    (reminder_kwargs "Bob" 1) = Raise IndexError /\
  _format_reminder_message (H := Ref.py_str) HandlerScenario.positional_client "Bob" 1
    = Raise IndexError /\
  create_birthday_event (H := Ref.py_str) (H0 := Ref.server) HandlerScenario.positional_client
    sink_ok [] Scenario.bob 2025 = (Failed IndexError, []).
Proof. repeat split. Qed.

(** ** The default scenario *)

(** C9, amended. The card of Bob with the birthday [--06-15] parses to the
    placeholder date 2000-06-15. Under the default configuration, when the
    lookup finds no event and the server accepts the write, the
    reconciliation for 2025 creates one event: dated 2025-06-15, with UID
    "birthday-bob-20250615", the rule FREQ=YEARLY, and exactly one alarm,
    one day before, whose message is the default template rendered and
    corrected, "Reminder: Bob's birthday is in 1 day!". *)
Theorem default_scenario (io : SinkIO) (cal : Calendar) :
  save_raises io = false ->
  _find_existing_event (H := Ref.py_str) (H0 := Ref.server) Scenario.default_client io cal
    "Bob" (mkDate 2025 6 15) = None ->
  VCard._parse_vcard (H := Ref.unicode) Scenario.bob_card = Some Scenario.bob /\
  create_birthday_event (H := Ref.py_str) (H0 := Ref.server) Scenario.default_client io cal
    Scenario.bob 2025
    = (Created, (cal ++ [ICal Scenario.bob_event])%list) /\
  ev_dtstart Scenario.bob_event = mkDate 2025 6 15 /\
  ev_uid Scenario.bob_event = Some "birthday-bob-20250615" /\
  ev_rrule Scenario.bob_event = Some "FREQ=YEARLY" /\
  map (fun a => (al_trigger a, al_description a)) (ev_alarms Scenario.bob_event)
    = [(Some (TriggerDelta (mkTimedelta (-1) 0 0)),
        Some "Reminder: Bob's birthday is in 1 day!")].
Proof.
  intros Hsave Hfind. split; [reflexivity |]. split; [| repeat split].
  unfold create_birthday_event, save_event.
  change (replace_year (birthday Scenario.bob) 2025) with (Return (mkDate 2025 6 15)).
  change (str_format (event_title_template Scenario.default_client)
            (name_kwargs (name Scenario.bob))) with (Return "ðŸŽ‚ Bob's Birthday").
  change (str_format (event_description_template Scenario.default_client)
            (name_kwargs (name Scenario.bob))) with (Return "Birthday of Bob").
  unfold_res. change (name Scenario.bob) with "Bob". rewrite Hfind, Hsave.
  reflexivity.
Qed.

Lemma default_scenario_witness :
  VCard._parse_vcard (H := Ref.unicode) Scenario.bob_card = Some Scenario.bob /\
  create_birthday_event (H := Ref.py_str) (H0 := Ref.server) Scenario.default_client sink_ok []
    Scenario.bob 2025 = (Created, ([] ++ [ICal Scenario.bob_event])%list) /\
  ev_dtstart Scenario.bob_event = mkDate 2025 6 15 /\
  ev_uid Scenario.bob_event = Some "birthday-bob-20250615" /\
  ev_rrule Scenario.bob_event = Some "FREQ=YEARLY" /\
  map (fun a => (al_trigger a, al_description a)) (ev_alarms Scenario.bob_event)
    = [(Some (TriggerDelta (mkTimedelta (-1) 0 0)),
        Some "Reminder: Bob's birthday is in 1 day!")].
Proof.
  apply (default_scenario sink_ok []); reflexivity.
Defined.

(** C9 as stated fails: the alarm of the event created for Bob under the
    default configuration does not carry "Tomorrow is Bob's birthday!",
    the phrase of the handler; the default template renders without
    error. *)
Lemma default_message_is_not_the_fallback :
  exists ev,
    create_birthday_event (H := Ref.py_str) (H0 := Ref.server) Scenario.default_client sink_ok []
      Scenario.bob 2025 = (Created, [ICal ev]) /\
    map al_description (ev_alarms ev) = [Some "Reminder: Bob's birthday is in 1 day!"] /\
    map al_description (ev_alarms ev) <> [Some "Tomorrow is Bob's birthday!"].
Proof.
  exists Scenario.bob_event. split; [reflexivity |]. split; [reflexivity | discriminate].
Qed.

(** ** Basic facts on strings *)

Module StrFacts.
Import Str.

Lemma append_cons c s t : String c s +:+ t = String c (s +:+ t).
Proof. reflexivity. Qed.

Lemma append_nil_l s : EmptyString +:+ s = s.
Proof. reflexivity. Qed.

Lemma append_nil_r s : s +:+ EmptyString = s.
Proof. induction s as [| c s IH]; [reflexivity |]. rewrite append_cons, IH. reflexivity. Qed.

Lemma append_assoc s t u : (s +:+ t) +:+ u = s +:+ (t +:+ u).
Proof.
  induction s as [| c s IH]; [reflexivity |].
  rewrite !append_cons, IH. reflexivity.
Qed.

Lemma length_append s t : String.length (s +:+ t) = (String.length s + String.length t)%nat.
Proof.
  induction s as [| c s IH]; [reflexivity |].
  rewrite append_cons. simpl. rewrite IH. reflexivity.
Qed.

Lemma startswith_app p s : startswith p (p +:+ s) = true.
Proof.
  induction p as [| c p IH]; [reflexivity |].
  rewrite append_cons. simpl. rewrite Ascii.eqb_refl. exact IH.
Qed.

(** [startswith] finds exactly the strings that begin with the prefix. *)
Lemma startswith_spec p s : startswith p s = true <-> exists t, s = p +:+ t.
Proof.
  split.
  - revert s. induction p as [| c p IH]; intros s Hs.
    + exists s. reflexivity.
    + destruct s as [| b s]; [discriminate |]. simpl in Hs.
      apply andb_true_iff in Hs as [Hc Hp]. apply Ascii.eqb_eq in Hc. subst b.
      destruct (IH s Hp) as [t ->]. exists t. reflexivity.
  - intros [t ->]. apply startswith_app.
Qed.

End StrFacts.

(** ** Reminder days: written, read back, compared *)

Section Reminders.
Context `{PyStr}.
Variable self : Client.

Lemma sorted_Permutation (l1 l2 : list Z) : l1 ≡ₚ l2 -> sorted l1 = sorted l2.
Proof.
  intros Hp. unfold sorted.
  apply (Sorted_unique Z.le _ _).
  - apply Sorted_merge_sort. apply _.
  - apply Sorted_merge_sort. apply _.
  - rewrite !merge_sort_Permutation. exact Hp.
Qed.

(** The comparison of the sorted lists is the comparison up to order. *)
Lemma sorted_eq_iff (l1 l2 : list Z) : sorted l1 = sorted l2 <-> l1 ≡ₚ l2.
Proof.
  split; [| apply sorted_Permutation].
  intros Heq. rewrite <- (merge_sort_Permutation Z.le l1), <- (merge_sort_Permutation Z.le l2).
  unfold sorted in Heq. rewrite Heq. reflexivity.
Qed.

(** Two lists without repetition that hold the same days are permutations
    of each other: on such lists the comparison is the equality of sets. *)
Lemma sorted_set_equal (l1 l2 : list Z) :
  NoDup l1 -> NoDup l2 -> (forall d, d ∈ l1 <-> d ∈ l2) -> sorted l1 = sorted l2.
Proof.
  intros Hn1 Hn2 Hsame. apply sorted_Permutation, NoDup_Permutation; assumption.
Qed.

Lemma current_reminders_concat event :
  current_reminders event = List.concat (map alarm_days (ev_alarms event)).
Proof. unfold current_reminders. destruct (ev_alarms event); reflexivity. Qed.

(** The alarms the client writes read back as the absolute values of the
    configured days. *)
Lemma make_alarms_read_back name days alarms :
  make_alarms self name days = Return alarms ->
  List.concat (map alarm_days alarms) = map Z.abs days.
Proof.
  revert alarms. induction days as [| d days IH]; intros alarms; simpl.
  - intros [= <-]. reflexivity.
  - unfold make_alarm, timedelta_days. unfold_res.
    destruct ((-999999999 <=? - d) && (- d <=? 999999999)); [| discriminate].
    destruct (_format_reminder_message self name d) as [message |]; [| discriminate].
    destruct (make_alarms self name days) as [rest |]; [| discriminate].
    intros [= <-]. simpl. rewrite (IH rest eq_refl).
    rewrite Z.abs_opp. reflexivity.
Qed.

Lemma abs_nonneg_days (days : list Z) :
  Forall (fun d => 0 <= d) days -> map Z.abs days = days.
Proof.
  induction 1 as [| d days Hd _ IH]; [reflexivity |].
  simpl. rewrite IH, Z.abs_eq by exact Hd. reflexivity.
Qed.

(** An event that carries the new title, the new description and the
    alarms just made needs no update, when no configured day is negative. *)
Lemma up_to_date_after_write name event title description alarms :
  Forall (fun d => 0 <= d) (reminder_days self) ->
  make_alarms self name (reminder_days self) = Return alarms ->
  ev_summary event = Some title ->
  ev_description event = Some description ->
  ev_alarms event = read_alarm <$> alarms ->
  up_to_date self event title description = true.
Proof.
  intros Hpos Hal Hs Hd Ha. unfold up_to_date. rewrite Hs, Hd. simpl.
  rewrite !bool_decide_eq_true_2 by reflexivity. simpl.
  apply bool_decide_eq_true_2.
  rewrite current_reminders_concat, Ha.
  replace (map alarm_days (read_alarm <$> alarms)) with (map alarm_days alarms)
    by (rewrite <- list_fmap_compose; reflexivity).
  rewrite (make_alarms_read_back _ _ _ Hal), (abs_nonneg_days _ Hpos). reflexivity.
Qed.

(** C8, amended. When the existing event carries the new title and the
    new description (an absent one reads as the empty string) and the days
    read from its alarms are the configured days in any order, each day as
    many times in the one list as in the other, the update path answers
    "no update needed": the outcome is [Skipped], the function returns
    [False] and the calendar is not written. The comparison is the
    equality of the two sorted lists, which holds exactly when one list is
    a permutation of the other; neither list is deduplicated. *)
Theorem reminder_order_independent (io : SinkIO) (cal : Calendar) (i : nat)
    (event : VEvent) (contact : Contact) (year : Z) (event_date : Date)
    (new_title new_description : string) :
  replace_year (birthday contact) year = Return event_date ->
  default EmptyString (ev_summary event) = new_title ->
  default EmptyString (ev_description event) = new_description ->
  current_reminders event ≡ₚ reminder_days self ->
  _update_existing_event self io cal (i, ICal event) contact year new_title new_description
    = (Skipped, cal) /\
  returned Skipped = false /\
  (sorted (current_reminders event) = sorted (reminder_days self)
   <-> current_reminders event ≡ₚ reminder_days self).
Proof.
  intros Hdate Ht Hd Hperm. split; [| split; [reflexivity | apply sorted_eq_iff]].
  unfold _update_existing_event. rewrite Hdate. unfold_res. simpl.
  unfold up_to_date. rewrite Ht, Hd.
  rewrite !bool_decide_eq_true_2 by reflexivity. simpl.
  rewrite bool_decide_eq_true_2 by (apply sorted_Permutation; exact Hperm).
  reflexivity.
Qed.

End Reminders.

Lemma reminder_order_independent_witness :
  _update_existing_event (H := Ref.py_str) ReminderScenario.week_and_day_client sink_ok
    [ICal ReminderScenario.stored_event] (0%nat, ICal ReminderScenario.stored_event)
    Scenario.bob 2025 "ðŸŽ‚ Bob's Birthday" "Birthday of Bob"
  = (Skipped, [ICal ReminderScenario.stored_event]) /\
  returned Skipped = false /\
  (sorted (current_reminders ReminderScenario.stored_event)
     = sorted (reminder_days ReminderScenario.week_and_day_client)
   <-> current_reminders ReminderScenario.stored_event
       ≡ₚ reminder_days ReminderScenario.week_and_day_client).
Proof.
  apply (reminder_order_independent (H := Ref.py_str) ReminderScenario.week_and_day_client
           sink_ok [ICal ReminderScenario.stored_event] 0 ReminderScenario.stored_event
           Scenario.bob 2025 (mkDate 2025 6 15)).
  - reflexivity.
  - reflexivity.
  - reflexivity.
  - change ([7; 1] ≡ₚ [1; 7]). apply Permutation_swap.
Defined.

(** C8 as stated fails for lists that hold the same days but not the
    same number of times. The stored event has the alarms of 7 and 1 days,
    the configuration lists 7, 1 and 7: the two lists are equal as sets,
    the sorted lists [1; 7] and [1; 7; 7] differ, and the event is
    rewritten, with three alarms. *)
Lemma repeated_day_is_updated :
  (forall d, d ∈ current_reminders ReminderScenario.stored_event
             <-> d ∈ reminder_days ReminderScenario.repeated_day_client) /\
  sorted (current_reminders ReminderScenario.stored_event) = [1; 7] /\
  sorted (reminder_days ReminderScenario.repeated_day_client) = [1; 7; 7] /\
  exists event,
    _update_existing_event (H := Ref.py_str) ReminderScenario.repeated_day_client sink_ok
      [ICal ReminderScenario.stored_event] (0%nat, ICal ReminderScenario.stored_event)
      Scenario.bob 2025 "ðŸŽ‚ Bob's Birthday" "Birthday of Bob"
    = (Updated, [ICal event]) /\
    ev_summary event = ev_summary ReminderScenario.stored_event /\
    ev_description event = ev_description ReminderScenario.stored_event /\
    length (ev_alarms event) = 3%nat.
Proof.
  split; [| split; [reflexivity | split; [reflexivity |]]].
  - intros d. change (d ∈ [7; 1] <-> d ∈ [7; 1; 7]).
    rewrite !list_elem_of_In. simpl. tauto.
  - eexists. split; [vm_compute; reflexivity |]. repeat split.
Qed.

(** ** Reconciling twice *)

Section Idempotence.
Context `{PyStr} `{CalDAVServer}.
Variable self : Client.

Lemma uid_matches_event_uid name event_date :
  uid_matches name (Some (event_uid name event_date)) = true.
Proof.
  unfold uid_matches, event_uid, expected_uid.
  rewrite <- StrFacts.append_assoc. apply StrFacts.startswith_app.
Qed.

(** The event a creation stores is a match for the next lookup, when its
    UID reads back as written. *)
Lemma event_matches_new_event name event_date dtend title description alarms :
  reads_back (event_uid name event_date) ->
  event_matches self name
    (ICal (read_back_new (new_event self name event_date dtend title description alarms)))
  = true.
Proof.
  intros Huid. unfold event_matches, read_back_new, read_back, new_event.
  cbn [ev_summary ev_uid fmap option_fmap option_map].
  rewrite Huid, uid_matches_event_uid. apply orb_true_r.
Qed.

Lemma event_matches_updated_event name event title description alarms :
  event_matches self name (ICal (read_back (updated_event self event title description alarms)))
  = summary_matches self name (read_text title) || uid_matches name (ev_uid event).
Proof. reflexivity. Qed.

(** The second call, once the lookup returns an event that is up to date. *)
Lemma create_skips_up_to_date io cal contact year event_date title description i event :
  replace_year (birthday contact) year = Return event_date ->
  str_format (event_title_template self) (name_kwargs (name contact)) = Return title ->
  str_format (event_description_template self) (name_kwargs (name contact)) = Return description ->
  _find_existing_event self io cal (name contact) event_date = Some (i, ICal event) ->
  up_to_date self event title description = true ->
  create_birthday_event self io cal contact year = (Skipped, cal).
Proof.
  intros Hd Ht Hdesc Hfind Hup. unfold create_birthday_event.
  rewrite Hd, Ht, Hdesc. unfold_res. rewrite Hfind.
  destruct (update_existing self); [| reflexivity].
  unfold _update_existing_event. rewrite Hd. unfold_res. simpl. rewrite Hup. reflexivity.
Qed.

(** C1, amended. With a configuration whose reminder days are not
    negative, a title and a description that read back as written (as
    every text without a carriage return does), and a server that answers
    the lookups, returns an all-day event for its own day and evaluates
    time ranges on the dates and the rule of an event, a first call that
    returns [Created] is followed by [Skipped] when the UID reads back
    as written; a first call that returns [Updated] is followed by
    [Skipped] when the event it wrote is still a match for the lookup, by
    its new title or by its UID. The second call writes nothing. *)
Theorem reconcile_idempotent (io1 io2 : SinkIO) (cal cal' : Calendar)
    (contact : Contact) (year : Z) (o : Outcome) :
  covers_own_day ->
  judges_by_dates ->
  answers_lookup io1 ->
  answers_lookup io2 ->
  Forall (fun d => 0 <= d) (reminder_days self) ->
  create_birthday_event self io1 cal contact year = (o, cal') ->
  o = Created \/ o = Updated ->
  (forall event_date title description,
      replace_year (birthday contact) year = Return event_date ->
      str_format (event_title_template self) (name_kwargs (name contact)) = Return title ->
      str_format (event_description_template self) (name_kwargs (name contact))
        = Return description ->
      reads_back title /\ reads_back description /\
      (o = Created -> reads_back (event_uid (name contact) event_date))) ->
  (forall event_date title i event,
      replace_year (birthday contact) year = Return event_date ->
      str_format (event_title_template self) (name_kwargs (name contact)) = Return title ->
      _find_existing_event self io1 cal (name contact) event_date = Some (i, ICal event) ->
      still_recognised self (name contact) title event) ->
  create_birthday_event self io2 cal' contact year = (Skipped, cal').
Proof.
  intros Hown Hdates Hio1 Hio2 Hpos Hfirst [-> | ->] Htexts Hrec.
  - (* Created: the new event is the first match of the second lookup *)
    apply create_Created_inv in Hfirst
      as (event_date & title & description & dtend & alarms
          & Hd & Ht & Hdesc & Hfind & Hend & Hal & _ & ->).
    destruct (Htexts event_date title description Hd Ht Hdesc) as (Htitle & Hdescr & Huid).
    specialize (Huid eq_refl).
    set (event := read_back_new
                    (new_event self (name contact) event_date dtend title description alarms)).
    rewrite (find_answered self io1 cal _ _ dtend Hend Hio1) in Hfind.
    rewrite scan_None in Hfind.
    apply (create_skips_up_to_date io2 _ contact year event_date title description
             (length cal) event Hd Ht Hdesc).
    + rewrite (find_answered self io2 _ _ _ dtend Hend Hio2).
      apply (scan_first self (name contact) event_date dtend 0 _ (length cal) (ICal event)).
      * rewrite lookup_app_r, Nat.sub_diag by lia. reflexivity.
      * pose proof (Hown event dtend Hend eq_refl) as Hin.
        change (ev_dtstart event) with event_date in Hin.
        unfold hit. rewrite Hin. apply event_matches_new_event. exact Huid.
      * intros j o Hlt Ho. apply (Hfind j o). rewrite lookup_app_l in Ho by exact Hlt. exact Ho.
    + apply (up_to_date_after_write self (name contact) event title description alarms);
        [exact Hpos | exact Hal | | | reflexivity].
      * unfold event, read_back_new, read_back, new_event.
        cbn [ev_summary fmap option_fmap option_map]. rewrite Htitle. reflexivity.
      * unfold event, read_back_new, read_back, new_event.
        cbn [ev_description fmap option_fmap option_map]. rewrite Hdescr. reflexivity.
  - (* Updated: the rewritten event is still the first match *)
    apply create_Updated_inv in Hfirst
      as (event_date & title & description & i & event & alarms
          & Hd & Ht & Hdesc & Hfind & _ & _ & Hal & _ & ->).
    destruct (Htexts event_date title description Hd Ht Hdesc) as (Htitle & Hdescr & _).
    specialize (Hrec event_date title i event Hd Ht Hfind).
    destruct (find_Some self io1 cal _ _ _ Hfind) as (stop & Hend & Hscan).
    destruct (scan_Some self _ _ _ _ _ _ _ Hscan) as (j & Hj & Hi & Hhit & Hbefore).
    simpl in Hj. subst j.
    set (event' := read_back (updated_event self event title description alarms)).
    apply (create_skips_up_to_date io2 _ contact year event_date title description
             i event' Hd Ht Hdesc).
    + rewrite (find_answered self io2 _ _ _ stop Hend Hio2).
      apply (scan_first self (name contact) event_date stop 0 _ i (ICal event')).
      * apply list_lookup_insert_eq. apply (lookup_lt_Some _ _ _ Hi).
      * unfold hit in *. apply andb_true_iff in Hhit as [Hin _].
        rewrite (Hdates event' event event_date stop eq_refl eq_refl eq_refl), Hin.
        unfold event'. rewrite event_matches_updated_event, Htitle.
        destruct Hrec as [-> | ->]; [reflexivity | apply orb_true_r].
      * intros j o Hlt Ho. apply (Hbefore j o Hlt).
        rewrite list_lookup_insert_ne in Ho by lia. exact Ho.
    + apply (up_to_date_after_write self (name contact) event' title description alarms);
        [exact Hpos | exact Hal | | | reflexivity].
      * unfold event', read_back, updated_event.
        cbn [ev_summary fmap option_fmap option_map]. rewrite Htitle. reflexivity.
      * unfold event', read_back, updated_event.
        cbn [ev_description fmap option_fmap option_map]. rewrite Hdescr. reflexivity.
Qed.

End Idempotence.

(** The reference server satisfies the two assumptions on the server. *)

Lemma add_one_day_later (d stop : Date) :
  add_one_day d = Return stop -> Ref.date_ltb d stop = true.
Proof.
  unfold add_one_day, Ref.date_ltb.
  destruct (day d <? days_in_month (year d) (month d)) eqn:E1;
    [| destruct (month d <? 12) eqn:E2; [| destruct (year d <? 9999) eqn:E3; [| discriminate]]];
    intros [= <-]; simpl;
    rewrite ?orb_true_iff, ?andb_true_iff, ?Z.ltb_lt, ?Z.eqb_eq; lia.
Qed.

Lemma ref_server_covers_own_day : covers_own_day (H0 := Ref.server).
Proof.
  intros ev stop Hstop Hend. simpl. rewrite Hend, (add_one_day_later _ _ Hstop). reflexivity.
Qed.

Lemma ref_server_judges_by_dates : judges_by_dates (H0 := Ref.server).
Proof. intros ev ev' start stop Hs He _. simpl. rewrite Hs, He. reflexivity. Qed.

Lemma reconcile_idempotent_witness :
  create_birthday_event (H := Ref.py_str) (H0 := Ref.server) Scenario.default_client sink_ok
    [ICal Scenario.bob_event] Scenario.bob 2025
  = (Skipped, [ICal Scenario.bob_event]) /\
  (IdempotenceScenario.party_updated.1 = Updated /\
   create_birthday_event (H := Ref.py_str) (H0 := Ref.server) Scenario.default_client sink_ok
     IdempotenceScenario.party_updated.2 Scenario.bob 2025
   = (Skipped, IdempotenceScenario.party_updated.2)).
Proof.
  split; [| split; [reflexivity |]].
  - apply (reconcile_idempotent (H := Ref.py_str) (H0 := Ref.server) Scenario.default_client
             sink_ok sink_ok [] [ICal Scenario.bob_event] Scenario.bob 2025 Created).
    + exact ref_server_covers_own_day.
    + exact ref_server_judges_by_dates.
    + left. reflexivity.
    + left. reflexivity.
    + repeat constructor. vm_compute. discriminate.
    + reflexivity.
    + left. reflexivity.
    + intros event_date title description Hd Ht Hdesc.
      vm_compute in Hd, Ht, Hdesc.
      injection Hd as <-. injection Ht as <-. injection Hdesc as <-.
      split; [vm_compute; reflexivity |].
      split; [vm_compute; reflexivity | intros _; vm_compute; reflexivity].
    + intros event_date title i event Hd _ Hfind.
      vm_compute in Hd. injection Hd as <-. vm_compute in Hfind. discriminate.
  - apply (reconcile_idempotent (H := Ref.py_str) (H0 := Ref.server) Scenario.default_client
             sink_ok sink_ok [ICal IdempotenceScenario.party]
             IdempotenceScenario.party_updated.2 Scenario.bob 2025 Updated).
    + exact ref_server_covers_own_day.
    + exact ref_server_judges_by_dates.
    + left. reflexivity.
    + left. reflexivity.
    + repeat constructor. vm_compute. discriminate.
    + reflexivity.
    + right. reflexivity.
    + intros event_date title description Hd Ht Hdesc.
      vm_compute in Hd, Ht, Hdesc.
      injection Hd as <-. injection Ht as <-. injection Hdesc as <-.
      split; [vm_compute; reflexivity |].
      split; [vm_compute; reflexivity | intros _; vm_compute; reflexivity].
    + intros event_date title i event _ Ht _.
      vm_compute in Ht. injection Ht as <-. left. reflexivity.
Defined.

(** C1 as stated fails. With the title template "{name}", the first call
    finds the party event by its summary and updates it; its new summary
    "Bob" no longer passes the test and its UID has not the prefix, so the
    second call finds nothing and creates a second event. With the reminder
    day -1, the first call creates the event and the second call, which
    reads the day back as 1, updates it again. With a title that ends with
    a carriage return, which the store gives back as a line feed, the
    second call finds the title changed and updates the event, and so does
    every later call. *)
Lemma second_call_writes_again :
  (exists cal1 cal2,
      create_birthday_event (H := Ref.py_str) (H0 := Ref.server)
        IdempotenceScenario.name_only_client sink_ok [ICal IdempotenceScenario.party]
        Scenario.bob 2025 = (Updated, cal1) /\
      create_birthday_event (H := Ref.py_str) (H0 := Ref.server)
        IdempotenceScenario.name_only_client sink_ok cal1 Scenario.bob 2025 = (Created, cal2) /\
      length cal1 = 1%nat /\ length cal2 = 2%nat) /\
  (exists cal1,
      create_birthday_event (H := Ref.py_str) (H0 := Ref.server)
        IdempotenceScenario.day_after_client sink_ok [] Scenario.bob 2025 = (Created, cal1) /\
      create_birthday_event (H := Ref.py_str) (H0 := Ref.server)
        IdempotenceScenario.day_after_client sink_ok cal1 Scenario.bob 2025 = (Updated, cal1)) /\
  (exists cal1,
      create_birthday_event (H := Ref.py_str) (H0 := Ref.server)
        IdempotenceScenario.carriage_return_client sink_ok [] Scenario.bob 2025
      = (Created, cal1) /\
      create_birthday_event (H := Ref.py_str) (H0 := Ref.server)
        IdempotenceScenario.carriage_return_client sink_ok cal1 Scenario.bob 2025
      = (Updated, cal1)).
Proof.
  split; [| split].
  - do 2 eexists. split; [vm_compute; reflexivity |]. split; [vm_compute; reflexivity |].
    split; reflexivity.
  - eexists. split; vm_compute; reflexivity.
  - eexists. split; vm_compute; reflexivity.
Qed.

(** ** Occurrences and [replace] *)

Module ReplaceFacts.
Import Str StrFacts.

Lemma startswith_empty p : p <> EmptyString -> startswith p EmptyString = false.
Proof. destruct p; [congruence | reflexivity]. Qed.

Lemma startswith_app_l p a b : startswith p a = true -> startswith p (a +:+ b) = true.
Proof.
  rewrite !startswith_spec. intros [t ->]. exists (t +:+ b). apply append_assoc.
Qed.

Lemma contains_cons p c s :
  contains p (String c s) = startswith p (String c s) || contains p s.
Proof. reflexivity. Qed.

Lemma contains_empty p : contains p EmptyString = startswith p EmptyString.
Proof. simpl. apply orb_false_r. Qed.

Lemma contains_app_r p a b : contains p b = true -> contains p (a +:+ b) = true.
Proof.
  intros Hb. induction a as [| c a IH]; [exact Hb |].
  rewrite append_cons, contains_cons, IH. apply orb_true_r.
Qed.

Lemma contains_app_l p a b : contains p a = true -> contains p (a +:+ b) = true.
Proof.
  induction a as [| c a IH].
  - rewrite contains_empty. intros Hp. destruct p; [| discriminate].
    destruct b; reflexivity.
  - rewrite append_cons, !contains_cons. intros Hc.
    apply orb_true_iff in Hc as [Hs | Hc].
    + apply (startswith_app_l p (String c a) b) in Hs. rewrite append_cons in Hs.
      rewrite Hs. reflexivity.
    + rewrite (IH Hc). apply orb_true_r.
Qed.

(** An occurrence of a pattern holds an occurrence of each of its prefixes. *)
Lemma contains_prefix p q s : contains (p +:+ q) s = true -> contains p s = true.
Proof.
  induction s as [| c s IH].
  - rewrite !contains_empty. destruct p; [reflexivity | discriminate].
  - rewrite !contains_cons. intros Hc. apply orb_true_iff in Hc as [Hs | Hc].
    + apply startswith_spec in Hs as [t Ht].
      assert (Hp : startswith p (String c s) = true).
      { apply startswith_spec. exists (q +:+ t). rewrite Ht. apply append_assoc. }
      rewrite Hp. reflexivity.
    + rewrite (IH Hc). apply orb_true_r.
Qed.

Section Replace.
Variables old new : string.
Hypothesis old_not_empty : old <> EmptyString.

Lemma replace_from_skip k u v :
  String.length u = k -> replace_from old new k (u +:+ v) = replace_from old new 0 v.
Proof.
  revert k. induction u as [| c u IH]; intros k Hk; simpl in Hk; subst k; [reflexivity |].
  rewrite append_cons. simpl. apply IH. reflexivity.
Qed.

Lemma replace_unfold s : replace old new s = replace_from old new 0 s.
Proof. unfold replace. destruct old; [congruence | reflexivity]. Qed.

Lemma replace_empty : replace old new EmptyString = EmptyString.
Proof. rewrite replace_unfold. reflexivity. Qed.

(** At an occurrence, the scan writes [new] and resumes after it. *)
Lemma replace_hit v : replace old new (old +:+ v) = new +:+ replace old new v.
Proof.
  rewrite !replace_unfold. destruct old as [| c o] eqn:Eold; [congruence |].
  rewrite append_cons. cbn [replace_from].
  rewrite <- append_cons, startswith_app. f_equal.
  rewrite <- Eold. apply replace_from_skip. rewrite Eold. reflexivity.
Qed.

(** Elsewhere it copies the character. *)
Lemma replace_miss c s :
  startswith old (String c s) = false ->
  replace old new (String c s) = String c (replace old new s).
Proof. rewrite !replace_unfold. intros Hs. cbn [replace_from]. rewrite Hs. reflexivity. Qed.

(** The first occurrence splits the text: nothing changes before it. *)
Lemma replace_decompose s :
  (contains old s = false /\ replace old new s = s) \/
  (exists u v, s = u +:+ old +:+ v /\ contains old u = false /\
               replace old new s = u +:+ new +:+ replace old new v).
Proof.
  induction s as [| c s IH].
  - left. rewrite contains_empty, replace_empty, startswith_empty by exact old_not_empty. auto.
  - destruct (startswith old (String c s)) eqn:Hs.
    + right. apply startswith_spec in Hs as [v Hv]. exists EmptyString, v.
      rewrite Hv, replace_hit, contains_empty, startswith_empty by exact old_not_empty. auto.
    + rewrite (replace_miss c s Hs), contains_cons, Hs. simpl.
      destruct IH as [[Hno Hsame] | (u & v & Hsplit & Hno & Hrep)].
      * left. rewrite Hno, Hsame. auto.
      * right. exists (String c u), v. rewrite Hrep, Hsplit, contains_cons, Hno.
        repeat split. rewrite orb_false_r.
        destruct (startswith old (String c u)) eqn:Hu; [| reflexivity].
        rewrite Hsplit, <- append_cons in Hs.
        rewrite (startswith_app_l old (String c u) (old +:+ v) Hu) in Hs. discriminate.
Qed.

Section Inserted.
Variable pat : string.
(** What may follow an inserted [new] for an occurrence of [pat] to begin
    inside it. *)
Variable completes : string -> bool.

Hypothesis Hstraddle : no_straddle new pat.
Hypothesis Hinside : starts_inside new pat completes.

Lemma contains_inserted a b :
  contains pat (a +:+ new +:+ b) = true ->
  contains pat a = true \/ contains pat b = true \/ completes b = true.
Proof.
  induction a as [| c a IH].
  - intros Hc. right. apply Hinside. exact Hc.
  - rewrite append_cons, contains_cons. intros Hc. apply orb_true_iff in Hc as [Hs | Hc].
    + left. rewrite contains_cons. rewrite <- append_cons in Hs.
      rewrite (Hstraddle c a b Hs). reflexivity.
    + destruct (IH Hc) as [Ha | Hb]; [| right; exact Hb].
      left. rewrite contains_cons, Ha. apply orb_true_r.
Qed.

(** A pattern absent from the text and never completed by an insertion is
    absent from the result. *)
Lemma replace_preserves_absence :
  (forall b, completes b = false) ->
  forall s, contains pat s = false -> contains pat (replace old new s) = false.
Proof.
  intros Hnever s. remember (String.length s) as n eqn:Hn. revert s Hn.
  induction n as [n IH] using lt_wf_ind. intros s -> Habsent.
  destruct (replace_decompose s) as [[_ ->] | (u & v & -> & _ & ->)]; [exact Habsent |].
  destruct (contains pat (u +:+ new +:+ replace old new v)) eqn:Hc; [| reflexivity].
  apply contains_inserted in Hc as [Hu | [Hv | He]].
  - rewrite (contains_app_l pat u (old +:+ v) Hu) in Habsent. discriminate.
  - rewrite (IH (String.length v)) in Hv; [discriminate | | reflexivity |].
    + rewrite !length_append. destruct old; [congruence | simpl; lia].
    + destruct (contains pat v) eqn:Hv'; [| reflexivity].
      rewrite (contains_app_r pat u (old +:+ v)) in Habsent; [discriminate |].
      apply contains_app_r. exact Hv'.
  - rewrite Hnever in He. discriminate.
Qed.

End Inserted.

(** An occurrence of [old] in the result was completed by what follows
    some replaced occurrence. *)
Lemma replace_leaves_old (completes : string -> bool) :
  no_straddle new old -> starts_inside new old completes ->
  forall s, contains old (replace old new s) = true ->
  exists u v, s = u +:+ old +:+ v /\ completes (replace old new v) = true.
Proof.
  intros Hstraddle Hinside s. remember (String.length s) as n eqn:Hn. revert s Hn.
  induction n as [n IH] using lt_wf_ind. intros s -> Hc.
  destruct (replace_decompose s) as [[Hno Hsame] | (u & v & -> & Hu & Hrep)].
  - rewrite Hsame in Hc. congruence.
  - rewrite Hrep in Hc.
    apply (contains_inserted old completes Hstraddle Hinside) in Hc as [Hc | [Hc | Hc]].
    + congruence.
    + destruct (IH (String.length v)) with (s := v) as (u2 & v2 & -> & He); auto.
      * rewrite !length_append. destruct old; [congruence | simpl; lia].
      * exists (u +:+ old +:+ u2), v2. split; [| exact He].
        rewrite !append_assoc. reflexivity.
    + exists u, v. auto.
Qed.

End Replace.

End ReplaceFacts.

(** ** Texts that read back as written *)

Lemma replace_absent old new s :
  old <> EmptyString -> Str.contains old s = false -> Str.replace old new s = s.
Proof.
  intros Hne Hno.
  destruct (ReplaceFacts.replace_decompose old new Hne s) as [[_ Hs] | (u & v & -> & _ & _)];
    [exact Hs |].
  rewrite ReplaceFacts.contains_app_r in Hno; [discriminate |].
  pose proof (StrFacts.startswith_app old v) as Hs.
  destruct (old +:+ v); simpl; rewrite Hs; reflexivity.
Qed.

(** A text without a carriage return reads back from the store as it was
    written. *)
Lemma reads_back_without_carriage_return s :
  Str.contains (String (ascii_of_nat 13) EmptyString) s = false -> reads_back s.
Proof.
  intros Hno. unfold reads_back, read_text.
  rewrite (replace_absent (String (ascii_of_nat 13) (String (ascii_of_nat 10) EmptyString)));
    [apply replace_absent; [discriminate | exact Hno] | discriminate |].
  destruct (Str.contains (String (ascii_of_nat 13) (String (ascii_of_nat 10) EmptyString)) s)
    eqn:Hc; [| reflexivity].
  apply (ReplaceFacts.contains_prefix (String (ascii_of_nat 13) EmptyString)
           (String (ascii_of_nat 10) EmptyString)) in Hc.
  congruence.
Qed.

(** ** Reminder messages: the corrections *)

Module MessageFacts.
Import Str StrFacts ReplaceFacts.

(** Decide a comparison of a pattern with a text whose first characters
    are known. *)
Ltac compare_heads :=
  rewrite ?append_cons, ?append_nil_l; cbn [startswith contains];
  repeat match goal with
         | |- context [Ascii.eqb ?x ?y] => is_var y; destruct (Ascii.eqb x y)
         end;
  simpl; try discriminate; auto.

(** [no_straddle] for a pattern of at most ten characters. *)
Ltac prove_no_straddle :=
  let c := fresh "c" in let a := fresh "a" in let b := fresh "b" in
  intros c a b;
  do 10 (destruct a as [| ? a]; [solve [compare_heads] |]);
  compare_heads.

Lemma today_no_straddle : no_straddle "today" "in 0 days".
Proof. prove_no_straddle. Qed.

Lemma today_starts_inside : starts_inside "today" "in 0 days" (fun _ => false).
Proof. intros b. rewrite ?append_cons, append_nil_l. simpl. auto. Qed.

Lemma is_today_no_straddle : no_straddle "is today" "in 0 days".
Proof. prove_no_straddle. Qed.

Lemma is_today_starts_inside : starts_inside "is today" "in 0 days" (fun _ => false).
Proof. intros b. rewrite ?append_cons, append_nil_l. simpl. auto. Qed.

Lemma one_day_no_straddle : no_straddle "1 day" "1 days".
Proof. prove_no_straddle. Qed.

Lemma one_day_starts_inside : starts_inside "1 day" "1 days" (startswith "s").
Proof.
  intros b. rewrite ?append_cons, append_nil_l. cbn [contains startswith]. simpl.
  intros Hc. apply orb_true_iff in Hc as [Hs | Hc]; auto.
Qed.

(** After the three replacements of the [days_before == 0] branch, the
    text holds no "in 0 days". *)
Lemma normalize_today_clean message :
  contains "in 0 days" (normalize_today message) = false.
Proof.
  unfold normalize_today.
  apply (replace_preserves_absence "is in today" "is today" ltac:(discriminate)
           "in 0 days" (fun _ => false) is_today_no_straddle is_today_starts_inside);
    [reflexivity |].
  apply (replace_preserves_absence "in 0 day" "today" ltac:(discriminate)
           "in 0 days" (fun _ => false) today_no_straddle today_starts_inside);
    [reflexivity |].
  destruct (contains "in 0 days" (replace "in 0 days" "today" message)) eqn:Hc; [| reflexivity].
  apply (replace_leaves_old "in 0 days" "today" ltac:(discriminate) (fun _ => false)
           today_no_straddle today_starts_inside) in Hc as (u & v & _ & Hfalse).
  discriminate.
Qed.

Lemma replace_starts_with_s v :
  startswith "s" (replace "1 days" "1 day" v) = true -> startswith "s" v = true.
Proof.
  destruct v as [| c v]; [discriminate |].
  destruct (startswith "1 days" (String c v)) eqn:Hs.
  - apply startswith_spec in Hs as [t ->].
    rewrite (replace_hit "1 days" "1 day" ltac:(discriminate)). discriminate.
  - rewrite (replace_miss "1 days" "1 day" ltac:(discriminate) c v Hs). auto.
Qed.

(** After the correction of the [days_before == 1] branch, a "1 days" is
    left only where the text had "1 dayss". *)
Lemma fix_plural_clean message :
  contains "1 days" (replace "1 days" "1 day" message) = true ->
  contains "1 dayss" message = true.
Proof.
  intros Hc.
  apply (replace_leaves_old "1 days" "1 day" ltac:(discriminate) (startswith "s")
           one_day_no_straddle one_day_starts_inside) in Hc as (u & v & -> & Hs).
  apply replace_starts_with_s, startswith_spec in Hs as [t ->].
  apply contains_app_r.
  change "1 dayss" with ("1 days" +:+ "s"). rewrite <- append_assoc.
  destruct ("1 days" +:+ "s") eqn:E; [discriminate |]. rewrite <- E.
  assert (Hp : startswith ("1 days" +:+ "s") (("1 days" +:+ "s") +:+ t) = true)
    by apply startswith_app.
  destruct (("1 days" +:+ "s") +:+ t) eqn:E2; [rewrite E in Hp; discriminate |].
  rewrite contains_cons, Hp. reflexivity.
Qed.

End MessageFacts.

Section Messages.
Context `{PyStr}.
Variable self : Client.

(** C5, amended. With [days_before = 0] and a template without "{days}",
    the message is exactly "Today is <name>'s birthday!". With
    [days_before = 0] and a template with "{days}" that renders, the
    message is the rendered text after the three replacements and never
    contains "in 0 days" (other occurrences of "0 days" stay). With
    [days_before = 1] and a template that renders, the message is the
    rendered text with "1 days" replaced by "1 day", and contains "1 days"
    only if the rendered text contained "1 dayss". *)
Theorem reminder_message_normalized (name message : string) :
  (Str.contains "{days}" (reminder_template self) = false ->
   _format_reminder_message self name 0 = Return ("Today is " +:+ name +:+ "'s birthday!")) /\
  (Str.contains "{days}" (reminder_template self) = true ->
   str_format (reminder_template self) (reminder_kwargs name 0) = Return message ->
   _format_reminder_message self name 0 = Return (normalize_today message) /\
   Str.contains "in 0 days" (normalize_today message) = false) /\
  (str_format (reminder_template self) (reminder_kwargs name 1) = Return message ->
   _format_reminder_message self name 1 = Return (Str.replace "1 days" "1 day" message) /\
   (Str.contains "1 dayss" message = false ->
    Str.contains "1 days" (Str.replace "1 days" "1 day" message) = false)).
Proof.
  unfold _format_reminder_message, format_reminder_try. simpl.
  split; [| split].
  - intros ->. reflexivity.
  - intros -> ->. split; [reflexivity | apply MessageFacts.normalize_today_clean].
  - intros ->. split; [reflexivity |]. intros Hclean.
    destruct (Str.contains "1 days" _) eqn:Hc; [| reflexivity].
    apply MessageFacts.fix_plural_clean in Hc. congruence.
Qed.

End Messages.

Lemma reminder_message_normalized_witness :
  _format_reminder_message (H := Ref.py_str) Scenario.default_client "Bob" 1
    = Return (Str.replace "1 days" "1 day" "Reminder: Bob's birthday is in 1 days!") /\
  Str.contains "1 days" (Str.replace "1 days" "1 day" "Reminder: Bob's birthday is in 1 days!")
    = false.
Proof.
  destruct (reminder_message_normalized (H := Ref.py_str) Scenario.default_client "Bob"
              "Reminder: Bob's birthday is in 1 days!") as (_ & _ & Hone).
  destruct (Hone eq_refl) as [Hmsg Hclean].
  split; [exact Hmsg | apply Hclean; reflexivity].
Defined.

(** The default template on the day itself. *)
Example default_message_today :
  _format_reminder_message (H := Ref.py_str) Scenario.default_client "Bob" 0
  = Return "Reminder: Bob's birthday is today!".
Proof. reflexivity. Qed.

(** C5 as stated fails. A countdown template leaves "0 days" in the
    message of the day itself: only "in 0 days" and "in 0 day" are
    replaced. A rendered text with "1 dayss" gives a message with
    "1 days". *)
Lemma zero_days_stay_in_message :
  (_format_reminder_message (H := Ref.py_str) MessageScenario.countdown_client "Bob" 0
     = Return "0 days until Bob's birthday!" /\
   Str.contains "0 days" "0 days until Bob's birthday!" = true) /\
  (_format_reminder_message (H := Ref.py_str) MessageScenario.doubled_client "Bob" 1
     = Return "Bob's birthday: 1 days to go" /\
   Str.contains "1 days" "Bob's birthday: 1 days to go" = true).
Proof. repeat split. Qed.

(** * Further properties *)

(** ** Birthdays and event dates *)

Lemma make_date_valid y m d r :
  make_date y m d = Return r -> valid_date (year r) (month r) (day r) = true.
Proof.
  unfold make_date. destruct (valid_date y m d) eqn:E; [| discriminate].
  intros [= <-]. exact E.
Qed.

Lemma split_nonempty sep s : Str.split sep s <> [].
Proof.
  destruct s as [| c s]; simpl; [discriminate |].
  destruct (Ascii.eqb c sep); [discriminate |].
  destruct (Str.split sep s); discriminate.
Qed.

(** A text that begins with another character than the separator has a
    first field that begins with this character. *)
Lemma split_head sep c s :
  Ascii.eqb c sep = false -> exists w ws, Str.split sep (String c s) = String c w :: ws.
Proof.
  intros Hc. simpl. rewrite Hc.
  destruct (Str.split sep s) as [| w ws] eqn:E; [destruct (split_nonempty _ _ E) |]. eauto.
Qed.

(** The first character of a text begins with its first byte. *)
Lemma chars_head c s : exists ch rest, Str.chars (String c s) = String c ch :: rest.
Proof.
  simpl. destruct (Str.chars s) as [| [| b r] rest]; [eauto | eauto |].
  destruct (Str.is_continuation b); eauto.
Qed.

Section Birthdays.
Context `{UnicodeData}.

Lemma date_of_tokens_valid y m d r :
  VCard.date_of_tokens y m d = Return r -> valid_date (year r) (month r) (day r) = true.
Proof.
  unfold VCard.date_of_tokens.
  destruct y; [| discriminate]. destruct m; [| discriminate]. destruct d; [| discriminate].
  apply make_date_valid.
Qed.

Lemma strptime_Y_m_d_valid s r :
  VCard.strptime_Y_m_d s = Return r -> valid_date (year r) (month r) (day r) = true.
Proof.
  unfold VCard.strptime_Y_m_d.
  destruct (Str.split "-" s) as [| y [| m [| d [| ? ?]]]]; try discriminate.
  apply date_of_tokens_valid.
Qed.

Lemma strptime_m_d_Y_valid s r :
  VCard.strptime_m_d_Y s = Return r -> valid_date (year r) (month r) (day r) = true.
Proof.
  unfold VCard.strptime_m_d_Y.
  destruct (Str.split "/" s) as [| y [| m [| d [| ? ?]]]]; try discriminate.
  apply date_of_tokens_valid.
Qed.

Lemma strptime_d_m_Y_valid s r :
  VCard.strptime_d_m_Y s = Return r -> valid_date (year r) (month r) (day r) = true.
Proof.
  unfold VCard.strptime_d_m_Y.
  destruct (Str.split "/" s) as [| y [| m [| d [| ? ?]]]]; try discriminate.
  apply date_of_tokens_valid.
Qed.

Lemma strptime_Ymd_valid s r :
  VCard.strptime_Ymd s = Return r -> valid_date (year r) (month r) (day r) = true.
Proof.
  unfold VCard.strptime_Ymd.
  destruct (Str.chars s) as [| ? [| ? [| ? [| ? [| ? [| ? [| ? [| ? [| ? ?]]]]]]]]];
    try discriminate.
  apply date_of_tokens_valid.
Qed.

(** The birthday of a contact is a date of the calendar. *)
Lemma parse_bday_valid b d :
  VCard.parse_bday b = Some d -> valid_date (year d) (month d) (day d) = true.
Proof.
  unfold VCard.parse_bday.
  set (clean := default EmptyString (head (Str.split "T" (Str.strip b)))).
  destruct ((Str.len clean =? 8)%nat && VCard.isdigit clean).
  { destruct (VCard.strptime_Ymd clean) eqn:E; [| discriminate].
    intros [= <-]. eapply strptime_Ymd_valid; eauto. }
  destruct ((Str.len clean =? 10)%nat && (Str.count_char "-" clean =? 2)%nat).
  { destruct (VCard.strptime_Y_m_d clean) eqn:E; [| discriminate].
    intros [= <-]. eapply strptime_Y_m_d_valid; eauto. }
  destruct ((Str.len clean =? 10)%nat && (Str.count_char "/" clean =? 2)%nat).
  { destruct (VCard.strptime_m_d_Y clean) as [r | e] eqn:E.
    - intros [= <-]. eapply strptime_m_d_Y_valid; eauto.
    - destruct e; try discriminate.
      destruct (VCard.strptime_d_m_Y clean) eqn:E2; [| discriminate].
      intros [= <-]. eapply strptime_d_m_Y_valid; eauto. }
  destruct (Str.startswith "--" clean); [| discriminate].
  destruct (VCard.strptime_Y_m_d _) eqn:E; [| discriminate].
  intros [= <-]. eapply strptime_Y_m_d_valid; eauto.
Qed.

Lemma parse_vcard_inv v c :
  VCard._parse_vcard v = Some c ->
  exists b, VCard.bday v = Some b /\ VCard.parse_bday b = Some (birthday c).
Proof.
  unfold VCard._parse_vcard. destruct (VCard.bday v) as [b |]; [| discriminate].
  destruct (VCard.parse_bday b) as [d |] eqn:Hb; [| discriminate].
  intros [= <-]. eauto.
Qed.

Lemma date_of_tokens_year y m d r :
  VCard.date_of_tokens (Some y) m d = Return r -> year r = y.
Proof.
  unfold VCard.date_of_tokens, make_date.
  destruct m; [| discriminate]. destruct d; [| discriminate].
  destruct (valid_date _ _ _); [| discriminate]. intros [= <-]. reflexivity.
Qed.

(** A text that begins with a hyphen is not a number, a month or a day. *)
Lemma isdigit_hyphen s : VCard.isdigit (String "-" s) = false.
Proof.
  unfold VCard.isdigit. destruct (chars_head "-" s) as (ch & rest & ->). reflexivity.
Qed.

(** X2. A birthday written without a year, that is a text that begins
    with "--" once stripped and cut at "T", is stored with the year 2000 or
    not at all. *)
Theorem yearless_birthday_year (bday : string) (d : Date) :
  Str.startswith "--" (bday_clean bday) = true ->
  VCard.parse_bday bday = Some d ->
  year d = 2000.
Proof.
  unfold VCard.parse_bday. fold (bday_clean bday).
  intros Hs. destruct (bday_clean bday) as [| c1 [| c2 r]]; cbn [Str.startswith] in Hs;
    [discriminate | rewrite andb_false_r in Hs; discriminate |].
  apply andb_true_iff in Hs as [H1 Hs]. apply andb_true_iff in Hs as [H2 _].
  apply Ascii.eqb_eq in H1, H2. subst c1 c2.
  set (clean := String "-" (String "-" r)).
  assert (Hdigit : VCard.isdigit clean = false) by apply isdigit_hyphen.
  rewrite Hdigit, andb_false_r.
  destruct ((Str.len clean =? 10)%nat && (Str.count_char "-" clean =? 2)%nat).
  { unfold VCard.strptime_Y_m_d, clean. simpl Str.split.
    destruct (Str.split "-" r) as [| d0 [| ? ?]]; discriminate. }
  destruct ((Str.len clean =? 10)%nat && (Str.count_char "/" clean =? 2)%nat).
  { destruct (split_head "/" "-" (String "-" r) eq_refl) as (w & ws & Hsplit).
    unfold VCard.strptime_m_d_Y, VCard.strptime_d_m_Y. fold clean in Hsplit. rewrite Hsplit.
    destruct ws as [| t2 [| t3 [| ? ?]]]; try discriminate.
    assert (Hm : VCard.month_token (String "-" w) = None) by reflexivity.
    assert (Hd : VCard.day_token (String "-" w) = None) by reflexivity.
    rewrite Hm, Hd. unfold VCard.date_of_tokens.
    destruct (VCard.year_token t3); [destruct (VCard.month_token t2) |]; discriminate. }
  change (Str.startswith "--" clean) with true. cbv iota.
  unfold clean. simpl String.length. simpl String.substring.
  rewrite Nat.sub_0_r.
  destruct (VCard.strptime_Y_m_d _) as [d' |] eqn:E; [| discriminate].
  intros [= <-]. revert E. unfold VCard.strptime_Y_m_d.
  rewrite !StrFacts.append_cons, StrFacts.append_nil_l.
  simpl Str.split.
  destruct (Str.split "-" _) as [| m [| d0 [| ? ?]]]; try discriminate.
  change (VCard.year_token "2000") with (Some 2000).
  apply date_of_tokens_year.
Qed.

End Birthdays.

Lemma yearless_birthday_year_witness : year (mkDate 2000 2 29) = 2000.
Proof.
  apply (yearless_birthday_year (H := Ref.unicode) " --02-29 " (mkDate 2000 2 29)); reflexivity.
Defined.

Lemma days_in_month_other y y' m : m <> 2 -> days_in_month y m = days_in_month y' m.
Proof.
  intros Hm. unfold days_in_month.
  destruct (m =? 2) eqn:E; [apply Z.eqb_eq in E; contradiction | reflexivity].
Qed.

(** X3. For a birthday that is a date of the calendar and a year from 1 to
    9999, the event date fails to exist in exactly one case: the 29th of
    February in a year that is not a leap year. Whenever the event date
    does not exist, the reconciliation fails with the [ValueError] of
    [replace], before any lookup, and the calendar is not written. *)
Theorem leap_day_birthday `{PyStr} `{CalDAVServer} (self : Client) (io : SinkIO)
    (cal : Calendar) (contact : Contact) (y : Z) :
  valid_date (year (birthday contact)) (month (birthday contact)) (day (birthday contact))
    = true ->
  1 <= y <= 9999 ->
  let leap_day := (month (birthday contact) =? 2) && (day (birthday contact) =? 29) in
  replace_year (birthday contact) y
    = (if leap_day && negb (is_leap y) then Raise ValueError
       else Return (mkDate y (month (birthday contact)) (day (birthday contact)))) /\
  (leap_day && negb (is_leap y) = true ->
   create_birthday_event self io cal contact y = (Failed ValueError, cal)).
Proof.
  intros Hvalid Hy leap_day.
  assert (Hrep : replace_year (birthday contact) y
                 = (if leap_day && negb (is_leap y) then Raise ValueError
                    else Return (mkDate y (month (birthday contact)) (day (birthday contact))))).
  { unfold leap_day, replace_year, make_date.
    destruct (birthday contact) as [y0 m d]. simpl in *.
    unfold valid_date in *.
    repeat (apply andb_true_iff in Hvalid as [Hvalid ?]).
    repeat match goal with H : (_ <=? _) = true |- _ => apply Z.leb_le in H end.
    assert (Hrange : (1 <=? y) && (y <=? 9999) && (1 <=? m) && (m <=? 12) && (1 <=? d) = true).
    { repeat (apply andb_true_iff; split); apply Z.leb_le; lia. }
    rewrite Hrange. simpl.
    destruct (m =? 2) eqn:Em; simpl.
    - apply Z.eqb_eq in Em. subst m. unfold days_in_month in *. simpl in *.
      destruct (d =? 29) eqn:Ed; simpl.
      + apply Z.eqb_eq in Ed. subst d.
        destruct (is_leap y); reflexivity.
      + apply Z.eqb_neq in Ed.
        assert (Hd : d <= 28) by (destruct (is_leap y0); lia).
        replace (d <=? (if is_leap y then 29 else 28)) with true; [reflexivity |].
        symmetry. apply Z.leb_le. destruct (is_leap y); lia.
    - apply Z.eqb_neq in Em. rewrite (days_in_month_other y y0 m Em).
      replace (d <=? days_in_month y0 m) with true; [reflexivity |].
      symmetry. apply Z.leb_le. lia. }
  split; [exact Hrep |].
  intros Hfail. rewrite Hfail in Hrep.
  unfold create_birthday_event. rewrite Hrep. reflexivity.
Qed.

Lemma leap_day_birthday_witness :
  replace_year (birthday Scenario.eve) 2025 = Raise ValueError /\
  create_birthday_event (H := Ref.py_str) (H0 := Ref.server) Scenario.default_client sink_ok
    [ICal Scenario.bob_event] Scenario.eve 2025
  = (Failed ValueError, [ICal Scenario.bob_event]).
Proof.
  destruct (leap_day_birthday (H := Ref.py_str) (H0 := Ref.server) Scenario.default_client
              sink_ok [ICal Scenario.bob_event] Scenario.eve 2025) as [Hrep Hfail].
  - reflexivity.
  - lia.
  - split; [exact Hrep | apply Hfail; reflexivity].
Defined.

(** ** What a reconciliation writes *)

Section ReconcilerFrame.
Context `{PyStr} `{CalDAVServer}.
Variable self : Client.

Lemma create_not_written io cal contact year o cal' :
  create_birthday_event self io cal contact year = (o, cal') ->
  returned o = false -> cal' = cal.
Proof.
  unfold create_birthday_event, save_event. unfold_res. intros Hc Hret.
  destruct (replace_year _ _) as [event_date |]; [| inversion Hc; reflexivity].
  destruct (str_format (event_title_template self) _); [| inversion Hc; reflexivity].
  destruct (str_format (event_description_template self) _); [| inversion Hc; reflexivity].
  destruct (_find_existing_event _ _ _ _ _) as [existing |].
  - destruct (update_existing self); [| inversion Hc; reflexivity].
    apply update_outcome in Hc as [[_ ->] | [(e & _ & ->) | (? & ? & -> & _)]];
      [reflexivity | reflexivity | discriminate].
  - destruct (add_one_day event_date); [| inversion Hc; reflexivity].
    destruct (make_alarms _ _ _); [| inversion Hc; reflexivity].
    destruct (save_raises io); inversion Hc; subst; [reflexivity | discriminate].
Qed.

(** X4. A reconciliation never removes an event and writes at most one.
    When it returns [False] (skipped or failed) the calendar is as before.
    When it creates, the calendar is the old one followed by one new event
    that carries the deterministic UID, as it reads back from the store
    (a carriage return of the name reads as a line feed), and the yearly
    rule. When it
    updates, one event that was in the calendar is replaced in place by an
    event with the same UID, dates and recurrence rule; every other event
    is as before. *)
Theorem reconcile_frame (io : SinkIO) (cal cal' : Calendar) (contact : Contact)
    (year : Z) (o : Outcome) :
  create_birthday_event self io cal contact year = (o, cal') ->
  (returned o = false -> cal' = cal) /\
  (o = Created ->
   exists event_date ev,
     replace_year (birthday contact) year = Return event_date /\
     cal' = (cal ++ [ICal ev])%list /\
     ev_uid ev = Some (read_text (event_uid (name contact) event_date)) /\
     (reads_back (event_uid (name contact) event_date) ->
      ev_uid ev = Some (event_uid (name contact) event_date)) /\
     ev_dtstart ev = event_date /\ ev_rrule ev = Some "FREQ=YEARLY") /\
  (o = Updated ->
   exists i event event',
     cal !! i = Some (ICal event) /\
     cal' = <[i := ICal event']> cal /\
     same_identity event event' /\
     forall j, j <> i -> cal' !! j = cal !! j) /\
  (length cal <= length cal' <= S (length cal))%nat.
Proof.
  intros Hc.
  assert (Hunchanged := create_not_written io cal contact year o cal' Hc).
  split; [exact Hunchanged |]. split; [| split].
  - intros ->. apply create_Created_inv in Hc
      as (event_date & title & description & dtend & alarms & Hd & _ & _ & _ & _ & _ & _ & ->).
    exists event_date. eexists. split; [exact Hd |]. split; [reflexivity |].
    split; [reflexivity |]. split; [| split; reflexivity].
    intros Huid. transitivity (Some (read_text (event_uid (name contact) event_date)));
      [reflexivity | f_equal; exact Huid].
  - intros ->. apply create_Updated_inv in Hc
      as (event_date & title & description & i & event & alarms
          & _ & _ & _ & Hfind & _ & _ & _ & _ & ->).
    destruct (find_Some self io cal _ _ _ Hfind) as (stop & _ & Hscan).
    destruct (scan_Some self _ _ _ _ _ _ _ Hscan) as (j & Hj & Hi & _).
    simpl in Hj. subst j.
    exists i, event, (read_back (updated_event self event title description alarms)).
    repeat split; [exact Hi |].
    intros j Hne. apply list_lookup_insert_ne. congruence.
  - destruct o.
    + apply create_Created_inv in Hc as (? & ? & ? & ? & ? & _ & _ & _ & _ & _ & _ & _ & ->).
      rewrite length_app. simpl. lia.
    + apply create_Updated_inv in Hc
        as (? & ? & ? & ? & ? & ? & _ & _ & _ & _ & _ & _ & _ & _ & ->).
      rewrite length_insert. lia.
    + rewrite (Hunchanged eq_refl). lia.
    + rewrite (Hunchanged eq_refl). lia.
Qed.

Lemma make_alarms_for name days alarms :
  make_alarms self name days = Return alarms ->
  Forall2 (alarm_for self name) days (read_alarm <$> alarms).
Proof.
  revert alarms. induction days as [| d days IH]; intros alarms; simpl.
  - intros [= <-]. constructor.
  - unfold make_alarm, timedelta_days. unfold_res.
    destruct ((-999999999 <=? - d) && (- d <=? 999999999)); [| discriminate].
    destruct (_format_reminder_message self name d) as [message |] eqn:Hm; [| discriminate].
    destruct (make_alarms self name days) as [rest |]; [| discriminate].
    intros [= <-]. rewrite fmap_cons. constructor; [| apply IH; reflexivity].
    repeat split. exists message. split; [exact Hm | reflexivity].
Qed.

(** X5. The event a reconciliation writes, created or updated, carries
    exactly one alarm for each configured reminder day, in the configured
    order: a DISPLAY alarm that triggers that many days before the event
    and whose text is the message of [_format_reminder_message] for this
    name and this day, as it reads back from the store. The alarms an
    updated event had before are gone. *)
Theorem written_alarms (io : SinkIO) (cal cal' : Calendar) (contact : Contact)
    (year : Z) (o : Outcome) :
  create_birthday_event self io cal contact year = (o, cal') ->
  o = Created \/ o = Updated ->
  exists i ev,
    cal' !! i = Some (ICal ev) /\
    (o = Created -> i = length cal) /\
    (o = Updated -> exists old, cal !! i = Some old /\ old <> Garbled) /\
    Forall2 (alarm_for self (name contact)) (reminder_days self) (ev_alarms ev).
Proof.
  intros Hc [-> | ->].
  - apply create_Created_inv in Hc
      as (event_date & title & description & dtend & alarms
          & _ & _ & _ & _ & _ & Hal & _ & ->).
    exists (length cal). eexists. split; [| split; [reflexivity | split; [discriminate |]]].
    + rewrite lookup_app_r, Nat.sub_diag by lia. reflexivity.
    + apply make_alarms_for. exact Hal.
  - apply create_Updated_inv in Hc
      as (event_date & title & description & i & event & alarms
          & _ & _ & _ & Hfind & _ & _ & Hal & _ & ->).
    destruct (find_Some self io cal _ _ _ Hfind) as (stop & _ & Hscan).
    destruct (scan_Some self _ _ _ _ _ _ _ Hscan) as (j & Hj & Hi & _).
    simpl in Hj. subst j.
    exists i. eexists. split; [| split; [discriminate | split]].
    + apply list_lookup_insert_eq. apply (lookup_lt_Some _ _ _ Hi).
    + intros _. exists (ICal event). split; [exact Hi | discriminate].
    + apply make_alarms_for. exact Hal.
Qed.

(** X6. With updates switched off, an event that the lookup finds is
    never touched: the call is [Skipped] without any comparison, even when
    the title, the description or the alarms of the event differ from the
    configured ones; the calendar then only grows, by creations. *)
Theorem no_update_when_switched_off (io : SinkIO) (cal cal' : Calendar)
    (contact : Contact) (year : Z) (o : Outcome) :
  update_existing self = false ->
  create_birthday_event self io cal contact year = (o, cal') ->
  o <> Updated /\
  cal `prefix_of` cal' /\
  (forall event_date found,
      replace_year (birthday contact) year = Return event_date ->
      _find_existing_event self io cal (name contact) event_date = Some found ->
      (o = Skipped \/ exists e, o = Failed e) /\ cal' = cal).
Proof.
  intros Hoff Hc.
  assert (Hnot : o <> Updated).
  { intros ->. apply create_Updated_inv in Hc
      as (? & ? & ? & ? & ? & ? & _ & _ & _ & _ & Hon & _). congruence. }
  split; [exact Hnot |]. split.
  - destruct o.
    + apply create_Created_inv in Hc as (? & ? & ? & ? & ? & _ & _ & _ & _ & _ & _ & _ & ->).
      eexists. reflexivity.
    + contradiction.
    + rewrite (create_not_written io cal contact year _ cal' Hc eq_refl). reflexivity.
    + rewrite (create_not_written io cal contact year _ cal' Hc eq_refl). reflexivity.
  - intros event_date found Hd Hfind.
    revert Hc. unfold create_birthday_event. rewrite Hd. unfold_res.
    destruct (str_format (event_title_template self) _); [| intros [= <- <-]; eauto].
    destruct (str_format (event_description_template self) _); [| intros [= <- <-]; eauto].
    rewrite Hfind, Hoff. intros [= <- <-]. auto.
Qed.

End ReconcilerFrame.

Lemma reconcile_frame_witness :
  (length ([] : Calendar) <= length [ICal Scenario.bob_event] <= 1)%nat.
Proof.
  destruct (reconcile_frame (H := Ref.py_str) (H0 := Ref.server) Scenario.default_client
              sink_ok [] [ICal Scenario.bob_event] Scenario.bob 2025 Created)
    as (_ & _ & _ & Hlen); [reflexivity | exact Hlen].
Defined.

Lemma written_alarms_witness :
  exists i ev,
    IdempotenceScenario.party_updated.2 !! i = Some (ICal ev) /\
    (Updated = Created -> i = length [ICal IdempotenceScenario.party]) /\
    (Updated = Updated ->
     exists old, [ICal IdempotenceScenario.party] !! i = Some old /\ old <> Garbled) /\
    Forall2 (alarm_for (H := Ref.py_str) Scenario.default_client "Bob") [1] (ev_alarms ev).
Proof.
  apply (written_alarms (H := Ref.py_str) (H0 := Ref.server) Scenario.default_client
           sink_ok [ICal IdempotenceScenario.party] IdempotenceScenario.party_updated.2
           Scenario.bob 2025 Updated); [reflexivity | right; reflexivity].
Defined.

(** ** The lookup: which event is returned *)

Section LookupFacts.
Context `{PyStr} `{CalDAVServer}.
Variable self : Client.

(** X7. What the lookup returns is a resource of the collection that
    parses, has a summary, lies in the queried day for the server and
    passes the test on the summary or on the UID; and no resource listed
    before it lies in that day and passes: the first match wins, whatever
    follows it. *)
Theorem lookup_first_match (io : SinkIO) (cal : Calendar) (name : string) (date : Date)
    (i : nat) (obj : CalObject) :
  _find_existing_event self io cal name date = Some (i, obj) ->
  exists stop ev summary,
    add_one_day date = Return stop /\
    cal !! i = Some obj /\ obj = ICal ev /\ ev_summary ev = Some summary /\
    time_range_match obj date stop = true /\
    (summary_matches self name summary = true \/ uid_matches name (ev_uid ev) = true) /\
    forall j other, (j < i)%nat -> cal !! j = Some other ->
                    time_range_match other date stop = true ->
                    event_matches self name other = false.
Proof.
  intros Hfind.
  destruct (find_Some self io cal _ _ _ Hfind) as (stop & Hstop & Hscan).
  destruct (scan_Some self _ _ _ _ _ _ _ Hscan) as (j & Hj & Hi & Hhit & Hbefore).
  simpl in Hj. subst j. unfold hit in Hhit. apply andb_true_iff in Hhit as [Hin Hm].
  destruct obj as [| ev]; [discriminate |]. simpl in Hm.
  destruct (ev_summary ev) as [summary |] eqn:Hs; [| discriminate].
  exists stop, ev, summary. repeat split; auto.
  - apply orb_true_iff. exact Hm.
  - intros j other Hlt Hj Hrange. specialize (Hbefore j other Hlt Hj).
    unfold hit in Hbefore. rewrite Hrange in Hbefore. exact Hbefore.
Qed.

End LookupFacts.

Lemma lookup_first_match_witness :
  exists stop ev summary,
    add_one_day (mkDate 2025 6 15) = Return stop /\
    [ICal IdempotenceScenario.party; ICal Scenario.bob_event] !! 0%nat
      = Some (ICal IdempotenceScenario.party) /\
    ICal IdempotenceScenario.party = ICal ev /\ ev_summary ev = Some summary /\
    time_range_match (CalDAVServer := Ref.server) (ICal IdempotenceScenario.party)
      (mkDate 2025 6 15) stop = true /\
    (summary_matches (H := Ref.py_str) Scenario.default_client "Bob" summary = true \/
     uid_matches (H := Ref.py_str) "Bob" (ev_uid ev) = true) /\
    forall j other, (j < 0)%nat ->
      [ICal IdempotenceScenario.party; ICal Scenario.bob_event] !! j = Some other ->
      time_range_match (CalDAVServer := Ref.server) other (mkDate 2025 6 15) stop = true ->
      event_matches (H := Ref.py_str) Scenario.default_client "Bob" other = false.
Proof.
  apply (lookup_first_match (H := Ref.py_str) (H0 := Ref.server) Scenario.default_client
           sink_ok [ICal IdempotenceScenario.party; ICal Scenario.bob_event] "Bob"
           (mkDate 2025 6 15) 0 (ICal IdempotenceScenario.party)).
  reflexivity.
Defined.

Lemma no_update_when_switched_off_witness :
  Skipped <> Updated /\
  [ICal IdempotenceScenario.party] `prefix_of` [ICal IdempotenceScenario.party] /\
  (forall event_date found,
      replace_year (birthday Scenario.bob) 2025 = Return event_date ->
      _find_existing_event (H := Ref.py_str) (H0 := Ref.server)
        FurtherScenario.switched_off_client sink_ok [ICal IdempotenceScenario.party]
        (name Scenario.bob) event_date = Some found ->
      (Skipped = Skipped \/ exists e, Skipped = Failed e) /\
      [ICal IdempotenceScenario.party] = [ICal IdempotenceScenario.party]).
Proof.
  apply (no_update_when_switched_off (H := Ref.py_str) (H0 := Ref.server)
           FurtherScenario.switched_off_client sink_ok [ICal IdempotenceScenario.party]
           [ICal IdempotenceScenario.party] Scenario.bob 2025 Skipped); reflexivity.
Defined.

(** ** Names that contain one another *)

Lemma contains_of_startswith p s : Str.startswith p s = true -> Str.contains p s = true.
Proof.
  intros Hs. destruct s; simpl; rewrite Hs; reflexivity.
Qed.

(** [p in s] holds exactly when [s] is some text, [p], some text. *)
Lemma contains_spec p s :
  Str.contains p s = true <-> exists u v, s = u +:+ p +:+ v.
Proof.
  split.
  - induction s as [| c s IH].
    + rewrite ReplaceFacts.contains_empty. intros Hs.
      apply StrFacts.startswith_spec in Hs as [t Ht]. exists EmptyString, t. exact Ht.
    + rewrite ReplaceFacts.contains_cons. intros Hc. apply orb_true_iff in Hc as [Hs | Hc].
      * apply StrFacts.startswith_spec in Hs as [t Ht]. exists EmptyString, t. exact Ht.
      * destruct (IH Hc) as (u & v & ->). exists (String c u), v. reflexivity.
  - intros (u & v & ->). apply ReplaceFacts.contains_app_r, contains_of_startswith,
      StrFacts.startswith_app.
Qed.

Lemma contains_trans a b c :
  Str.contains a b = true -> Str.contains b c = true -> Str.contains a c = true.
Proof.
  rewrite !contains_spec. intros (u & v & ->) (u' & v' & ->).
  exists (u' +:+ u), (v +:+ v'). rewrite !StrFacts.append_assoc. reflexivity.
Qed.

Section Collisions.
Context `{PyStr} `{CalDAVServer}.
Variable self : Client.

(** X8. The test on the summary looks for the name as a piece of text: an
    event whose summary passes the test for a name passes it for every
    name contained in that name (the empty name included). So when the
    lookup for the longer name returns such an event, the lookup for the
    shorter name on the same calendar and day returns an event as well,
    and the contact with the shorter name is reconciled against an event
    that may belong to the other contact. *)
Theorem name_inside_another_name (short long : string) (ev : VEvent) (summary : string) :
  Str.contains short long = true ->
  ev_summary ev = Some summary ->
  summary_matches self long summary = true ->
  event_matches self short (ICal ev) = true /\
  forall io cal date i,
    _find_existing_event self io cal long date = Some (i, ICal ev) ->
    exists j obj, (j <= i)%nat /\
      _find_existing_event self io cal short date = Some (j, obj).
Proof.
  intros Hin Hs Hm.
  assert (Hshort : event_matches self short (ICal ev) = true).
  { simpl. rewrite Hs. apply orb_true_iff. left.
    unfold summary_matches in *. apply andb_true_iff in Hm as [Hname Hkey].
    rewrite Hkey, (contains_trans _ _ _ Hin Hname). reflexivity. }
  split; [exact Hshort |].
  intros io cal date i Hfind.
  destruct (find_Some self io cal _ _ _ Hfind) as (stop & Hstop & Hscan).
  destruct (scan_Some self _ _ _ _ _ _ _ Hscan) as (k & Hk & Hi & Hhit & _).
  simpl in Hk. subst k.
  assert (Hio : search_raises io = false \/ date_search_raises io = false).
  { revert Hfind. unfold _find_existing_event, calendar_search, calendar_date_search.
    rewrite Hstop. unfold_res.
    destruct (search_raises io); [| auto].
    destruct (date_search_raises io); [discriminate | auto]. }
  rewrite (find_answered self io cal short date stop Hstop Hio).
  unfold hit in Hhit. apply andb_true_iff in Hhit as [Hrange _].
  destruct (scan self short date stop 0 cal) as [[j obj] |] eqn:Hscan'.
  - destruct (scan_Some self _ _ _ _ _ _ _ Hscan') as (k & -> & _ & _ & Hbefore).
    exists (0 + k)%nat, obj. split; [| reflexivity]. simpl.
    destruct (le_lt_dec k i) as [Hle | Hlt]; [exact Hle |].
    specialize (Hbefore i (ICal ev) Hlt Hi). unfold hit in Hbefore.
    rewrite Hrange, Hshort in Hbefore. discriminate.
  - rewrite scan_None in Hscan'. specialize (Hscan' i (ICal ev) Hi).
    unfold hit in Hscan'. rewrite Hrange, Hshort in Hscan'. discriminate.
Qed.

(** X9. When both queries of the lookup fail, the lookup answers "no
    event" and the reconciliation goes on as on an empty calendar: what it
    does, and the event it sends when the server accepts the write, are
    those of the same call on the empty calendar, whatever events the
    calendar holds. The event of a contact is then written as a new one
    although the calendar holds it. *)
Theorem blind_lookup_creates (io : SinkIO) (cal : Calendar) (contact : Contact) (year : Z) :
  search_raises io = true ->
  date_search_raises io = true ->
  _find_existing_event self io cal (name contact) (birthday contact) = None /\
  create_birthday_event self io cal contact year
  = ((create_birthday_event self io [] contact year).1,
     (cal ++ (create_birthday_event self io [] contact year).2)%list).
Proof.
  intros Hs Hd.
  assert (Hblind : forall c n d, _find_existing_event self io c n d = None).
  { intros c n d. unfold _find_existing_event, calendar_search, calendar_date_search.
    rewrite Hs, Hd. unfold_res. destruct (add_one_day d); reflexivity. }
  split; [apply Hblind |].
  unfold create_birthday_event, save_event. unfold_res.
  destruct (replace_year _ _) as [event_date |]; simpl; [| rewrite app_nil_r; reflexivity].
  destruct (str_format (event_title_template self) _); simpl;
    [| rewrite app_nil_r; reflexivity].
  destruct (str_format (event_description_template self) _); simpl;
    [| rewrite app_nil_r; reflexivity].
  rewrite !Hblind.
  destruct (add_one_day event_date); simpl; [| rewrite app_nil_r; reflexivity].
  destruct (make_alarms _ _ _); simpl; [| rewrite app_nil_r; reflexivity].
  destruct (save_raises io); simpl; [rewrite app_nil_r |]; reflexivity.
Qed.

End Collisions.

Lemma name_inside_another_name_witness :
  event_matches (H := Ref.py_str) Scenario.default_client "Bob"
    (ICal FurtherScenario.bobby_event) = true /\
  forall io cal date i,
    _find_existing_event (H := Ref.py_str) (H0 := Ref.server) Scenario.default_client io cal
      "Bobby Tables" date = Some (i, ICal FurtherScenario.bobby_event) ->
    exists j obj, (j <= i)%nat /\
      _find_existing_event (H := Ref.py_str) (H0 := Ref.server) Scenario.default_client io cal
        "Bob" date = Some (j, obj).
Proof.
  apply (name_inside_another_name (H := Ref.py_str) (H0 := Ref.server) Scenario.default_client
           "Bob" "Bobby Tables" FurtherScenario.bobby_event "ðŸŽ‚ Bobby Tables's Birthday");
    reflexivity.
Defined.

Lemma blind_lookup_creates_witness :
  _find_existing_event (H := Ref.py_str) (H0 := Ref.server) Scenario.default_client
    FurtherScenario.blind [ICal Scenario.bob_event] "Bob" (mkDate 2000 6 15) = None /\
  create_birthday_event (H := Ref.py_str) (H0 := Ref.server) Scenario.default_client
    FurtherScenario.blind [ICal Scenario.bob_event] Scenario.bob 2025
  = ((create_birthday_event (H := Ref.py_str) (H0 := Ref.server) Scenario.default_client
        FurtherScenario.blind [] Scenario.bob 2025).1,
     ([ICal Scenario.bob_event]
      ++ (create_birthday_event (H := Ref.py_str) (H0 := Ref.server) Scenario.default_client
            FurtherScenario.blind [] Scenario.bob 2025).2)%list).
Proof.
  apply (blind_lookup_creates (H := Ref.py_str) (H0 := Ref.server) Scenario.default_client
           FurtherScenario.blind [ICal Scenario.bob_event] Scenario.bob 2025); reflexivity.
Defined.

(** The same on a calendar that holds Bob's event: the event is sent
    again as a new one. *)
Example blind_lookup_duplicate :
  create_birthday_event (H := Ref.py_str) (H0 := Ref.server) Scenario.default_client
    FurtherScenario.blind [ICal Scenario.bob_event] Scenario.bob 2025
  = (Created, [ICal Scenario.bob_event; ICal Scenario.bob_event]).
Proof. reflexivity. Qed.

(** ** The reminder days of the configuration *)

Section ReminderDays.
Context `{PyStr} `{CalDAVServer}.

Lemma parse_reminder_days_spec (parts : list string) :
  let entries :=
    List.filter (fun w => negb (String.eqb w EmptyString)) (Str.strip <$> parts) in
  match parse_reminder_days parts with
  | Some days => Forall2 (fun w n => int_of_str w = Some n) entries days
  | None => Exists (fun w => int_of_str w = None) entries
  end.
Proof.
  induction parts as [| d rest IH]; simpl.
  - constructor.
  - destruct (Str.strip d) as [| c r] eqn:Hd; simpl; [exact IH |].
    destruct (int_of_str (String c r)) as [n |] eqn:Hn; simpl.
    + destruct (parse_reminder_days rest) as [ns |]; simpl in *.
      * constructor; assumption.
      * apply Exists_cons_tl. exact IH.
    + apply Exists_cons_hd. exact Hn.
Qed.

(** X10. The reminder days are read all or nothing. The entries of
    [BIRTHDAY_REMINDER_DAYS] are the pieces between commas, stripped, the
    empty ones left out. When [int] accepts every entry, the reminder days
    are their values in the order of the text (none at all for a text
    without entries). When [int] rejects one entry, all of them are
    dropped, the accepted ones too, and the reminder days are [[1]]. *)
Theorem reminder_days_all_or_nothing (config : BirthdayConfig) :
  let entries := reminder_entries (cfg_reminder_days_str config) in
  let days := reminder_days (_load_config config) in
  (Forall (fun w => is_Some (int_of_str w)) entries /\
   Forall2 (fun w n => int_of_str w = Some n) entries days) \/
  (Exists (fun w => int_of_str w = None) entries /\ days = [1]).
Proof.
  simpl. unfold reminder_entries.
  pose proof (parse_reminder_days_spec (Str.split "," (cfg_reminder_days_str config))) as Hspec.
  simpl in Hspec.
  destruct (parse_reminder_days _) as [days |].
  - left. split; [| exact Hspec].
    induction Hspec; constructor; eauto.
  - right. split; [exact Hspec | reflexivity].
Qed.

End ReminderDays.

(** A week and a day before; one bad entry; no entry; an entry that is a
    no-break space (U+00A0), which [strip] removes. *)
Example reminder_days_read :
  reminder_days (_load_config (H := Ref.py_str)
                   (get_birthday_config (H := Ref.py_str) {[ "BIRTHDAY_REMINDER_DAYS" := " 7, ,1 " ]}))
  = [7; 1] /\
  reminder_days (_load_config (H := Ref.py_str)
                   (get_birthday_config (H := Ref.py_str) {[ "BIRTHDAY_REMINDER_DAYS" := "7,one" ]}))
  = [1] /\
  reminder_days (_load_config (H := Ref.py_str)
                   (get_birthday_config (H := Ref.py_str) {[ "BIRTHDAY_REMINDER_DAYS" := "," ]}))
  = [] /\
  reminder_days (_load_config (H := Ref.py_str)
                   (get_birthday_config (H := Ref.py_str)
                      {[ "BIRTHDAY_REMINDER_DAYS" :=
                           "7," +:+ String (ascii_of_nat 194)
                                      (String (ascii_of_nat 160) EmptyString) ]}))
  = [7].
Proof. repeat split; reflexivity. Qed.

(** ** A pass never removes an event *)

Lemma same_identity_refl ev : same_identity ev ev.
Proof. repeat split. Qed.

Lemma same_identity_trans ev1 ev2 ev3 :
  same_identity ev1 ev2 -> same_identity ev2 ev3 -> same_identity ev1 ev3.
Proof. unfold same_identity. intros (? & ? & ? & ?) (? & ? & ? & ?). repeat split; congruence. Qed.

Lemma kept_trans obj1 obj2 obj3 : kept obj1 obj2 -> kept obj2 obj3 -> kept obj1 obj3.
Proof.
  intros [-> | (ev1 & ev2 & -> & -> & H12)] [-> | (ev2' & ev3 & Heq & -> & H23)].
  - left. reflexivity.
  - right. eauto.
  - right. eauto.
  - injection Heq as <-. right. exists ev1, ev3. eauto using same_identity_trans.
Qed.

Lemma preserved_refl cal : preserved cal cal.
Proof. intros i obj Hi. exists obj. split; [exact Hi | left; reflexivity]. Qed.

Lemma preserved_trans cal1 cal2 cal3 :
  preserved cal1 cal2 -> preserved cal2 cal3 -> preserved cal1 cal3.
Proof.
  intros H12 H23 i obj Hi.
  destruct (H12 i obj Hi) as (obj2 & Hi2 & Hk2).
  destruct (H23 i obj2 Hi2) as (obj3 & Hi3 & Hk3).
  exists obj3. split; [exact Hi3 | exact (kept_trans _ _ _ Hk2 Hk3)].
Qed.

Section PassFrame.
Context `{PyStr} `{CalDAVServer}.

Lemma create_preserved self io cal contact year :
  let cal' := (create_birthday_event self io cal contact year).2 in
  preserved cal cal' /\ (length cal <= length cal' <= S (length cal))%nat.
Proof.
  simpl. destruct (create_birthday_event self io cal contact year) as [o cal'] eqn:Hc. simpl.
  destruct o.
  - apply create_Created_inv in Hc as (? & ? & ? & ? & ? & _ & _ & _ & _ & _ & _ & _ & ->).
    split; [| rewrite length_app; simpl; lia].
    intros i obj Hi. exists obj. split; [| left; reflexivity].
    rewrite lookup_app_l; [exact Hi | apply (lookup_lt_Some _ _ _ Hi)].
  - apply create_Updated_inv in Hc
      as (? & title & description & i & event & alarms & _ & _ & _ & Hfind & _ & _ & _ & _ & ->).
    split; [| rewrite length_insert; lia].
    destruct (find_Some self io cal _ _ _ Hfind) as (stop & _ & Hscan).
    destruct (scan_Some self _ _ _ _ _ _ _ Hscan) as (k & Hk & Hi & _).
    simpl in Hk. subst k.
    intros j obj Hj. destruct (decide (j = i)) as [-> | Hne].
    + exists (ICal (read_back (updated_event self event title description alarms))). split.
      * apply list_lookup_insert_eq. apply (lookup_lt_Some _ _ _ Hi).
      * right. exists event. eexists. rewrite Hi in Hj. injection Hj as <-.
        repeat split.
    + exists obj. split; [| left; reflexivity].
      rewrite list_lookup_insert_ne by congruence. exact Hj.
  - rewrite (create_not_written self io cal contact year _ cal' Hc eq_refl).
    split; [apply preserved_refl | lia].
  - rewrite (create_not_written self io cal contact year _ cal' Hc eq_refl).
    split; [apply preserved_refl | lia].
Qed.

Lemma process_contact_preserved self w current_year st contact :
  let st' := process_contact self w current_year st contact in
  preserved (calendar st) (calendar st') /\
  (length (calendar st) <= length (calendar st') <= 2 + length (calendar st))%nat.
Proof.
  simpl. unfold process_contact, reconcile_step. simpl.
  pose proof (create_preserved self (answers w (calls st)) (calendar st) contact current_year)
    as [Hp1 Hl1].
  simpl in Hp1, Hl1.
  set (cal1 := (create_birthday_event self (answers w (calls st)) (calendar st) contact
                  current_year).2) in *.
  pose proof (create_preserved self (answers w (S (calls st))) cal1 contact (current_year + 1))
    as [Hp2 Hl2].
  simpl in Hp2, Hl2.
  split; [exact (preserved_trans _ _ _ Hp1 Hp2) | lia].
Qed.

Lemma pass_loop_preserved self w current_year contacts st :
  let st' := foldl (process_contact self w current_year) st contacts in
  preserved (calendar st) (calendar st') /\
  (length (calendar st) <= length (calendar st')
   <= length (calendar st) + 2 * length contacts)%nat.
Proof.
  simpl. revert st. induction contacts as [| contact rest IH]; intros st; simpl.
  - split; [apply preserved_refl | lia].
  - destruct (process_contact_preserved self w current_year st contact) as [Hp1 Hl1].
    destruct (IH (process_contact self w current_year st contact)) as [Hp2 Hl2].
    simpl in *. split; [exact (preserved_trans _ _ _ Hp1 Hp2) | lia].
Qed.

(** X11. A sync pass never removes an event from the calendar. Every
    object the calendar held before the pass is at its position after
    it, either as it was or, for an event the pass updated, rewritten with
    the same UID, start, end and recurrence rule. The calendar grows by at
    most two events for each contact (this year's and next year's), and
    objects that are not events are never touched. *)
Theorem pass_never_deletes (w : World) (current_year : Z) (cal : Calendar) :
  let final := calendar (main_sync w current_year cal).2 in
  preserved cal final /\
  (length cal <= length final)%nat /\
  (forall i, cal !! i = Some Garbled -> final !! i = Some Garbled) /\
  (forall contacts, get_contacts w = Return contacts ->
                    (length final <= length cal + 2 * length contacts)%nat).
Proof.
  simpl.
  assert (Hmain : exists contacts self,
             (get_contacts w = Return contacts \/ contacts = []) /\
             calendar (main_sync w current_year cal).2
             = calendar (foldl (process_contact self w current_year)
                           (mkPassState 0 0 cal []) contacts)).
  { unfold main_sync. unfold_res.
    destruct (cardav_client w); [| exists [], Scenario.default_client; auto].
    destruct (caldav_client w) as [self |]; [| exists [], Scenario.default_client; auto].
    destruct (get_contacts w) as [contacts |]; [| exists [], self; auto].
    destruct contacts as [| c rest]; [exists [], self; auto |].
    exists (c :: rest), self. auto. }
  destruct Hmain as (contacts & self & Hcontacts & ->).
  destruct (pass_loop_preserved self w current_year contacts (mkPassState 0 0 cal []))
    as [Hp Hl]. simpl in Hp, Hl.
  split; [exact Hp |]. split; [lia |]. split.
  - intros i Hi. destruct (Hp i Garbled Hi) as (obj' & Hi' & [-> | (ev & ? & Hev & _)]).
    + exact Hi'.
    + discriminate.
  - intros contacts' Hget. destruct Hcontacts as [Hsame | ->].
    + rewrite Hsame in Hget. injection Hget as <-. lia.
    + simpl in *. lia.
Qed.

End PassFrame.

(** ** The loop of the daemon *)

Section DaemonFacts.
Context `{Croniter}.

(** [tick] is the turn that reads the clock once. *)
Lemma turn_is_tick self sync_func diagnostic_func now :
  turn self (mkTurn now now now now now sync_func diagnostic_func)
  = tick self sync_func diagnostic_func now.
Proof.
  unfold turn, turn_operation, tick. simpl.
  destruct (if 0 <? sync_interval_hours self then _ else _) as [sync_needed |]; [| reflexivity].
  destruct (_should_sync_cron (diagnostic_schedule self) now now); [reflexivity |].
  destruct sync_needed; reflexivity.
Qed.

Lemma perform_sync_diagnostic self sync_func diagnostic_func now :
  (_perform_sync self sync_func diagnostic_func true now).2 = self.
Proof. unfold _perform_sync. destruct diagnostic_func as [[] |]; reflexivity. Qed.

Lemma perform_sync_sync self sync_func diagnostic_func now :
  (_perform_sync self sync_func diagnostic_func false now).2
  = if succeeded sync_func then set_last_sync self (Some now) else self.
Proof. unfold _perform_sync, succeeded. destruct sync_func as [[] |]; reflexivity. Qed.

(** What a turn can do to the service. *)
Lemma turn_effect self t :
  turn self t = self \/
  (turn self t = set_last_sync self (Some (done_read t)) /\
   turn_operation self t = Some Sync /\ turn_sync t = Return true).
Proof.
  unfold turn. destruct (turn_operation self t) as [[] |]; [| | left; reflexivity].
  - left. apply perform_sync_diagnostic.
  - rewrite perform_sync_sync. destruct (turn_sync t) as [[] |]; simpl; auto.
Qed.

Lemma turn_interval_hours self t :
  sync_interval_hours (turn self t) = sync_interval_hours self.
Proof. destruct (turn_effect self t) as [-> | [-> _]]; reflexivity. Qed.

Lemma spaced_refl h s : spaced h s s.
Proof. unfold spaced. destruct (last_sync s); auto. Qed.

Lemma spaced_trans h s1 s2 s3 :
  0 < h -> spaced h s1 s2 -> spaced h s2 s3 -> spaced h s1 s3.
Proof.
  unfold spaced, hours. intros Hh.
  destruct (last_sync s1), (last_sync s2), (last_sync s3); try tauto; lia.
Qed.

(** In interval mode a sync is decided only when none is recorded or the
    interval has passed since the recorded one. *)
Lemma interval_sync_due self t :
  0 < sync_interval_hours self ->
  turn_operation self t = Some Sync ->
  match last_sync self with
  | None => True
  | Some recorded => hours (sync_interval_hours self) <= sync_read t - recorded
  end.
Proof.
  intros Hh. unfold turn_operation, _should_sync_interval, timedelta_hours. unfold_res.
  destruct (0 <? sync_interval_hours self) eqn:Hpos; [| lia].
  destruct (sync_interval_hours self <=? 0) eqn:Hle; [lia |].
  destruct (last_sync self) as [recorded |]; [| trivial].
  destruct ((-999999999 <=? _) && _); [| discriminate].
  destruct (_should_sync_cron _ _ _); [discriminate |].
  destruct (hours _ <=? sync_read t - recorded) eqn:Hdue; [| discriminate].
  intros _. lia.
Qed.

Lemma turn_spaced self t :
  0 < sync_interval_hours self ->
  sync_read t <= done_read t ->
  spaced (sync_interval_hours self) self (turn self t).
Proof.
  intros Hh Hclock.
  destruct (turn_effect self t) as [-> | (-> & Hop & _)].
  - apply spaced_refl.
  - pose proof (interval_sync_due self t Hh Hop) as Hdue.
    unfold spaced. simpl. destruct (last_sync self); [right; lia | exact I].
Qed.

Lemma loop_states_spaced h turns : forall self i j si sj,
  0 < h -> sync_interval_hours self = h ->
  Forall (fun t => sync_read t <= done_read t) turns ->
  (i <= j)%nat ->
  loop_states self turns !! i = Some si ->
  loop_states self turns !! j = Some sj ->
  spaced h si sj /\ spaced h self si.
Proof.
  induction turns as [| t rest IH]; intros self i j si sj Hh Hself Hclock Hij Hi Hj.
  - destruct i, j; simpl in *; try discriminate.
    injection Hi as <-. injection Hj as <-. split; apply spaced_refl.
  - apply Forall_cons in Hclock as [Ht Hclock].
    assert (Hstep : spaced h self (turn self t)).
    { subst h. apply turn_spaced; assumption. }
    assert (Hnext : sync_interval_hours (turn self t) = h).
    { rewrite turn_interval_hours. exact Hself. }
    destruct i as [| i]; simpl in Hi.
    + injection Hi as <-. split; [| apply spaced_refl].
      destruct j as [| j]; simpl in Hj.
      * injection Hj as <-. apply spaced_refl.
      * destruct (IH (turn self t) j j sj sj Hh Hnext Hclock (Nat.le_refl _) Hj Hj)
          as [_ Hfrom].
        exact (spaced_trans _ _ _ _ Hh Hstep Hfrom).
    + destruct j as [| j]; [lia |]. simpl in Hj.
      destruct (IH (turn self t) i j si sj Hh Hnext Hclock ltac:(lia) Hi Hj) as [Hij' Hfrom].
      split; [exact Hij' | exact (spaced_trans _ _ _ _ Hh Hstep Hfrom)].
Qed.

(** X12. In interval mode the daemon spaces its syncs. Along a run of
    [run_daemon], from the initial sync through the turns of the loop, and
    provided that in no turn the clock goes back between the due check
    and the end of the sync, the time of the last successful sync is
    never lost, and whenever it changes the new time is at least
    [SYNC_INTERVAL_HOURS] hours after the old one: two successful syncs
    are never recorded closer than the interval, however often the loop
    turns and whatever the cron expressions say. *)
Theorem interval_mode_spacing (self : SchedulerService) (stopped : bool) (initial : Res bool)
    (initial_done : Time) (turns : list Turn) (i j : nat) (si sj : SchedulerService) :
  0 < sync_interval_hours self ->
  Forall (fun t => sync_read t <= done_read t) turns ->
  (i <= j)%nat ->
  run_daemon self stopped initial initial_done turns !! i = Some si ->
  run_daemon self stopped initial initial_done turns !! j = Some sj ->
  spaced (sync_interval_hours self) si sj.
Proof.
  intros Hh Hclock Hij Hi Hj. unfold run_daemon in *.
  destruct stopped; [discriminate |].
  refine (proj1 (loop_states_spaced _ turns _ i j si sj Hh _ Hclock Hij Hi Hj)).
  rewrite perform_sync_sync. destruct (succeeded _); reflexivity.
Qed.

Lemma turn_operation_interval self schedule t :
  0 < sync_interval_hours self ->
  turn_operation (set_sync_schedule self schedule) t = turn_operation self t.
Proof.
  intros Hh. unfold turn_operation. simpl.
  destruct (0 <? sync_interval_hours self) eqn:Hpos; [reflexivity | lia].
Qed.

Lemma turn_set_sync_schedule self schedule t :
  0 < sync_interval_hours self ->
  turn (set_sync_schedule self schedule) t = set_sync_schedule (turn self t) schedule.
Proof.
  intros Hh. unfold turn. rewrite turn_operation_interval by exact Hh.
  destruct (turn_operation self t) as [[] |]; [| | reflexivity].
  - rewrite !perform_sync_diagnostic. reflexivity.
  - rewrite !perform_sync_sync. destruct (succeeded _); reflexivity.
Qed.

(** X13. A positive [SYNC_INTERVAL_HOURS] switches the sync schedule
    off: in interval mode the cron expression of the sync is never
    consulted. Two services that differ in it only take the same decision
    in every turn and go through the same states, the expression
    apart. *)
Theorem interval_mode_ignores_sync_schedule (self : SchedulerService) (schedule : string)
    (stopped : bool) (initial : Res bool) (initial_done : Time) (turns : list Turn) :
  0 < sync_interval_hours self ->
  (forall t, turn_operation (set_sync_schedule self schedule) t = turn_operation self t) /\
  run_daemon (set_sync_schedule self schedule) stopped initial initial_done turns
  = (fun s => set_sync_schedule s schedule)
      <$> run_daemon self stopped initial initial_done turns.
Proof.
  intros Hh. split; [intros t; apply turn_operation_interval; exact Hh |].
  unfold run_daemon. destruct stopped; [reflexivity |].
  rewrite !perform_sync_sync.
  assert (Hloop : forall s, 0 < sync_interval_hours s ->
            loop_states (set_sync_schedule s schedule) turns
            = (fun s => set_sync_schedule s schedule) <$> loop_states s turns).
  { induction turns as [| t rest IH]; intros s Hs; simpl; [reflexivity |].
    rewrite turn_set_sync_schedule by exact Hs. f_equal. apply IH.
    rewrite turn_interval_hours. exact Hs. }
  destruct (succeeded initial); [| apply Hloop; exact Hh].
  apply (Hloop (set_last_sync self (Some initial_done))). exact Hh.
Qed.

Lemma due_window fires schedule now now' :
  first_fire_after fires schedule ->
  _should_sync_cron schedule now now' = true <->
  (exists t, fires t /\ now - minutes 1 < t /\ t <= now').
Proof.
  intros Hlaw. destruct (Hlaw (now - minutes 1)) as (t & Hnext & Hafter & Hfires & Hfirst).
  unfold _should_sync_cron. rewrite Hnext. split.
  - intros Hdue. exists t. split; [exact Hfires | lia].
  - intros (u & Hu & Hwindow). apply Z.leb_le.
    destruct (Z_le_gt_dec t now') as [Hle | Hgt]; [exact Hle |].
    exfalso. apply (Hfirst u); [lia | exact Hu].
Qed.

(** X14. In cron mode the diagnostic takes the turn of a sync that is
    due with it, and the sync is not made up later. When the two
    schedules are the same expression, a turn of the loop runs the sync
    only if a fire time has left the minute of the check between the two
    checks: it lies after one minute before the reading of the sync's
    check and not after one minute before the reading of the diagnostic's
    check, made an instant later. A fire time that both checks see runs
    the diagnostic alone. *)
Theorem equal_schedules_starve_sync (fires : Time -> Prop) (self : SchedulerService)
    (t : Turn) :
  sync_interval_hours self <= 0 ->
  sync_schedule self = diagnostic_schedule self ->
  first_fire_after fires (sync_schedule self) ->
  sync_read' t <= diagnostic_read' t ->
  turn_operation self t = Some Sync ->
  exists fire, fires fire /\
               sync_read t - minutes 1 < fire /\ fire <= diagnostic_read t - minutes 1.
Proof.
  intros Hh Heq Hlaw Hclock. unfold turn_operation. unfold_res.
  destruct (0 <? sync_interval_hours self) eqn:Hpos; [lia |].
  rewrite <- Heq.
  destruct (_should_sync_cron (sync_schedule self) (diagnostic_read t) (diagnostic_read' t))
    eqn:Hdiag; [discriminate |].
  destruct (_should_sync_cron (sync_schedule self) (sync_read t) (sync_read' t))
    eqn:Hsync; [| discriminate].
  intros _. apply (due_window fires) in Hsync as (fire & Hfire & Hafter & Hbefore);
    [| exact Hlaw].
  exists fire. split; [exact Hfire |]. split; [exact Hafter |].
  destruct (Z_le_gt_dec fire (diagnostic_read t - minutes 1)) as [Hle | Hgt]; [exact Hle |].
  exfalso. assert (Hdue : _should_sync_cron (sync_schedule self) (diagnostic_read t)
                            (diagnostic_read' t) = true).
  { apply (due_window fires); [exact Hlaw |]. exists fire. repeat split; [exact Hfire | lia | lia]. }
  congruence.
Qed.

(** X15. When a schedule is due. For an expression on which [croniter]
    gives the first fire time after its base, [_should_sync_cron] answers
    [True] exactly when a fire time lies between one minute before its
    first reading of the clock (excluded) and its second reading
    (included). A turn of the loop acts on a fire time only if its check
    comes within the minute after it. *)
Theorem cron_due_window (fires : Time -> Prop) (schedule : string) (now now' : Time) :
  first_fire_after fires schedule ->
  _should_sync_cron schedule now now' = true <->
  (exists t, fires t /\ now - minutes 1 < t /\ t <= now').
Proof. apply due_window. Qed.

End DaemonFacts.

Lemma interval_mode_spacing_witness :
  spaced (sync_interval_hours FurtherScenario.six_hourly)
    (set_last_sync FurtherScenario.six_hourly (Some (hours 0)))
    (set_last_sync FurtherScenario.six_hourly (Some (hours 6 + 5))).
Proof.
  apply (interval_mode_spacing (H := Ref.cron) FurtherScenario.six_hourly false
           (Return true) (hours 0)
           [FurtherScenario.turn_at (hours 1); FurtherScenario.turn_at (hours 6)] 0 2).
  - reflexivity.
  - repeat constructor; vm_compute; discriminate.
  - lia.
  - reflexivity.
  - reflexivity.
Defined.

Lemma interval_mode_ignores_sync_schedule_witness :
  (forall t,
      turn_operation (H := Ref.cron)
        (set_sync_schedule FurtherScenario.six_hourly "every day at six") t
      = turn_operation (H := Ref.cron) FurtherScenario.six_hourly t) /\
  run_daemon (H := Ref.cron)
    (set_sync_schedule FurtherScenario.six_hourly "every day at six") false
    (Return true) (hours 0) [FurtherScenario.turn_at (hours 6)]
  = (fun s => set_sync_schedule s "every day at six")
      <$> run_daemon (H := Ref.cron) FurtherScenario.six_hourly false
            (Return true) (hours 0) [FurtherScenario.turn_at (hours 6)].
Proof.
  apply (interval_mode_ignores_sync_schedule (H := Ref.cron) FurtherScenario.six_hourly
           "every day at six" false (Return true) (hours 0)
           [FurtherScenario.turn_at (hours 6)]).
  reflexivity.
Defined.

(** The reference [croniter] on ["0 6 * * *"]: the next six o'clock. *)
Lemma next_fire_daily fuel at_ base :
  0 <= at_ < Ref.day_us ->
  Ref.next_fire (S (S fuel)) None at_ base (base / Ref.day_us)
  = Return (if base <? base / Ref.day_us * Ref.day_us + at_
            then base / Ref.day_us * Ref.day_us + at_
            else (base / Ref.day_us + 1) * Ref.day_us + at_).
Proof.
  intros Hat. cbn [Ref.next_fire]. rewrite !andb_true_r.
  destruct (base <? base / Ref.day_us * Ref.day_us + at_) eqn:Hfirst; [reflexivity |].
  assert (Hsecond : (base <? (base / Ref.day_us + 1) * Ref.day_us + at_) = true).
  { apply Z.ltb_lt. unfold Ref.day_us, hours in *.
    pose proof (Z.div_mod base (24 * 3600000000) ltac:(lia)).
    pose proof (Z.mod_pos_bound base (24 * 3600000000) ltac:(lia)). lia. }
  rewrite Hsecond. reflexivity.
Qed.

Lemma ref_cron_at_six :
  first_fire_after (H := Ref.cron) FurtherScenario.six_o_clock "0 6 * * *".
Proof.
  intros base.
  assert (Hnext : croniter_get_next (Croniter := Ref.cron) "0 6 * * *" base
                  = Ref.next_fire 9 None (hours 6 + minutes 0) base (base / Ref.day_us))
    by reflexivity.
  rewrite Hnext. change 9%nat with (S (S 7)).
  rewrite next_fire_daily by (unfold Ref.day_us, hours, minutes; lia).
  eexists. split; [reflexivity |].
  unfold FurtherScenario.six_o_clock, Ref.day_us, hours, minutes in *.
  pose proof (Z.div_mod base (24 * 3600000000) ltac:(lia)) as Hdiv.
  pose proof (Z.mod_pos_bound base (24 * 3600000000) ltac:(lia)) as Hmod.
  set (d := base / (24 * 3600000000)) in *.
  destruct (base <? d * (24 * 3600000000) + (6 * 3600000000 + 0 * 60000000)) eqn:Hfirst.
  - apply Z.ltb_lt in Hfirst. split; [lia |]. split; [exists d; lia |].
    intros u Hu (k & ->). lia.
  - apply Z.ltb_ge in Hfirst. split; [lia |]. split; [exists (d + 1); lia |].
    intros u Hu (k & ->). lia.
Qed.

Lemma equal_schedules_starve_sync_witness :
  exists fire, FurtherScenario.six_o_clock fire /\
               sync_read FurtherScenario.late_turn - minutes 1 < fire /\
               fire <= diagnostic_read FurtherScenario.late_turn - minutes 1.
Proof.
  apply (equal_schedules_starve_sync (H := Ref.cron) FurtherScenario.six_o_clock
           FurtherScenario.twins FurtherScenario.late_turn).
  - vm_compute. discriminate.
  - reflexivity.
  - exact ref_cron_at_six.
  - vm_compute. discriminate.
  - reflexivity.
Defined.

(** At six both are due and the diagnostic runs; a minute later nothing
    is due. *)
Example twins_at_six :
  turn_operation (H := Ref.cron) FurtherScenario.twins (FurtherScenario.turn_at (hours 6))
  = Some Diagnostic /\
  turn_operation (H := Ref.cron) FurtherScenario.twins
    (FurtherScenario.turn_at (hours 6 + minutes 1))
  = None.
Proof. split; reflexivity. Qed.

Lemma cron_due_window_witness :
  _should_sync_cron (H := Ref.cron) "0 6 * * *"
    (hours 30 + 30000000) (hours 30 + 30000001) = true <->
  (exists t, FurtherScenario.six_o_clock t /\
             hours 30 + 30000000 - minutes 1 < t /\ t <= hours 30 + 30000001).
Proof.
  apply (cron_due_window (H := Ref.cron) FurtherScenario.six_o_clock "0 6 * * *"
           (hours 30 + 30000000) (hours 30 + 30000001)).
  exact ref_cron_at_six.
Defined.

(** ** The command line *)

Lemma unset_spec env var :
  unset env var = true <-> env !! var = None \/ env !! var = Some EmptyString.
Proof.
  unfold unset. destruct (env !! var) as [[| c r] |]; split; auto.
  - intros; discriminate.
  - intros [? | ?]; discriminate.
Qed.

Lemma unset_provided env var : unset env var = false <-> provided env var.
Proof.
  unfold unset, provided. destruct (env !! var) as [[| c r] |]; split; try discriminate.
  - intros (v & [= <-] & Hv). contradiction.
  - intros _. eexists. split; [reflexivity | discriminate].
  - reflexivity.
  - intros (v & ? & _). discriminate.
Qed.

(** [validate_environment] accepts exactly the environments that provide
    the six variables. *)
Lemma validate_environment_spec env :
  validate_environment env = true <-> forall var, var ∈ required_vars -> provided env var.
Proof.
  unfold validate_environment, missing_vars.
  destruct (List.filter (unset env) required_vars) as [| var rest] eqn:Hmissing; split.
  - intros _ var Hvar. apply unset_provided.
    destruct (unset env var) eqn:Hunset; [| reflexivity].
    assert (Hin : In var (List.filter (unset env) required_vars)).
    { apply filter_In. split; [apply list_elem_of_In; exact Hvar | exact Hunset]. }
    rewrite Hmissing in Hin. destruct Hin.
  - reflexivity.
  - discriminate.
  - intros Hall. exfalso.
    assert (Hin : In var (List.filter (unset env) required_vars)).
    { rewrite Hmissing. left. reflexivity. }
    apply filter_In in Hin as [Hin Hunset].
    apply list_elem_of_In, Hall, unset_provided in Hin. congruence.
Qed.

Lemma validate_environment_missing env :
  validate_environment env = false <->
  exists var, var ∈ required_vars /\ (env !! var = None \/ env !! var = Some EmptyString).
Proof.
  unfold validate_environment, missing_vars.
  destruct (List.filter (unset env) required_vars) as [| var rest] eqn:Hmissing; split.
  - discriminate.
  - intros (var & Hvar & Hunset). apply unset_spec in Hunset.
    assert (Hin : In var (List.filter (unset env) required_vars)).
    { apply filter_In. split; [apply list_elem_of_In; exact Hvar | exact Hunset]. }
    rewrite Hmissing in Hin. destruct Hin.
  - intros _. exists var.
    assert (Hin : In var (List.filter (unset env) required_vars)).
    { rewrite Hmissing. left. reflexivity. }
    apply filter_In in Hin as [Hin Hunset].
    split; [apply list_elem_of_In; exact Hin | apply unset_spec; exact Hunset].
  - reflexivity.
Qed.

Section CommandLineFacts.
Context `{PyStr}.

Lemma scheduler_config_raises env :
  (exists e, get_scheduler_config env = Raise e) <->
  int_of_str (getenv env "SYNC_INTERVAL_HOURS" "0") = None \/
  int_of_str (getenv env "STARTUP_DELAY" "30") = None.
Proof.
  unfold get_scheduler_config.
  destruct (int_of_str (getenv env "SYNC_INTERVAL_HOURS" "0")) as [h |];
    destruct (int_of_str (getenv env "STARTUP_DELAY" "30")) as [d |]; split;
    try (intros [e He]; discriminate); try (intros [Hn | Hn]; discriminate); eauto.
Qed.

(** X16. The environment is validated before anything else. From the
    validation on, [main] leaves through [sys.exit(1)] without having
    started a command exactly when one of the six required variables is
    not set or is set to the empty text, whatever the flags of the command
    line: [--health-check] and [--diagnose] do not run either, although
    the diagnostic reads the three CardDAV variables only. The process
    ends with status 1 and nothing started in exactly one more case: the
    daemon is to be started (none of [--health-check], [--diagnose],
    [--once], and [RUN_MODE] unset or [daemon] in any letter case) and
    [int] rejects [SYNC_INTERVAL_HOURS] or [STARTUP_DELAY], so that the
    [ValueError] of [SchedulerService(...)] ends the process. *)
Theorem missing_variable_stops_main (args : Args) (env : gmap string string)
    (diagnose sync : Call) (daemon : DaemonEnd) :
  (main args env diagnose sync daemon = mkRun None (SysExit 1) <->
   (exists var, var ∈ required_vars /\
                (env !! var = None \/ env !! var = Some EmptyString))) /\
  (started (main args env diagnose sync daemon) = None /\
   process_status (ending (main args env diagnose sync daemon)) = Some 1 <->
   (exists var, var ∈ required_vars /\
                (env !! var = None \/ env !! var = Some EmptyString)) \/
   (args_health_check args = false /\ args_diagnose args = false /\
    args_once args = false /\
    lower (getenv env "RUN_MODE" "daemon") = "daemon" /\
    (int_of_str (getenv env "SYNC_INTERVAL_HOURS" "0") = None \/
     int_of_str (getenv env "STARTUP_DELAY" "30") = None))).
Proof.
  rewrite <- validate_environment_missing, <- scheduler_config_raises. unfold main.
  destruct (validate_environment env); simpl.
  2: { split; split; auto. }
  destruct (args_health_check args); simpl.
  { split; split; try discriminate.
    - intros [[= ] _].
    - intros [[= ] | ([= ] & _)]. }
  destruct (args_diagnose args); simpl.
  { split; split; try discriminate.
    - intros [[= ] _].
    - intros [[= ] | (_ & [= ] & _)]. }
  destruct (args_once args); simpl.
  { split; split; try discriminate.
    - intros [[= ] _].
    - intros [[= ] | (_ & _ & [= ] & _)]. }
  destruct (bool_decide (lower _ = "once")) eqn:Honce.
  { apply bool_decide_eq_true in Honce. split; split; try discriminate.
    - intros [[= ] _].
    - intros [[= ] | (_ & _ & _ & Hmode & _)]. rewrite Honce in Hmode. discriminate. }
  destruct (bool_decide (lower _ = "daemon")) eqn:Hmode.
  - apply bool_decide_eq_true in Hmode.
    destruct (get_scheduler_config env) as [config | e] eqn:Hconfig; simpl.
    + split; split; try discriminate.
      * intros [[= ] _].
      * intros [[= ] | (_ & _ & _ & _ & e & [= ])].
    + split; split; try discriminate.
      * intros _. right. eauto 10.
      * intros _. split; reflexivity.
  - apply bool_decide_eq_false in Hmode. split; split; try discriminate.
    + intros [[= ] _].
    + intros [[= ] | (_ & _ & _ & Hd & _)]. contradiction.
Qed.

(** X17. The health check of the command line. With [--health-check],
    [main] exits with status 0 exactly when the six required variables
    are provided and, if [HEALTH_CHECK_CONNECTIVITY] is [true] in any
    letter case, the CardDAV diagnostic succeeds; the diagnostic is the
    only connection that is tested, the calendar server is not
    contacted. The other flags and [RUN_MODE] play no part. *)
Theorem health_check_exit (args : Args) (env : gmap string string) (diagnose sync : Call)
    (daemon : DaemonEnd) :
  args_health_check args = true ->
  started (main args env diagnose sync daemon) <> Some RunSync /\
  started (main args env diagnose sync daemon) <> Some RunDaemon /\
  (ending (main args env diagnose sync daemon) = SysExit 0 <->
   (forall var, var ∈ required_vars -> provided env var) /\
   (lower (getenv env "HEALTH_CHECK_CONNECTIVITY" "false") = "true" ->
    diagnose = Returned true)) /\
  (process_status (ending (main args env diagnose sync daemon)) = Some 0 <->
   ending (main args env diagnose sync daemon) = SysExit 0).
Proof.
  intros Hflag. rewrite <- validate_environment_spec. unfold main, health_check.
  destruct (validate_environment env); simpl.
  - rewrite Hflag. simpl. split; [discriminate |]. split; [discriminate |]. split.
    + destruct (bool_decide _) eqn:Hconn.
      * apply bool_decide_eq_true in Hconn. destruct diagnose as [[] |]; simpl; split; auto.
        -- intros [= ].
        -- intros [_ Hd]. specialize (Hd Hconn). discriminate.
        -- intros [= ].
        -- intros [_ Hd]. specialize (Hd Hconn). discriminate.
      * apply bool_decide_eq_false in Hconn. simpl. split; [| reflexivity].
        intros _. split; [reflexivity | intros; contradiction].
    + destruct (exit_of _) as [status | e | |]; simpl; split; try discriminate.
      * intros [= ->]. reflexivity.
      * intros [= ->]. reflexivity.
  - split; [discriminate |]. split; [discriminate |].
    split; split; try discriminate. intros [[= ] _].
Qed.

End CommandLineFacts.

Lemma health_check_exit_witness :
  started (main (H := Ref.py_str) (mkArgs true true true false) FurtherScenario.full_env
             (Returned false) (Returned true) DaemonRunning) <> Some RunSync /\
  started (main (H := Ref.py_str) (mkArgs true true true false) FurtherScenario.full_env
             (Returned false) (Returned true) DaemonRunning) <> Some RunDaemon /\
  (ending (main (H := Ref.py_str) (mkArgs true true true false) FurtherScenario.full_env
             (Returned false) (Returned true) DaemonRunning) = SysExit 0 <->
   (forall var, var ∈ required_vars -> provided FurtherScenario.full_env var) /\
   (lower (PyStr := Ref.py_str)
      (getenv FurtherScenario.full_env "HEALTH_CHECK_CONNECTIVITY" "false") = "true" ->
    Returned false = Returned true)) /\
  (process_status
     (ending (main (H := Ref.py_str) (mkArgs true true true false) FurtherScenario.full_env
                (Returned false) (Returned true) DaemonRunning)) = Some 0 <->
   ending (main (H := Ref.py_str) (mkArgs true true true false) FurtherScenario.full_env
             (Returned false) (Returned true) DaemonRunning) = SysExit 0).
Proof.
  apply (health_check_exit (H := Ref.py_str) (mkArgs true true true false)
           FurtherScenario.full_env (Returned false) (Returned true) DaemonRunning).
  reflexivity.
Defined.

(** A setting [int] rejects: the daemon does not start and the process
    ends with status 1; with [--once] the setting is not read. A run mode
    that is not known syncs once; the daemon that a signal stops exits
    with status 0, the one whose wait raises ends with status 1. *)
Example sync_once_modes :
  main (H := Ref.py_str) (mkArgs false false false false)
    (<[ "SYNC_INTERVAL_HOURS" := "six" ]> FurtherScenario.full_env)
    (Returned true) (Returned true) DaemonRunning
  = mkRun None (Uncaught ValueError) /\
  main (H := Ref.py_str) (mkArgs false false true false)
    (<[ "SYNC_INTERVAL_HOURS" := "six" ]> FurtherScenario.full_env)
    (Returned true) (Returned true) DaemonRunning
  = mkRun (Some RunSync) (SysExit 0) /\
  main (H := Ref.py_str) (mkArgs false false false false)
    (<[ "RUN_MODE" := "Cron" ]> FurtherScenario.full_env)
    (Returned true) (Returned false) DaemonRunning
  = mkRun (Some RunSync) (SysExit 1) /\
  main (H := Ref.py_str) (mkArgs false false false false)
    (<[ "RUN_MODE" := "DAEMON" ]> FurtherScenario.full_env)
    (Returned true) (Returned false) DaemonReturned
  = mkRun (Some RunDaemon) (SysExit 0) /\
  process_status
    (ending (main (H := Ref.py_str) (mkArgs false false false false)
               FurtherScenario.full_env (Returned true) (Returned true)
               (DaemonRaised ValueError)))
  = Some 1.
Proof. repeat split; reflexivity. Qed.

(** ** Discovery and contacts *)

Section CardDAVFacts.
Context `{PyStr} `{CardDAVLibs} `{UnicodeData}.

Lemma discover_inv server_url auth response client :
  CardDAV.discover server_url auth response = CardDAV.Discovered client ->
  CardDAV.server_url client = server_url /\ CardDAV.auth client = auth /\
  CardDAV.addressbook_urls client <> [] /\
  ((CardDAV.addressbook_urls client = [server_url] /\
    CardDAV._extract_addressbooks server_url (text response) = Return [] /\
    CardDAV._is_addressbook (text response) = true) \/
   CardDAV._extract_addressbooks server_url (text response)
   = Return (CardDAV.addressbook_urls client)).
Proof.
  unfold CardDAV.discover.
  destruct (CardDAV._extract_addressbooks server_url (text response)) as [[| url urls] |];
    [| | discriminate].
  - destruct (CardDAV._is_addressbook (text response)) eqn:Hab; [| discriminate].
    intros [= <-]. simpl. repeat split; [discriminate | auto].
  - intros [= <-]. simpl. repeat split; [discriminate | auto].
Qed.

(** X19. A client that the constructor has built is ready for use. Its
    server URL is the given one without slashes at the end; the server
    answered the discovery with 200 or 207 under the authentication the
    client keeps; Digest is kept only after the server answered 401 to
    Basic; and the client has at least one addressbook: those found in the
    answer or, when none is found and the answer itself describes an
    addressbook, the server URL alone. *)
Theorem discovered_client (url : string) (client : CardDAV.Client) :
  CardDAV.__init__ url = CardDAV.Discovered client ->
  CardDAV.server_url client = CardDAV.rstrip_char "/" url /\
  CardDAV.addressbook_urls client <> [] /\
  exists response,
    propfind_discover (CardDAV.server_url client) (CardDAV.auth client) = Return response /\
    CardDAV.ok_status response = true /\
    (CardDAV.auth client = HTTPDigestAuth ->
     exists refused,
       propfind_discover (CardDAV.server_url client) HTTPBasicAuth = Return refused /\
       status_code refused = 401) /\
    ((CardDAV.addressbook_urls client = [CardDAV.server_url client] /\
      CardDAV._extract_addressbooks (CardDAV.server_url client) (text response) = Return [] /\
      CardDAV._is_addressbook (text response) = true) \/
     CardDAV._extract_addressbooks (CardDAV.server_url client) (text response)
     = Return (CardDAV.addressbook_urls client)).
Proof.
  unfold CardDAV.__init__, CardDAV._test_auth_and_discover.
  set (server_url := CardDAV.rstrip_char "/" url).
  destruct (propfind_discover server_url HTTPBasicAuth) as [basic |] eqn:Hbasic;
    [| discriminate].
  destruct (CardDAV.ok_status basic) eqn:Hok.
  - intros Hd. apply discover_inv in Hd as (Hurl & Hauth & Hne & Hbooks).
    rewrite Hurl, Hauth. split; [reflexivity |]. split; [exact Hne |].
    exists basic. split; [exact Hbasic |]. split; [exact Hok |].
    split; [discriminate | exact Hbooks].
  - destruct (status_code basic =? 401) eqn:H401; [| discriminate].
    destruct (propfind_discover server_url HTTPDigestAuth) as [digest |] eqn:Hdigest;
      [| discriminate].
    destruct (CardDAV.ok_status digest) eqn:Hok'; [| discriminate].
    intros Hd. apply discover_inv in Hd as (Hurl & Hauth & Hne & Hbooks).
    rewrite Hurl, Hauth. split; [reflexivity |]. split; [exact Hne |].
    exists digest. split; [exact Hdigest |]. split; [exact Hok' |].
    split; [| exact Hbooks].
    intros _. exists basic. split; [exact Hbasic | apply Z.eqb_eq; exact H401].
Qed.

Lemma addressbooks_of_listed server_url responses urls block group full_url :
  CardDAV.addressbooks_of server_url responses = Return urls ->
  block ∈ responses ->
  re_search "<d:href[^>]*>([^<]+)</d:href>" block = Some group ->
  CardDAV._is_addressbook block = true ->
  CardDAV.is_parent server_url (Str.strip group) = false ->
  CardDAV._resolve_url server_url (Str.strip group) = Return full_url ->
  full_url ∈ urls.
Proof.
  intros Hof Hin Hsearch Hab Hparent Hresolve. revert urls Hof.
  induction Hin as [block rest | block other rest Hin IH]; intros urls; simpl.
  - rewrite Hsearch, Hab, Hparent, Hresolve. simpl. unfold_res.
    destruct (CardDAV.addressbooks_of server_url rest); [| discriminate].
    intros [= <-]. left.
  - specialize (IH Hsearch Hab).
    destruct (re_search _ other) as [group' |]; [| apply IH].
    destruct (CardDAV._is_addressbook other && _); [| apply IH].
    unfold_res. destruct (CardDAV._resolve_url server_url (Str.strip group'));
      [| discriminate].
    destruct (CardDAV.addressbooks_of server_url rest) as [urls' |]; [| discriminate].
    intros [= <-]. right. apply IH. reflexivity.
Qed.

Lemma startswith_differ p s t :
  Str.startswith p s = true -> Str.startswith p t = false -> String.eqb s t = false.
Proof.
  intros Hs Ht. apply String.eqb_neq. intros ->. congruence.
Qed.

Lemma startswith_append p s t :
  Str.startswith p s = true -> Str.startswith p (s +:+ t) = true.
Proof.
  revert s. induction p as [| a p IH]; intros s; [reflexivity |].
  destruct s as [| b s]; [discriminate |]. rewrite StrFacts.append_cons. simpl.
  intros Hs. apply andb_true_iff in Hs as [-> Hs]. simpl. apply IH. exact Hs.
Qed.

(** X20. The collection that was asked for is left out of the
    addressbooks only if the server writes its href as the full URL. When
    the server URL begins with [http] and a response block gives its href
    as a path (it begins with a slash), the block is listed as an
    addressbook as soon as its text passes the addressbook test, under
    the scheme and host of the server URL; the block of the collection
    itself is no exception. *)
Theorem path_href_is_listed (server_url xml_response : string) (urls : list string)
    (block group : string) (parsed : string * string) :
  CardDAV._extract_addressbooks server_url xml_response = Return urls ->
  block ∈ re_findall "<d:response[^>]*>(.*?)</d:response>" true xml_response ->
  re_search "<d:href[^>]*>([^<]+)</d:href>" block = Some group ->
  CardDAV._is_addressbook block = true ->
  Str.startswith "/" (Str.strip group) = true ->
  Str.startswith "http" server_url = true ->
  urlparse server_url = Return parsed ->
  parsed.1 +:+ "://" +:+ parsed.2 +:+ Str.strip group ∈ urls.
Proof.
  intros Hextract Hin Hsearch Hab Hpath Hhttp Hparse.
  assert (Hslash : forall t, Str.startswith "http" t = true -> Str.startswith "/" t = false).
  { intros [| c t]; [discriminate |]. cbn [Str.startswith]. intros Ht.
    apply andb_true_iff in Ht as [Hc _]. apply Ascii.eqb_eq in Hc as <-. reflexivity. }
  assert (Hhref : Str.startswith "http" (Str.strip group) = false).
  { destruct (Str.startswith "http" (Str.strip group)) eqn:E; [| reflexivity].
    apply Hslash in E. congruence. }
  apply (addressbooks_of_listed server_url _ urls block group _ Hextract Hin Hsearch Hab).
  - unfold CardDAV.is_parent. apply orb_false_iff. split.
    + apply (startswith_differ "/"); [exact Hpath | apply Hslash; exact Hhttp].
    + apply (startswith_differ "/"); [exact Hpath |].
      apply Hslash, startswith_append. exact Hhttp.
  - unfold CardDAV._resolve_url. rewrite Hhref, Hpath, Hparse. reflexivity.
Qed.

Lemma fetch_vcard_spec self addressbook_url vcard_url f :
  f ∈ CardDAV.fetch_vcard self addressbook_url vcard_url <->
  CardDAV.addressbook f = addressbook_url /\
  exists full_url card,
    CardDAV._resolve_url (CardDAV.server_url self) vcard_url = Return full_url /\
    requests_get full_url (CardDAV.auth self) = Return card /\
    status_code card = 200 /\
    CardDAV._parse_vcard (text card) = Some (CardDAV.contact f).
Proof.
  unfold CardDAV.fetch_vcard. split.
  - destruct (CardDAV._resolve_url _ _) as [full_url |]; [| intros Hin; inversion Hin].
    destruct (requests_get _ _) as [card |] eqn:Hget; [| intros Hin; inversion Hin].
    destruct (status_code card =? 200) eqn:Hstatus; [| intros Hin; inversion Hin].
    destruct (CardDAV._parse_vcard _) as [c |] eqn:Hparse; [| intros Hin; inversion Hin].
    intros Hin. apply list_elem_of_singleton in Hin as ->. simpl.
    split; [reflexivity |]. exists full_url, card. apply Z.eqb_eq in Hstatus. auto.
  - intros (Hab & full_url & card & -> & -> & Hstatus & Hparse).
    rewrite Hstatus, Hparse. simpl. destruct f as [c ab]. simpl in *. subst ab.
    apply list_elem_of_singleton. reflexivity.
Qed.

Lemma parse_vcard_text_valid vcard_text c :
  CardDAV._parse_vcard vcard_text = Some c ->
  valid_date (year (birthday c)) (month (birthday c)) (day (birthday c)) = true.
Proof.
  unfold CardDAV._parse_vcard.
  destruct (negb _); [discriminate |].
  destruct (readOne _) as [v |]; [| discriminate].
  intros Hc. destruct (parse_vcard_inv v c Hc) as (b & _ & Hd).
  exact (parse_bday_valid b _ Hd).
Qed.

(** X21. [get_contacts] returns exactly the contacts that could be read,
    and a failure costs no more than what failed. A contact is returned
    for an addressbook exactly when this addressbook is one of the
    client's, answered its listing with 200 or 207, the listing names a
    card, and that card was fetched with status 200 and parsed to the
    contact; requests that fail, other statuses and cards that do not
    parse drop their own addressbook or card only. Every contact returned
    has a birthday that is a date of the calendar. *)
Theorem fetched_contacts (self : CardDAV.Client) (f : CardDAV.Fetched) :
  (f ∈ CardDAV.get_contacts self <-> fetched_from self f) /\
  (f ∈ CardDAV.get_contacts self ->
   valid_date (year (birthday (CardDAV.contact f))) (month (birthday (CardDAV.contact f)))
     (day (birthday (CardDAV.contact f))) = true).
Proof.
  assert (Hiff : f ∈ CardDAV.get_contacts self <-> fetched_from self f).
  { unfold CardDAV.get_contacts, fetched_from. rewrite list_elem_of_In, in_flat_map. split.
    - intros (url & Hurl & Hin). apply list_elem_of_In in Hurl.
      unfold CardDAV._get_contacts_from_addressbook in Hin.
      destruct (propfind_resources url (CardDAV.auth self)) as [listing |] eqn:Hlist;
        [| destruct Hin].
      destruct (CardDAV.ok_status listing) eqn:Hok; [| destruct Hin].
      apply in_flat_map in Hin as (vcard_url & Hcard & Hin).
      apply list_elem_of_In, fetch_vcard_spec in Hin
        as (Hab & full_url & card & Hres & Hget & Hstatus & Hparse).
      rewrite Hab. split; [exact Hurl |].
      exists listing, vcard_url, full_url, card.
      apply list_elem_of_In in Hcard. auto 10.
    - intros (Hurl & listing & vcard_url & full_url & card
              & Hlist & Hok & Hcard & Hres & Hget & Hstatus & Hparse).
      exists (CardDAV.addressbook f). split; [apply list_elem_of_In; exact Hurl |].
      unfold CardDAV._get_contacts_from_addressbook. rewrite Hlist, Hok.
      apply in_flat_map. exists vcard_url. split; [apply list_elem_of_In; exact Hcard |].
      apply list_elem_of_In, fetch_vcard_spec. split; [reflexivity |].
      exists full_url, card. auto. }
  split; [exact Hiff |].
  intros Hin. apply Hiff in Hin as (_ & ? & ? & ? & card & _ & _ & _ & _ & _ & _ & Hparse).
  exact (parse_vcard_text_valid _ _ Hparse).
Qed.

Lemma unreachable_no_contacts self : unreachable self -> CardDAV.get_contacts self = [].
Proof.
  unfold unreachable, CardDAV.get_contacts. intros Hdown.
  induction (CardDAV.addressbook_urls self) as [| url urls IH]; [reflexivity |].
  simpl. rewrite IH.
  - unfold CardDAV._get_contacts_from_addressbook.
    destruct (propfind_resources url (CardDAV.auth self)) as [listing |] eqn:Hlist;
      [| reflexivity].
    rewrite (Hdown url listing); [reflexivity | left | exact Hlist].
  - intros url' listing Hin. apply Hdown. right. exact Hin.
Qed.

(** X22. An addressbook server that stops answering after the discovery
    makes the pass fail, not succeed with nothing to do. When no
    addressbook of the client answers its listing with 200 or 207,
    [get_contacts] returns the empty list without raising and [main_sync]
    returns [False] before the loop: the calendar client has been
    constructed by then (which connects to the calendar server), but no
    reconciliation is called, so that no event is looked up, created or
    updated and the calendar is as it was. *)
Theorem cardav_outage_fails_pass `{CalDAVServer} (w : World) (client : CardDAV.Client)
    (current_year : Z) (cal : Calendar) :
  get_contacts w = Return (CardDAV.contact <$> CardDAV.get_contacts client) ->
  unreachable client ->
  CardDAV.get_contacts client = [] /\
  main_sync w current_year cal = (false, mkPassState 0 0 cal []).
Proof.
  intros Hget Hdown. pose proof (unreachable_no_contacts client Hdown) as Hnone.
  split; [exact Hnone |].
  unfold main_sync. rewrite Hget, Hnone. unfold_res. simpl.
  destruct (cardav_client w); [| reflexivity].
  destruct (caldav_client w); reflexivity.
Qed.

End CardDAVFacts.

Lemma discovered_client_witness :
  CardDAV.server_url FurtherScenario.dav_client
  = CardDAV.rstrip_char "/" "https://dav.example/addressbooks/bob/" /\
  CardDAV.addressbook_urls FurtherScenario.dav_client <> [] /\
  exists response,
    propfind_discover (CardDAVLibs := FurtherScenario.libs)
      (CardDAV.server_url FurtherScenario.dav_client)
      (CardDAV.auth FurtherScenario.dav_client) = Return response /\
    CardDAV.ok_status response = true /\
    (CardDAV.auth FurtherScenario.dav_client = HTTPDigestAuth ->
     exists refused,
       propfind_discover (CardDAVLibs := FurtherScenario.libs)
         (CardDAV.server_url FurtherScenario.dav_client) HTTPBasicAuth = Return refused /\
       status_code refused = 401) /\
    ((CardDAV.addressbook_urls FurtherScenario.dav_client
      = [CardDAV.server_url FurtherScenario.dav_client] /\
      CardDAV._extract_addressbooks (H := Ref.py_str) (H0 := FurtherScenario.libs)
        (CardDAV.server_url FurtherScenario.dav_client) (text response) = Return [] /\
      CardDAV._is_addressbook (H := Ref.py_str) (text response) = true) \/
     CardDAV._extract_addressbooks (H := Ref.py_str) (H0 := FurtherScenario.libs)
       (CardDAV.server_url FurtherScenario.dav_client) (text response)
     = Return (CardDAV.addressbook_urls FurtherScenario.dav_client)).
Proof.
  apply (discovered_client (H := Ref.py_str) (H0 := FurtherScenario.libs)
           "https://dav.example/addressbooks/bob/" FurtherScenario.dav_client).
  vm_compute. reflexivity.
Defined.

Lemma path_href_is_listed_witness :
  "https://dav.example/addressbooks/bob/"
  ∈ ["https://dav.example/addressbooks/bob/";
     "https://dav.example/addressbooks/bob/contacts/"].
Proof.
  apply (path_href_is_listed (H := Ref.py_str) (H0 := FurtherScenario.libs)
           FurtherScenario.dav_url FurtherScenario.discovery_xml
           ["https://dav.example/addressbooks/bob/";
            "https://dav.example/addressbooks/bob/contacts/"]
           FurtherScenario.home_block "/addressbooks/bob/" ("https", "dav.example")).
  - vm_compute. reflexivity.
  - vm_compute. left.
  - vm_compute. reflexivity.
  - vm_compute. reflexivity.
  - vm_compute. reflexivity.
  - vm_compute. reflexivity.
  - vm_compute. reflexivity.
Defined.

(** Bob is read; the card of Eve, which cannot be fetched, costs the
    list nothing else. *)
Example contacts_of_the_scenario :
  CardDAV.get_contacts (H := Ref.py_str) (H0 := FurtherScenario.libs) (H1 := Ref.unicode)
    FurtherScenario.dav_client
  = [CardDAV.mkFetched Scenario.bob "https://dav.example/addressbooks/bob/contacts/"].
Proof. vm_compute. reflexivity. Qed.

Lemma cardav_outage_fails_pass_witness :
  CardDAV.get_contacts (H := Ref.py_str) (H0 := FurtherScenario.libs) (H1 := Ref.unicode)
    FurtherScenario.stale_client = [] /\
  main_sync (H := Ref.py_str) (H0 := Ref.server) FurtherScenario.stale_world 2025
    [ICal Scenario.bob_event]
  = (false, mkPassState 0 0 [ICal Scenario.bob_event] []).
Proof.
  apply (cardav_outage_fails_pass (H := Ref.py_str) (H0 := FurtherScenario.libs)
           (H1 := Ref.unicode) (H2 := Ref.server) FurtherScenario.stale_world FurtherScenario.stale_client 2025
           [ICal Scenario.bob_event]).
  - reflexivity.
  - intros url listing Hin. apply list_elem_of_singleton in Hin as ->. discriminate.
Defined.
